(** * Lunar habitat layout core

    A shallow embedding of the [lunar_layout] package: the data model
    ([models.py]), the constraint validator ([constraints.py]), the scorer
    ([scoring.py]), the initial-layout generator ([generator.py]) and the
    simulated-annealing optimizer ([optimizer.py]).

    Conventions of the embedding.
    - A Python [float] is a rational ([Q]); arithmetic is exact, so there is no
      rounding, no infinity and no NaN.  A Python [int] is a [Z].
    - A [Dict[str, object]] is a [gmap string pyval]; the adjacency graph, whose
      iteration order the validator relies on, is an insertion-ordered
      association list.
    - A raised exception is the [Raise] branch of [result].
    - What the package takes from the interpreter and its standard library
      (the [random.Random] methods, [math.sqrt], [math.exp], float power,
      parsing a string into a number) is an interface, [Host].
    - The functions pass values.  The optimizer is also written over a store
      of layout and generator objects, with the writes and the aliasing of
      the source, and shown to run the functions on values. *)

From Stdlib Require Import QArith Qminmax Lqa ZArith List Lia.
From stdpp Require Import gmap strings list.

Open Scope Q_scope.

(** ** Python values and exceptions *)

Inductive pyval : Type :=
| VNone
| VBool (b : bool)
| VInt (z : Z)
| VFloat (q : Q)
| VStr (s : string).

(** The [ValueError]s of the package are told apart by their message. *)
Inductive value_error : Type :=
| ConfigCrewOutOfRange
    (* "Config crew outside supported range" *)
| GenerationFailed (failed_rules : list string)
    (* f"Initial layout generation failed: {result.failed_rules}" *)
| WeightsNotPositive
    (* "Score weights must sum to more than zero" *)
| MathDomain
    (* math.sqrt of a negative number *)
| InvalidLiteral
    (* int() or float() of a string that is no numeral *)
| Unpack.
    (* "a, b = pair" on a pair that has not two items *)

Inductive exn : Type :=
| ValueError (e : value_error)
| TypeError
| ZeroDivisionError
| ValidationError.

Inductive result (A : Type) : Type :=
| Ok (a : A)
| Raise (e : exn).

Arguments Ok {A} a.
Arguments Raise {A} e.

#[export] Instance result_ret : MRet result := fun A a => Ok a.
#[export] Instance result_bind : MBind result := fun A B k m =>
  match m with
  | Ok a => k a
  | Raise e => Raise e
  end.

Definition is_ok {A : Type} (m : result A) : bool :=
  match m with Ok _ => true | Raise _ => false end.

(** ** Floats and their comparisons *)

Definition Qltb (x y : Q) : bool := negb (Qle_bool y x).
Definition Qleb (x y : Q) : bool := Qle_bool x y.

(** Python's [max(a, b)] and [min(a, b)] keep the first argument on a tie. *)
Definition fmax (a b : Q) : Q := if Qltb a b then b else a.
Definition fmin (a b : Q) : Q := if Qltb b a then b else a.

(** True division raises on a zero divisor. *)
Definition fdiv (x y : Q) : result Q :=
  if Qeq_bool y 0 then Raise ZeroDivisionError else Ok (x / y).

(** [int(x)] of a float truncates toward zero. *)
Definition trunc (q : Q) : Z := Z.quot (Qnum q) (Zpos (Qden q)).

Definition fsum (l : list Q) : Q := fold_left Qplus l 0.

(** Truthiness of a value, as [not x] and [x and y] see it. *)
Definition truthy (v : pyval) : bool :=
  match v with
  | VNone => false
  | VBool b => b
  | VInt z => negb (z =? 0)%Z
  | VFloat q => negb (Qeq_bool q 0)
  | VStr s => negb (String.eqb s "")
  end.

(** ** The host: interpreter built-ins and the standard library *)

Class Host : Type := {
  (** [int(s)] and [float(s)] of a string; [None] when they raise. *)
  int_of_str : string -> option Z;
  float_of_str : string -> option Q;
  (** pydantic's coercion of a value into a [str] field, and [s.strip()]. *)
  str_coerce : pyval -> option string;
  str_strip : string -> string;
  (** [math.sqrt] on a non-negative argument, [math.exp], and [x ** y]. *)
  math_sqrt : Q -> Q;
  math_exp : Q -> Q;
  float_pow : Q -> Q -> Q;
  (** A [random.Random] instance is its state. *)
  rng : Type;
  Random : Z -> rng;
  rng_random : rng -> Q * rng;
  rng_uniform : Q -> Q -> rng -> Q * rng;
  rng_randint : Z -> Z -> rng -> Z * rng;
  (** [choice(seq)] and [sample(seq, 2)] by position in a sequence of the
      given length. *)
  rng_choice : nat -> rng -> nat * rng;
  rng_sample2 : nat -> rng -> (nat * nat) * rng
}.

(** What the documentation of [random] promises about the draws. *)
Record HostLaws (H : Host) : Prop := {
  random_range : forall s, 0 <= fst (rng_random s) /\ fst (rng_random s) < 1;
  uniform_range : forall a b s, a <= b ->
    a <= fst (rng_uniform a b s) /\ fst (rng_uniform a b s) <= b;
  randint_range : forall a b s, (a <= b)%Z ->
    (a <= fst (rng_randint a b s) <= b)%Z;
  choice_range : forall n s, (0 < n)%nat -> (fst (rng_choice n s) < n)%nat;
  sample2_range : forall n s, (2 <= n)%nat ->
    let '(i, j) := fst (rng_sample2 n s) in (i < n)%nat /\ (j < n)%nat /\ i <> j;
  coerce_str : forall s, str_coerce (VStr s) = Some s
}.

Section Builtins.
Context {H : Host}.

(** [int(x)] *)
Definition py_int (v : pyval) : result Z :=
  match v with
  | VNone => Raise TypeError
  | VBool b => Ok (Z.b2z b)
  | VInt z => Ok z
  | VFloat q => Ok (trunc q)
  | VStr s => match int_of_str s with
              | Some z => Ok z
              | None => Raise (ValueError InvalidLiteral)
              end
  end.

(** [float(x)] *)
Definition py_float (v : pyval) : result Q :=
  match v with
  | VNone => Raise TypeError
  | VBool b => Ok (inject_Z (Z.b2z b))
  | VInt z => Ok (inject_Z z)
  | VFloat q => Ok q
  | VStr s => match float_of_str s with
              | Some q => Ok q
              | None => Raise (ValueError InvalidLiteral)
              end
  end.

(** [math.sqrt(x)] *)
Definition py_sqrt (x : Q) : result Q :=
  if Qltb x 0 then Raise (ValueError MathDomain) else Ok (math_sqrt x).

End Builtins.

(** [d.get(key, default)] *)
Definition dict_get (d : gmap string pyval) (key : string) (default : pyval) : pyval :=
  match d !! key with
  | Some v => v
  | None => default
  end.

(** ** Data model ([models.py]) *)

Inductive PrivacyLevel : Type := Low | Medium | High.
Inductive LightingProfile : Type := Warm3000K | Neutral4000K | Cool6500K | Adaptive.
Inductive HabitatType : Type := Inflatable | Rigid | RegolithHybrid.

#[export] Instance PrivacyLevel_eq_dec : EqDecision PrivacyLevel.
Proof. solve_decision. Defined.

(** The closed set [ZoneName]. *)
Definition zone_names_literal : list string :=
  ["Airlock"; "Work"; "HygieneMedical"; "GalleyDining"; "CrewQuarters";
   "Exercise"; "MaintenanceStorage"; "StormShelter"; "Agriculture"].

Definition in_strs (x : string) (l : list string) : bool :=
  existsb (String.eqb x) l.

Record Zone : Type := {
  name : string;
  volume_m3 : Q;
  usable_ratio : Q;
  privacy : PrivacyLevel;
  connections : list string;
  acoustic_isolation : Q;
  lighting : LightingProfile;
  is_pressurized : bool;
  is_egress : bool;
  equipment : list string
}.

Record Systems : Type := {
  eclss_redundancy_loops : Z;
  water_recycling_rate : Q;
  power : gmap string pyval;
  dust_mitigation : gmap string pyval
  (* the [thermal] and [comms] dictionaries are never read by the core *)
}.

Record Layout : Type := {
  habitat_name : string;
  habitat_type : HabitatType;
  pressurized_volume_m3 : Q;
  zones : list Zone;
  systems : Systems;
  shield_equivalent_g_cm2 : Q;
  isru_ratio : Q;
  docking_ports : Z;
  metadata : gmap string pyval
}.

Record Metrics : Type := {
  nhv_m3 : Q;
  nhv_efficiency : Q;
  transit_distance_score : Q;
  privacy_score : Q;
  sustainability_score : Q;
  energy_use_kwh_per_person_day : Q;
  safety_redundancy_score : Q;
  feasibility : bool
}.

Record ConstraintSettings : Type := {
  min_crew : Z;
  max_crew : Z;
  min_duration_days : Z;
  max_duration_days : Z;
  min_nhv_per_person : Q;
  min_nhv_efficiency : Q;
  min_shield_g_cm2 : Q;
  min_eclss_loops : Z;
  min_water_recycling : Q;
  min_power_autonomy_days : Z;
  min_privacy_quarters : Q;
  required_zones : list string;
  adjacency_pairs : list (list string);
  max_storm_shelter_hops : Z
}.

(** [ConstraintSettings()] *)
Definition default_settings : ConstraintSettings := {|
  min_crew := 2;
  max_crew := 4;
  min_duration_days := 30;
  max_duration_days := 180;
  min_nhv_per_person := 25.0;
  min_nhv_efficiency := 0.70;
  min_shield_g_cm2 := 5.0;
  min_eclss_loops := 2;
  min_water_recycling := 0.90;
  min_power_autonomy_days := 14;
  min_privacy_quarters := 0.7;
  required_zones :=
    ["Airlock"; "Work"; "HygieneMedical"; "GalleyDining"; "CrewQuarters";
     "Exercise"; "MaintenanceStorage"; "StormShelter"];
  adjacency_pairs :=
    [["Airlock"; "Work"]; ["CrewQuarters"; "HygieneMedical"];
     ["CrewQuarters"; "GalleyDining"]];
  max_storm_shelter_hops := 3
|}.

Record ScoreWeights : Type := {
  w_volume_eff : Q;
  w_privacy : Q;
  w_transit : Q;
  w_safety : Q;
  w_sustain : Q;
  w_energy : Q
}.

(** [ScoreWeights()] *)
Definition default_weights : ScoreWeights := {|
  w_volume_eff := 0.20;
  w_privacy := 0.15;
  w_transit := 0.15;
  w_safety := 0.20;
  w_sustain := 0.15;
  w_energy := 0.15
|}.

Definition weights_total (w : ScoreWeights) : Q :=
  w_volume_eff w + w_privacy w + w_transit w + w_safety w + w_sustain w + w_energy w.

(** [ScoreWeights.normalized] *)
Definition normalized (w : ScoreWeights) : result ScoreWeights :=
  let total := weights_total w in
  if Qleb total 0 then Raise (ValueError WeightsNotPositive)
  else Ok {|
    w_volume_eff := w_volume_eff w / total;
    w_privacy := w_privacy w / total;
    w_transit := w_transit w / total;
    w_safety := w_safety w / total;
    w_sustain := w_sustain w / total;
    w_energy := w_energy w / total
  |}.

(** A message of the validator: the text of its f-string and the values
    interpolated into it. *)
Inductive message : Type :=
| Msg (template : string) (args : list pyval).

(** The [metrics] field of a [ValidationResult] is never set by the validator;
    it is [validation_metrics] here, apart from the field of the optimizer's
    result. *)
Record ValidationResult : Type := {
  passed : bool;
  messages : list message;
  failed_rules : list string;
  validation_metrics : option Metrics
}.

Record OptimizationLogEntry : Type := {
  iteration : Z;
  score : Q;
  accepted : bool;
  reason : string
}.

(** The fields [layout], [metrics], [score] and [history] of the result. *)
Record OptimizationResult : Type := {
  result_layout : Layout;
  result_metrics : Metrics;
  result_score : Q;
  result_history : list OptimizationLogEntry
}.

(** ** Constraint validator ([constraints.py]) *)

(** The adjacency graph is a [Dict[str, List[str]]]: its keys are kept in
    insertion order, which [next(iter(graph))] and [for node in graph] see. *)
Definition graph : Type := list (string * list string).

Fixpoint graph_lookup (g : graph) (k : string) : option (list string) :=
  match g with
  | [] => None
  | (k', adj) :: g' => if String.eqb k' k then Some adj else graph_lookup g' k
  end.

(** [graph.get(k, [])] *)
Definition graph_get (g : graph) (k : string) : list string :=
  match graph_lookup g k with
  | Some adj => adj
  | None => []
  end.

(** [k in graph] *)
Definition graph_mem (g : graph) (k : string) : bool :=
  match graph_lookup g k with
  | Some _ => true
  | None => false
  end.

(** [graph.setdefault(k, [])] *)
Definition graph_setdefault (g : graph) (k : string) : graph :=
  if graph_mem g k then g else g ++ [(k, [])].

(** [graph[k].append(v)], for a key that is present. *)
Fixpoint graph_append (g : graph) (k v : string) : graph :=
  match g with
  | [] => []
  | (k', adj) :: g' =>
      if String.eqb k' k then (k', adj ++ [v]) :: g'
      else (k', adj) :: graph_append g' k v
  end.

(** The body of the inner loop of [_build_adjacency]. *)
Definition add_neighbor (zone_name : string) (g : graph) (neighbor : string) : graph :=
  if String.eqb neighbor zone_name then g
  else
    let g1 := graph_setdefault g neighbor in
    let g2 := if in_strs neighbor (graph_get g1 zone_name) then g1
              else graph_append g1 zone_name neighbor in
    if in_strs zone_name (graph_get g2 neighbor) then g2
    else graph_append g2 neighbor zone_name.

Definition add_zone (g : graph) (zone : Zone) : graph :=
  fold_left (add_neighbor (name zone)) (connections zone)
            (graph_setdefault g (name zone)).

Definition _build_adjacency (layout : Layout) : graph :=
  fold_left add_zone (zones layout) [].

Definition _nhv (layout : Layout) : Q :=
  fsum (map (fun z => volume_m3 z * usable_ratio z)
            (filter (fun z => is_pressurized z = true) (zones layout))).

(** The number of adjacency entries of a graph, which bounds the length of
    every traversal below. *)
Definition graph_size (g : graph) : nat :=
  fold_right (fun '(_, adj) n => (S (length adj) + n)%nat) O g.

(** The recursive [dfs] of [_has_cycle]; [visited] is threaded through.  The
    recursion is as deep as the number of nodes at most, which [fuel] bounds. *)
Fixpoint dfs (fuel : nat) (g : graph) (node parent : string)
    (visited : gmap string string) : bool * gmap string string :=
  match fuel with
  | O => (false, visited)
  | S fuel' =>
      (fix loop (nbrs : list string) (visited : gmap string string) :=
         match nbrs with
         | [] => (false, visited)
         | nbr :: rest =>
             if String.eqb nbr parent then loop rest visited
             else if bool_decide (is_Some (visited !! nbr)) then (true, visited)
             else
               let '(found, visited') := dfs fuel' g nbr node visited in
               if found then (true, visited') else loop rest visited'
         end) (graph_get g node) (<[node := parent]> visited)
  end.

Fixpoint has_cycle_from (g : graph) (nodes : list string)
    (visited : gmap string string) : bool :=
  match nodes with
  | [] => false
  | node :: rest =>
      if bool_decide (is_Some (visited !! node)) then has_cycle_from g rest visited
      else
        let '(found, visited') := dfs (S (graph_size g)) g node "" visited in
        if found then true else has_cycle_from g rest visited'
  end.

Definition _has_cycle (g : graph) : bool :=
  has_cycle_from g (map fst g) ∅.

(** The [while queue] loop of [_storm_distance]. *)
Definition storm_push (dist : Z) (st : list (string * Z) * gset string) (nbr : string)
    : list (string * Z) * gset string :=
  let '(queue, seen) := st in
  if bool_decide (nbr ∈ seen) then (queue, seen)
  else (queue ++ [(nbr, (dist + 1)%Z)], seen ∪ {[nbr]}).

Fixpoint storm_loop (fuel : nat) (g : graph) (target : string)
    (queue : list (string * Z)) (seen : gset string) : Z :=
  match fuel with
  | O => (-1)%Z
  | S fuel' =>
      match queue with
      | [] => (-1)%Z
      | (node, dist) :: rest =>
          if String.eqb node target then dist
          else
            let '(queue', seen') :=
              fold_left (storm_push dist) (graph_get g node) (rest, seen) in
            storm_loop fuel' g target queue' seen'
      end
  end.

Definition _storm_distance (g : graph) (start target : string) : Z :=
  storm_loop (S (S (graph_size g))) g target [(start, 0%Z)] {[start]}.

(** The [while queue] loop of the connectivity rule. *)
Definition reach_push (seen : gset string) (queue : list string) (nbr : string)
    : list string :=
  if bool_decide (nbr ∈ seen) then queue else queue ++ [nbr].

Fixpoint reach_loop (fuel : nat) (g : graph) (queue : list string)
    (seen : gset string) : gset string :=
  match fuel with
  | O => seen
  | S fuel' =>
      match queue with
      | [] => seen
      | node :: rest =>
          if bool_decide (node ∈ seen) then reach_loop fuel' g rest seen
          else
            let seen' := seen ∪ {[node]} in
            reach_loop fuel' g (fold_left (reach_push seen') (graph_get g node) rest) seen'
      end
  end.

Definition reachable_from (g : graph) (start : string) : gset string :=
  reach_loop (S (S (graph_size g))) g [start] ∅.

(** [{zone.name: zone for zone in layout.zones}.get(key)]: the last zone of
    that name. *)
Definition zone_by_name (layout : Layout) (key : string) : option Zone :=
  fold_left (fun acc z => if String.eqb (name z) key then Some z else acc)
            (zones layout) None.

(** The two lists the validator appends to. *)
Record checks : Type := {
  failed : list string;
  msgs : list message
}.

Definition fail (rule : string) (m : message) (c : checks) : checks :=
  {| failed := failed c ++ [rule]; msgs := msgs c ++ [m] |}.

Definition note (m : message) (c : checks) : checks :=
  {| failed := failed c; msgs := msgs c ++ [m] |}.

(** The shape of most rules: [if violated: failed.append(rule);
    messages.append(bad) else: messages.append(good)]. *)
Definition rule (violated : bool) (rule_id : string) (bad good : message)
    (c : checks) : checks :=
  if violated then fail rule_id bad c else note good c.

(** [a, b = pair] *)
Definition unpack2 (pair : list string) : result (string * string) :=
  match pair with
  | [a; b] => Ok (a, b)
  | _ => Raise (ValueError Unpack)
  end.

Section Validator.
Context {H : Host}.

Definition _crew (layout : Layout) : result Z :=
  py_int (dict_get (metadata layout) "crew" (VInt 0)).

Definition _duration (layout : Layout) : result Z :=
  py_int (dict_get (metadata layout) "duration_days" (VInt 0)).

(** The connectivity rule and, inside its [else] branch, the redundant-path
    rule. *)
Definition check_connectivity (layout : Layout) (g : graph) (c : checks) : checks :=
  match g with
  | [] =>
      fail "connectivity" (Msg "No connectivity graph defined across zones." []) c
  | (start, _) :: _ =>
      let seen := reachable_from g start in
      let zone_names : gset string := list_to_set (map name (zones layout)) in
      let c1 :=
        rule (negb (size seen =? size zone_names)%nat)
          "connectivity"
          (Msg "Zone adjacency graph is disconnected." [])
          (Msg "Zone adjacency graph is connected." []) c in
      if negb (_has_cycle g) && negb (in_strs "connectivity" (failed c1))
      then fail "redundant_paths"
             (Msg "Adjacency graph lacks alternate routes; add redundant connections." []) c1
      else if negb (in_strs "connectivity" (failed c1))
      then note (Msg "Redundant paths present in adjacency graph." []) c1
      else c1
  end.

(** One turn of [for pair in settings.adjacency_pairs]. *)
Definition check_pair (g : graph) (c : result checks) (pair : list string)
    : result checks :=
  c0 ← c;
  '(a, b) ← unpack2 pair;
  if graph_mem g a && in_strs b (graph_get g a) then Ok c0
  else Ok (fail ("adjacency_" +:+ a +:+ "_" +:+ b)
             (Msg "Critical adjacency missing between {a} and {b}." [VStr a; VStr b]) c0).

(** The [for zone in layout.zones: ... break ... else: ...] of the storm
    shelter rule. *)
Fixpoint check_shelter_hops (g : graph) (shelter : Zone) (max_hops : Z)
    (zs : list Zone) (c : checks) : checks :=
  match zs with
  | [] => note (Msg "Storm shelter reachable within required hops." []) c
  | zone :: rest =>
      let dist := _storm_distance g (name zone) (name shelter) in
      if (dist =? -1)%Z || (max_hops <? dist)%Z
      then fail "storm_shelter_access"
             (Msg "Storm shelter too far from {zone.name} (distance {dist})."
                  [VStr (name zone); VInt dist]) c
      else check_shelter_hops g shelter max_hops rest c
  end.

Definition check_shelter (layout : Layout) (settings : ConstraintSettings)
    (g : graph) (c : checks) : checks :=
  match zone_by_name layout "StormShelter", g with
  | Some shelter, _ :: _ =>
      check_shelter_hops g shelter (max_storm_shelter_hops settings) (zones layout) c
  | _, _ =>
      fail "storm_shelter_access" (Msg "Storm shelter zone missing or disconnected." []) c
  end.

Definition check_quarters (layout : Layout) (settings : ConstraintSettings)
    (c : checks) : checks :=
  match zone_by_name layout "CrewQuarters" with
  | None => note (Msg "Crew quarters zone not defined." []) c
  | Some quarters =>
      rule (negb (bool_decide (privacy quarters = High))
            || Qltb (acoustic_isolation quarters) (min_privacy_quarters settings))
        "crew_privacy"
        (Msg "Crew quarters must have High privacy and acoustic isolation >= 0.7." [])
        (Msg "Crew quarters privacy targets satisfied." []) c
  end.

Definition check_shelter_volume (layout : Layout) (c : checks) : checks :=
  match zone_by_name layout "StormShelter" with
  | Some shelter =>
      if Qleb (usable_ratio shelter * volume_m3 shelter) 0
      then note (Msg "Storm shelter volume not contributing to NHV (ok if non-habitable)." []) c
      else c
  | None => c
  end.

(** [validate_layout(layout, settings)] *)
Definition validate_layout (layout : Layout) (settings : option ConstraintSettings)
    : result ValidationResult :=
  let settings := default default_settings settings in
  let c := {| failed := []; msgs := [] |} in
  crew ← _crew layout;
  duration ← _duration layout;
  let g := _build_adjacency layout in
  let nhv_value := _nhv layout in
  let nhv_eff :=
    if Qeq_bool (pressurized_volume_m3 layout) 0 then 0.0
    else nhv_value / pressurized_volume_m3 layout in
  (* Crew & duration range *)
  let c :=
    rule (negb ((min_crew settings <=? crew)%Z && (crew <=? max_crew settings)%Z))
      "crew_range"
      (Msg "Crew size {crew} outside supported range {settings.min_crew}-{settings.max_crew}."
           [VInt crew; VInt (min_crew settings); VInt (max_crew settings)])
      (Msg "Crew size {crew} within supported range." [VInt crew]) c in
  let c :=
    rule (negb ((min_duration_days settings <=? duration)%Z
                && (duration <=? max_duration_days settings)%Z))
      "duration_range"
      (Msg "Duration {duration} days outside supported range {settings.min_duration_days}-{settings.max_duration_days}."
           [VInt duration; VInt (min_duration_days settings);
            VInt (max_duration_days settings)])
      (Msg "Mission duration {duration} days within supported range." [VInt duration])
      c in
  (* Required zones present *)
  let zone_names := map name (zones layout) in
  let missing_zones :=
    List.filter (fun z => negb (in_strs z zone_names)) (required_zones settings) in
  let c :=
    rule (negb (bool_decide (missing_zones = [])))
      "required_zones"
      (Msg "Missing mandatory zones: {', '.join(missing_zones)}." (map VStr missing_zones))
      (Msg "All mandatory zones present." []) c in
  (* NHV per crew *)
  let required_nhv := inject_Z crew * min_nhv_per_person settings in
  let c :=
    rule (Qltb nhv_value required_nhv)
      "nhv_per_crew"
      (Msg "NHV {nhv_value:.1f} m³ below required {required_nhv:.1f} m³ (add {deficit:.1f} m³ usable)."
           [VFloat nhv_value; VFloat required_nhv; VFloat (required_nhv - nhv_value)])
      (Msg "NHV {nhv_value:.1f} m³ meets per-crew requirement." [VFloat nhv_value]) c in
  let c :=
    rule (Qltb nhv_eff (min_nhv_efficiency settings))
      "nhv_efficiency"
      (Msg "NHV efficiency {nhv_eff:.2f} < {settings.min_nhv_efficiency:.2f}; consider more usable volume."
           [VFloat nhv_eff; VFloat (min_nhv_efficiency settings)])
      (Msg "NHV efficiency {nhv_eff:.2f} meets minimum." [VFloat nhv_eff]) c in
  (* Shielding *)
  let c :=
    rule (Qltb (shield_equivalent_g_cm2 layout) (min_shield_g_cm2 settings))
      "radiation_shield"
      (Msg "Shielding {layout.shield_equivalent_g_cm2:.1f} g/cm² < {settings.min_shield_g_cm2:.1f} g/cm²."
           [VFloat (shield_equivalent_g_cm2 layout); VFloat (min_shield_g_cm2 settings)])
      (Msg "Radiation shielding meets requirement." []) c in
  (* Systems checks *)
  let sys := systems layout in
  let c :=
    rule (eclss_redundancy_loops sys <? min_eclss_loops settings)%Z
      "eclss_redundancy"
      (Msg "ECLSS redundancy below requirement; need >= 2 full loops." [])
      (Msg "ECLSS redundancy satisfied." []) c in
  let c :=
    rule (Qltb (water_recycling_rate sys) (min_water_recycling settings))
      "water_recycling"
      (Msg "Water recycling {systems.water_recycling_rate:.2f} < {settings.min_water_recycling:.2f}."
           [VFloat (water_recycling_rate sys); VFloat (min_water_recycling settings)])
      (Msg "Water recycling meets specification." []) c in
  autonomy ← py_int (dict_get (power sys) "autonomy_days" (VInt 0));
  let c :=
    rule (autonomy <? min_power_autonomy_days settings)%Z
      "power_autonomy"
      (Msg "Power autonomy {autonomy} days < {settings.min_power_autonomy_days} days target."
           [VInt autonomy; VInt (min_power_autonomy_days settings)])
      (Msg "Power autonomy meets lunar night requirement." []) c in
  let dust_ok :=
    truthy (dict_get (dust_mitigation sys) "dual_door" VNone)
    && truthy (dict_get (dust_mitigation sys) "suit_storage" VNone) in
  let c :=
    rule (negb dust_ok)
      "dust_mitigation"
      (Msg "Dust mitigation must include dual-door vestibule and suit storage." [])
      (Msg "Dust mitigation features verified." []) c in
  (* Connectivity *)
  let c := check_connectivity layout g c in
  (* Adjacency pairs *)
  c ← fold_left (check_pair g) (adjacency_pairs settings) (Ok c);
  (* Egress paths *)
  let egress_zones := List.filter is_egress (zones layout) in
  let c :=
    rule (length egress_zones <? 2)%nat
      "egress_paths"
      (Msg "At least two egress-capable zones required (e.g., airlock and shelter exit)." [])
      (Msg "Multiple egress-capable zones confirmed." []) c in
  (* Storm shelter reachability *)
  let c := check_shelter layout settings g c in
  (* Crew quarters privacy *)
  let c := check_quarters layout settings c in
  (* Storm shelter shielding *)
  let c := check_shelter_volume layout c in
  Ok {| passed := bool_decide (failed c = []);
        messages := msgs c;
        failed_rules := failed c;
        validation_metrics := None |}.

End Validator.

(** ** Scorer ([scoring.py]) *)

(** [PRIVACY_WEIGHTS.get(zone.privacy, 0.3)] *)
Definition PRIVACY_WEIGHTS (p : PrivacyLevel) : Q :=
  match p with
  | Low => 0.3
  | Medium => 0.6
  | High => 1.0
  end.

(** [ACOUSTIC_TARGETS.get(zone.name)] *)
Definition ACOUSTIC_TARGETS (zone_name : string) : option Q :=
  if String.eqb zone_name "CrewQuarters" then Some 0.7
  else if String.eqb zone_name "Exercise" then Some 0.6
  else if String.eqb zone_name "Work" then Some 0.5
  else None.

(** The graph of [_transit_score] is a dictionary of sets. *)
Definition set_graph : Type := gmap string (gset string).

Definition set_graph_setdefault (g : set_graph) (k : string) : set_graph :=
  match g !! k with
  | Some _ => g
  | None => <[k := ∅]> g
  end.

(** [graph[k].add(v)] *)
Definition set_graph_add (g : set_graph) (k v : string) : set_graph :=
  <[k := default ∅ (g !! k) ∪ {[v]}]> g.

Definition transit_add_neighbor (zone_name : string) (g : set_graph) (nbr : string)
    : set_graph :=
  if String.eqb nbr zone_name then g
  else
    let g1 := set_graph_setdefault g nbr in
    let g2 := set_graph_add g1 zone_name nbr in
    set_graph_add g2 nbr zone_name.

Definition transit_graph (layout : Layout) : set_graph :=
  fold_left (fun g zone =>
               fold_left (transit_add_neighbor (name zone)) (connections zone)
                         (set_graph_setdefault g (name zone)))
            (zones layout) ∅.

(** One turn of [for a, b in settings.adjacency_pairs]. *)
Definition transit_count (g : set_graph) (acc : result Z) (pair : list string)
    : result Z :=
  satisfied ← acc;
  '(a, b) ← unpack2 pair;
  if bool_decide (b ∈ default ∅ (g !! a)) || bool_decide (a ∈ default ∅ (g !! b))
  then Ok (satisfied + 1)%Z
  else Ok satisfied.

Definition _transit_score (layout : Layout) (settings : ConstraintSettings) : result Q :=
  let g := transit_graph layout in
  match adjacency_pairs settings with
  | [] => Ok 1.0
  | _ :: _ =>
      satisfied ← fold_left (transit_count g) (adjacency_pairs settings) (Ok 0%Z);
      Ok (inject_Z satisfied / inject_Z (Z.of_nat (length (adjacency_pairs settings))))
  end.

Definition zone_privacy (zone : Zone) : Q :=
  let weight := PRIVACY_WEIGHTS (privacy zone) in
  let acoustic_bonus :=
    match ACOUSTIC_TARGETS (name zone) with
    | Some target => fmin (fmax (acoustic_isolation zone - target) 0.0) 0.3
    | None => 0.0
    end in
  fmax (fmin (weight + acoustic_bonus) 1.0) 0.0.

Definition _privacy_score (layout : Layout) : Q :=
  match zones layout with
  | [] => 0.0
  | _ :: _ =>
      fold_left (fun total zone => total + zone_privacy zone) (zones layout) 0.0
      / inject_Z (Z.of_nat (length (zones layout)))
  end.

Definition _sustainability_score (layout : Layout) (settings : ConstraintSettings)
    : result Q :=
  ratio ← fdiv (water_recycling_rate (systems layout)) (min_water_recycling settings);
  let water_factor := fmin ratio 1.2 in
  let isru_factor := fmin (isru_ratio layout / 0.5) 1.2 in
  Ok (fmin ((water_factor + isru_factor) / 2.0) 1.0).

Section Scorer.
Context {H : Host}.

Definition _energy_per_person_day (layout : Layout) : result Q :=
  crew ← py_int (dict_get (metadata layout) "crew" (VInt 1));
  autonomy_days ← py_int (dict_get (power (systems layout)) "autonomy_days" (VInt 1));
  storage_kwh ← py_float (dict_get (power (systems layout)) "storage_kwh" (VFloat 120.0));
  if (crew <=? 0)%Z || (autonomy_days <=? 0)%Z then Ok 10.0
  else Ok (storage_kwh / inject_Z (crew * autonomy_days)).

Definition _safety_score (layout : Layout) (settings : ConstraintSettings) : result Q :=
  ratio ← fdiv (inject_Z (eclss_redundancy_loops (systems layout)))
               (inject_Z (min_eclss_loops settings));
  let loops_factor := fmin ratio 1.5 in
  let egress_count := Z.of_nat (length (List.filter is_egress (zones layout))) in
  let egress_factor := fmin (inject_Z egress_count / 2) 1.0 in
  let shelter := existsb (fun z => String.eqb (name z) "StormShelter") (zones layout) in
  let shelter_factor := if shelter then 1.0 else 0.0 in
  Ok (fmin ((loops_factor + egress_factor + shelter_factor) / 3.0) 1.0).

(** The contribution of the energy use to the score. *)
Definition energy_score (energy : Q) : Q :=
  fmax 0.0 (fmin (2.0 / fmax energy 1e-6) 1.0).

(** [evaluate(layout, constraints, weights)] *)
Definition evaluate (layout : Layout) (constraints : option ConstraintSettings)
    (weights : option ScoreWeights) : result (Metrics * Q) :=
  let settings := default default_settings constraints in
  weights ← normalized (default default_weights weights);
  let nhv := _nhv layout in
  let nhv_eff :=
    if Qeq_bool (pressurized_volume_m3 layout) 0 then 0.0
    else nhv / pressurized_volume_m3 layout in
  transit ← _transit_score layout settings;
  let privacy := _privacy_score layout in
  sustain ← _sustainability_score layout settings;
  energy ← _energy_per_person_day layout;
  safety ← _safety_score layout settings;
  feasibility_result ← validate_layout layout (Some settings);
  let feasibility := passed feasibility_result in
  let metrics := {|
    nhv_m3 := nhv;
    nhv_efficiency := nhv_eff;
    transit_distance_score := transit;
    privacy_score := privacy;
    sustainability_score := sustain;
    energy_use_kwh_per_person_day := energy;
    safety_redundancy_score := safety;
    feasibility := feasibility
  |} in
  volume_ratio ← fdiv nhv_eff (min_nhv_efficiency settings);
  let score :=
    w_volume_eff weights * fmin volume_ratio 1.2
    + w_privacy weights * privacy
    + w_transit weights * transit
    + w_safety weights * safety
    + w_sustain weights * sustain
    + w_energy weights * energy_score energy in
  let score := if negb feasibility then score * 0.5 else score in
  Ok (metrics, score).

End Scorer.

(** ** Generator ([generator.py]) *)

(** The module-level tables, keyed by zone name, in the order of
    [BASE_VOLUME_FRACTIONS]. *)
Record zone_defaults : Type := {
  zd_name : string;
  zd_fraction : Q;          (* BASE_VOLUME_FRACTIONS *)
  zd_usable : Q;            (* DEFAULT_USABLE *)
  zd_privacy : PrivacyLevel; (* PRIVACY_DEFAULT *)
  zd_acoustic : Q;          (* ACOUSTIC_DEFAULT *)
  zd_connections : list string; (* CONNECTIONS *)
  zd_equipment : list string    (* EQUIPMENT *)
}.

Definition ZONE_TABLES : list zone_defaults := [
  {| zd_name := "Airlock"; zd_fraction := 0.07; zd_usable := 0.6;
     zd_privacy := Low; zd_acoustic := 0.4;
     zd_connections := ["MaintenanceStorage"; "Work"];
     zd_equipment := ["dual-door"; "suit-lock"; "dust-scrubber"] |};
  {| zd_name := "Work"; zd_fraction := 0.18; zd_usable := 0.85;
     zd_privacy := Medium; zd_acoustic := 0.55;
     zd_connections := ["Airlock"; "GalleyDining"; "Exercise"; "MaintenanceStorage"];
     zd_equipment := ["lab-bench"; "fab-station"] |};
  {| zd_name := "HygieneMedical"; zd_fraction := 0.09; zd_usable := 0.8;
     zd_privacy := High; zd_acoustic := 0.75;
     zd_connections := ["CrewQuarters"; "StormShelter"];
     zd_equipment := ["med-kit"; "hygiene-module"] |};
  {| zd_name := "GalleyDining"; zd_fraction := 0.11; zd_usable := 0.85;
     zd_privacy := Medium; zd_acoustic := 0.6;
     zd_connections := ["Work"; "CrewQuarters"; "Agriculture"];
     zd_equipment := ["galley"; "table"] |};
  {| zd_name := "CrewQuarters"; zd_fraction := 0.20; zd_usable := 0.9;
     zd_privacy := High; zd_acoustic := 0.8;
     zd_connections := ["GalleyDining"; "HygieneMedical"; "Exercise"];
     zd_equipment := ["pods"; "privacy-panels"] |};
  {| zd_name := "Exercise"; zd_fraction := 0.1; zd_usable := 0.8;
     zd_privacy := Medium; zd_acoustic := 0.65;
     zd_connections := ["CrewQuarters"; "Work"];
     zd_equipment := ["treadmill"; "flywheel"] |};
  {| zd_name := "MaintenanceStorage"; zd_fraction := 0.1; zd_usable := 0.75;
     zd_privacy := Low; zd_acoustic := 0.5;
     zd_connections := ["Airlock"; "Work"; "StormShelter"; "Agriculture"];
     zd_equipment := ["tool-racks"; "spares"] |};
  {| zd_name := "StormShelter"; zd_fraction := 0.07; zd_usable := 0.7;
     zd_privacy := High; zd_acoustic := 0.85;
     zd_connections := ["HygieneMedical"; "MaintenanceStorage"];
     zd_equipment := ["shielded-bunks"; "backup-comms"] |};
  {| zd_name := "Agriculture"; zd_fraction := 0.08; zd_usable := 0.85;
     zd_privacy := Medium; zd_acoustic := 0.6;
     zd_connections := ["GalleyDining"; "MaintenanceStorage"];
     zd_equipment := ["hydroponics"; "algae"] |}
].

(** [_scale_volumes(pressurized_volume, BASE_VOLUME_FRACTIONS)[name]] *)
Definition _scale_volumes (pressurized_volume : Q) (frac : Q) : Q :=
  let total_fraction := fsum (map zd_fraction ZONE_TABLES) in
  pressurized_volume * frac / total_fraction.

Definition crew_scaled : list string :=
  ["CrewQuarters"; "GalleyDining"; "HygieneMedical"; "Exercise"; "Agriculture"].

Definition boosted : list string :=
  ["CrewQuarters"; "GalleyDining"; "HygieneMedical"; "StormShelter"].

(** One turn of the loop that builds the zones; [Zone(...)] refuses a volume
    that is not positive. *)
Definition make_zone (pressurized : Q) (crew : Z) (d : zone_defaults) : result Zone :=
  let volume := _scale_volumes pressurized (zd_fraction d) in
  let volume :=
    if in_strs (zd_name d) crew_scaled
    then volume * fmax 1.0 (inject_Z crew / 4.0)
    else volume in
  if Qltb 0 volume then
    Ok {| name := zd_name d;
          volume_m3 := volume;
          usable_ratio := zd_usable d;
          privacy := zd_privacy d;
          connections := zd_connections d;
          acoustic_isolation := zd_acoustic d;
          lighting := if in_strs (zd_name d) ["CrewQuarters"; "GalleyDining"]
                      then Adaptive else Neutral4000K;
          is_pressurized := true;
          is_egress := in_strs (zd_name d) ["Airlock"; "StormShelter"];
          equipment := zd_equipment d |}
  else Raise ValidationError.

Fixpoint make_zones (pressurized : Q) (crew : Z) (ds : list zone_defaults)
    : result (list Zone) :=
  match ds with
  | [] => Ok []
  | d :: rest =>
      zone ← make_zone pressurized crew d;
      zones ← make_zones pressurized crew rest;
      Ok (zone :: zones)
  end.

Definition set_volume (z : Zone) (v : Q) : Zone :=
  {| name := name z; volume_m3 := v; usable_ratio := usable_ratio z;
     privacy := privacy z; connections := connections z;
     acoustic_isolation := acoustic_isolation z; lighting := lighting z;
     is_pressurized := is_pressurized z; is_egress := is_egress z;
     equipment := equipment z |}.

Definition set_acoustic (z : Zone) (a : Q) : Zone :=
  {| name := name z; volume_m3 := volume_m3 z; usable_ratio := usable_ratio z;
     privacy := privacy z; connections := connections z;
     acoustic_isolation := a; lighting := lighting z;
     is_pressurized := is_pressurized z; is_egress := is_egress z;
     equipment := equipment z |}.

Definition set_zones (l : Layout) (zs : list Zone) (pressurized : Q) : Layout :=
  {| habitat_name := habitat_name l; habitat_type := habitat_type l;
     pressurized_volume_m3 := pressurized; zones := zs; systems := systems l;
     shield_equivalent_g_cm2 := shield_equivalent_g_cm2 l;
     isru_ratio := isru_ratio l; docking_ports := docking_ports l;
     metadata := metadata l |}.

Definition total_volume (zs : list Zone) : Q := fsum (map volume_m3 zs).

Definition parse_habitat_type (v : pyval) : option HabitatType :=
  match v with
  | VStr s =>
      if String.eqb s "Inflatable" then Some Inflatable
      else if String.eqb s "Rigid" then Some Rigid
      else if String.eqb s "RegolithHybrid" then Some RegolithHybrid
      else None
  | _ => None
  end.

(** The local variables that [generate_initial_layout] reads from [config]. *)
Record gen_config : Type := {
  cfg_crew : Z;
  cfg_duration : Z;
  cfg_habitat_type : pyval;
  cfg_pressurized : Q;
  cfg_isru_target : Q;
  cfg_docking_ports : Z;
  cfg_seed : Z;
  cfg_habitat_name : pyval
}.

Section Generator.
Context {H : Host}.

(** The loop that tweaks the volumes: one draw per zone, in order. *)
Fixpoint jitter_zones (zs : list Zone) (r : rng) : list Zone * rng :=
  match zs with
  | [] => ([], r)
  | zone :: rest =>
      let '(jitter, r1) := rng_uniform (-0.05) 0.05 r in
      let v := volume_m3 zone * (1 + jitter) in
      let zone' := set_volume zone (fmax v 5.0) in
      let '(rest', r2) := jitter_zones rest r1 in
      (zone' :: rest', r2)
  end.

(** Renormalisation of the volumes to the configured total. *)
Definition renormalize (pressurized : Q) (zs : list Zone) : list Zone :=
  let total_pressurized := total_volume zs in
  let scaling :=
    if Qeq_bool total_pressurized 0 then 1.0 else pressurized / total_pressurized in
  map (fun z => set_volume z (volume_m3 z * scaling)) zs.

Definition initial_systems (settings : ConstraintSettings) : Systems := {|
  eclss_redundancy_loops := 2;
  water_recycling_rate := 0.92;
  power :=
    {[ "source" := VStr "Solar+Battery";
       "autonomy_days" := VInt (Z.max (min_power_autonomy_days settings) 14);
       "storage_kwh" := VFloat 160.0 ]};
  dust_mitigation :=
    {[ "dual_door" := VBool true; "suit_storage" := VBool true;
       "electrostatic" := VBool true ]}
|}.

(** The values read from the configuration, in the order they are read. *)
Definition read_config (config : gmap string pyval) : result gen_config :=
  crew ← py_int (dict_get config "crew" (VInt 4));
  duration ← py_int (dict_get config "duration_days" (VInt 90));
  let habitat := dict_get config "habitat_type" (VStr "Inflatable") in
  pressurized ← py_float (dict_get config "pressurized_volume_m3" (VFloat 160.0));
  isru_target ← py_float (dict_get config "target_isru_ratio" (VFloat 0.6));
  docking ← py_int (dict_get config "docking_ports" (VInt 2));
  seed ← py_int (dict_get config "seed" (VInt 42));
  Ok {| cfg_crew := crew; cfg_duration := duration; cfg_habitat_type := habitat;
        cfg_pressurized := pressurized; cfg_isru_target := isru_target;
        cfg_docking_ports := docking; cfg_seed := seed;
        cfg_habitat_name := dict_get config "habitat_name" (VStr "Helios-Init") |}.

(** [crew < settings.min_crew or crew > settings.max_crew] *)
Definition crew_outside (settings : ConstraintSettings) (crew : Z) : bool :=
  (crew <? min_crew settings)%Z || (max_crew settings <? crew)%Z.

(** The zones as they enter [Layout(...)]: built, tweaked, renormalised. *)
Definition initial_zones (cfg : gen_config) : result (list Zone) :=
  zs ← make_zones (cfg_pressurized cfg) (cfg_crew cfg) ZONE_TABLES;
  Ok (renormalize (cfg_pressurized cfg) (fst (jitter_zones zs (Random (cfg_seed cfg))))).

(** The generator from the range check up to and including [Layout(...)]:
    the layout that is first handed to the validator. *)
Definition build_layout (cfg : gen_config) (settings : ConstraintSettings)
    : result Layout :=
  if crew_outside settings (cfg_crew cfg)
  then Raise (ValueError ConfigCrewOutOfRange)
  else
    zs ← initial_zones cfg;
    match str_coerce (cfg_habitat_name cfg), parse_habitat_type (cfg_habitat_type cfg) with
    | Some hname, Some htype =>
        if Qltb 0 (cfg_pressurized cfg) && (0 <=? cfg_docking_ports cfg)%Z then
          Ok {| habitat_name := hname;
                habitat_type := htype;
                pressurized_volume_m3 := cfg_pressurized cfg;
                zones := zs;
                systems := initial_systems settings;
                shield_equivalent_g_cm2 := fmax 5.5 (5.0 + 0.2 * inject_Z (cfg_crew cfg));
                isru_ratio := fmin 1.0 (fmax 0.5 (cfg_isru_target cfg));
                docking_ports := cfg_docking_ports cfg;
                metadata :=
                  {[ "crew" := VInt (cfg_crew cfg);
                     "duration_days" := VInt (cfg_duration cfg);
                     "seed" := VInt (cfg_seed cfg) ]} |}
        else Raise ValidationError
    | _, _ => Raise ValidationError
    end.

(** The corrective pass for a shortfall of net habitable volume. *)
Definition nhv_corrective_pass (layout : Layout) (settings : ConstraintSettings)
    (crew : Z) : result Layout :=
  let needed_nhv := inject_Z crew * min_nhv_per_person settings in
  let current_nhv := fsum (map (fun z => volume_m3 z * usable_ratio z) (zones layout)) in
  boost_ratio ←
    (if Qeq_bool current_nhv 0 then Ok 1.1 else py_sqrt (needed_nhv / current_nhv));
  let zs := map (fun z => if in_strs (name z) boosted
                          then set_volume z (volume_m3 z * boost_ratio) else z)
                (zones layout) in
  Ok (set_zones layout zs (total_volume zs)).

(** [{"nhv_per_crew", "nhv_efficiency"} & set(result.failed_rules)] *)
Definition nhv_deficit (failed_rules : list string) : bool :=
  in_strs "nhv_per_crew" failed_rules || in_strs "nhv_efficiency" failed_rules.

(** The guard of the corrective pass: [if not result.passed:] and, inside it,
    [if {"nhv_per_crew", "nhv_efficiency"} & deficit_rules:]. *)
Definition corrective_pass_due (res : ValidationResult) : bool :=
  negb (passed res) && nhv_deficit (failed_rules res).

(** The self-healing step after the first validation. *)
Definition self_heal (layout : Layout) (res : ValidationResult)
    (settings : ConstraintSettings) (crew : Z) : result (Layout * ValidationResult) :=
  if corrective_pass_due res then
    layout' ← nhv_corrective_pass layout settings crew;
    res' ← validate_layout layout' (Some settings);
    Ok (layout', res')
  else Ok (layout, res).

(** [generate_initial_layout(config, settings)] *)
Definition generate_initial_layout (config : option (gmap string pyval))
    (settings : option ConstraintSettings) : result Layout :=
  let settings := default default_settings settings in
  let config := default ∅ config in
  cfg ← read_config config;
  layout ← build_layout cfg settings;
  res ← validate_layout layout (Some settings);
  '(layout, res) ← self_heal layout res settings (cfg_crew cfg);
  if negb (passed res)
  then Raise (ValueError (GenerationFailed (failed_rules res)))
  else Ok layout.

End Generator.

(** ** Optimizer ([optimizer.py]) *)

(** The field constraints that pydantic checks when a layout is parsed. *)
Definition zone_valid (z : Zone) : bool :=
  in_strs (name z) zone_names_literal
  && Qltb 0 (volume_m3 z)
  && Qltb 0 (usable_ratio z) && Qleb (usable_ratio z) 1
  && Qleb 0 (acoustic_isolation z) && Qleb (acoustic_isolation z) 1.

Definition systems_valid (s : Systems) : bool :=
  (1 <=? eclss_redundancy_loops s)%Z
  && Qleb 0 (water_recycling_rate s) && Qleb (water_recycling_rate s) 1.

Definition layout_valid (l : Layout) : bool :=
  Qltb 0 (pressurized_volume_m3 l)
  && forallb zone_valid (zones l)
  && systems_valid (systems l)
  && Qleb 0 (shield_equivalent_g_cm2 l)
  && Qleb 0 (isru_ratio l) && Qleb (isru_ratio l) 1
  && (0 <=? docking_ports l)%Z
  && bool_decide (is_Some (metadata l !! "crew"))
  && bool_decide (is_Some (metadata l !! "duration_days")).

Definition set_connections (z : Zone) (cs : list string) : Zone :=
  {| name := name z; volume_m3 := volume_m3 z; usable_ratio := usable_ratio z;
     privacy := privacy z; connections := cs;
     acoustic_isolation := acoustic_isolation z; lighting := lighting z;
     is_pressurized := is_pressurized z; is_egress := is_egress z;
     equipment := equipment z |}.

Definition set_systems (l : Layout) (s : Systems) : Layout :=
  {| habitat_name := habitat_name l; habitat_type := habitat_type l;
     pressurized_volume_m3 := pressurized_volume_m3 l; zones := zones l;
     systems := s; shield_equivalent_g_cm2 := shield_equivalent_g_cm2 l;
     isru_ratio := isru_ratio l; docking_ports := docking_ports l;
     metadata := metadata l |}.

Definition set_isru (l : Layout) (r : Q) : Layout :=
  {| habitat_name := habitat_name l; habitat_type := habitat_type l;
     pressurized_volume_m3 := pressurized_volume_m3 l; zones := zones l;
     systems := systems l; shield_equivalent_g_cm2 := shield_equivalent_g_cm2 l;
     isru_ratio := r; docking_ports := docking_ports l;
     metadata := metadata l |}.

(** The four neighbour operators, [NEIGHBOR_OPS]. *)
Inductive NeighborOp : Type :=
| _op_adjust_zone_volume
| _op_tune_systems
| _op_adjust_isru
| _op_adjust_privacy.

Definition NEIGHBOR_OPS : list NeighborOp :=
  [_op_adjust_zone_volume; _op_tune_systems; _op_adjust_isru; _op_adjust_privacy].

(** [op.__name__] *)
Definition op_name (op : NeighborOp) : string :=
  match op with
  | _op_adjust_zone_volume => "_op_adjust_zone_volume"
  | _op_tune_systems => "_op_tune_systems"
  | _op_adjust_isru => "_op_adjust_isru"
  | _op_adjust_privacy => "_op_adjust_privacy"
  end.

(** Positions in [layout.zones] of the zones a comprehension keeps. *)
Definition positions_where (keep : Zone -> bool) (zs : list Zone) : list nat :=
  map fst (List.filter (fun p => keep (snd p)) (imap (fun i z => (i, z)) zs)).

(** [",".join(items)] *)
Fixpoint join_comma (items : list string) : string :=
  match items with
  | [] => ""
  | [x] => x
  | x :: rest => x +:+ "," +:+ join_comma rest
  end.

Record anneal_state {H : Host} : Type := {
  st_rng : rng;
  current : Layout;
  current_metrics : Metrics;
  current_score : Q;
  best : Layout;
  best_metrics : Metrics;
  best_score : Q;
  history : list OptimizationLogEntry
}.

Section Optimizer.
Context {H : Host}.

(** [Layout.parse_obj(layout.dict())]: the layout is validated anew and the
    names in the connection lists are stripped. *)
Definition _copy_layout (layout : Layout) : result Layout :=
  if layout_valid layout then
    Ok (set_zones layout
          (map (fun z => set_connections z (map str_strip (connections z)))
               (zones layout))
          (pressurized_volume_m3 layout))
  else Raise ValidationError.

(** The operators mutate the candidate in place; here they return it.  A
    position drawn by [sample] or [choice] lies within the sequence. *)
Definition apply_adjust_zone_volume (layout : Layout) (r : rng) : result (Layout * rng) :=
  let adjustable :=
    positions_where (fun z => negb (in_strs (name z) ["Airlock"; "StormShelter"]))
                    (zones layout) in
  if (length adjustable <? 2)%nat then Ok (layout, r)
  else
    let '((i, j), r1) := rng_sample2 (length adjustable) r in
    let '(u, r2) := rng_uniform 0.02 0.06 r1 in
    match adjustable !! i, adjustable !! j with
    | Some d, Some e =>
        match zones layout !! d with
        | Some donor =>
            let transfer := volume_m3 donor * u in
            let zs1 := <[d := set_volume donor (fmax (volume_m3 donor - transfer) 5.0)]>
                         (zones layout) in
            match zs1 !! e with
            | Some receiver =>
                let zs2 := <[e := set_volume receiver (volume_m3 receiver + transfer)]> zs1 in
                Ok (set_zones layout zs2 (total_volume zs2), r2)
            | None => Ok (layout, r2)
            end
        | None => Ok (layout, r2)
        end
    | _, _ => Ok (layout, r2)
    end.

Definition apply_tune_systems (layout : Layout) (r : rng) : result (Layout * rng) :=
  let sys := systems layout in
  let '(u, r1) := rng_uniform (-0.02) 0.03 r in
  let water := fmin 0.99 (fmax 0.9 (water_recycling_rate sys + u)) in
  autonomy ← py_int (dict_get (power sys) "autonomy_days" (VInt 14));
  let '(k, r2) := rng_randint (-1) 2 r1 in
  let autonomy := Z.max 14 (autonomy + k) in
  let power1 := <["autonomy_days" := VInt autonomy]> (power sys) in
  storage ← py_float (dict_get power1 "storage_kwh" (VFloat 160.0));
  let '(v, r3) := rng_uniform (-10) 15 r2 in
  let power2 := <["storage_kwh" := VFloat (fmax 120.0 (storage + v))]> power1 in
  Ok (set_systems layout
        {| eclss_redundancy_loops := eclss_redundancy_loops sys;
           water_recycling_rate := water;
           power := power2;
           dust_mitigation := dust_mitigation sys |}, r3).

Definition apply_adjust_isru (layout : Layout) (r : rng) : result (Layout * rng) :=
  let '(delta, r1) := rng_uniform (-0.05) 0.08 r in
  Ok (set_isru layout (fmin 1.0 (fmax 0.4 (isru_ratio layout + delta))), r1).

Definition apply_adjust_privacy (layout : Layout) (r : rng) : result (Layout * rng) :=
  let targets :=
    positions_where (fun z => in_strs (name z) ["Work"; "Exercise"; "GalleyDining"])
                    (zones layout) in
  match targets with
  | [] => Ok (layout, r)
  | _ :: _ =>
      let '(i, r1) := rng_choice (length targets) r in
      let '(u, r2) := rng_uniform (-0.05) 0.1 r1 in
      match targets !! i with
      | Some t =>
          match zones layout !! t with
          | Some zone =>
              let a := fmin 1.0 (fmax 0.3 (acoustic_isolation zone + u)) in
              Ok (set_zones layout (<[t := set_acoustic zone a]> (zones layout))
                    (pressurized_volume_m3 layout), r2)
          | None => Ok (layout, r2)
          end
      | None => Ok (layout, r2)
      end
  end.

Definition apply_op (op : NeighborOp) : Layout -> rng -> result (Layout * rng) :=
  match op with
  | _op_adjust_zone_volume => apply_adjust_zone_volume
  | _op_tune_systems => apply_tune_systems
  | _op_adjust_isru => apply_adjust_isru
  | _op_adjust_privacy => apply_adjust_privacy
  end.

(** The head of the loop body: copy [current], draw an operator, apply it. *)
Definition propose (cur : Layout) (r : rng) : result (NeighborOp * Layout * rng) :=
  candidate ← _copy_layout cur;
  let '(i, r1) := rng_choice (length NEIGHBOR_OPS) r in
  let op := nth i NEIGHBOR_OPS _op_adjust_zone_volume in
  '(candidate, r2) ← apply_op op candidate r1;
  Ok (op, candidate, r2).

Definition temperature_start : Q := 1.0.
Definition temperature_end : Q := 0.05.

(** [temperature_start * ((temperature_end / temperature_start) ** (step / iterations))] *)
Definition temperature (step iterations : Z) : Q :=
  temperature_start
  * float_pow (temperature_end / temperature_start)
              (inject_Z step / inject_Z iterations).

(** [delta >= 0 or rng.random() < math.exp(delta / max(temperature, 1e-6))]:
    the generator is consulted only for a worsening candidate. *)
Definition accept_move (delta temp : Q) (r : rng) : bool * rng :=
  if Qleb 0 delta then (true, r)
  else
    let '(x, r1) := rng_random r in
    (Qltb x (math_exp (delta / fmax temp 1e-6)), r1).

Definition log (st : anneal_state) (e : OptimizationLogEntry) : list OptimizationLogEntry :=
  history st ++ [e].

(** One turn of [for step in range(1, iterations + 1)]. *)
Definition anneal_step (settings : ConstraintSettings) (weights : ScoreWeights)
    (iterations : Z) (st : anneal_state) (step : Z) : result anneal_state :=
  '(op, candidate, r) ← propose (current st) (st_rng st);
  validation ← validate_layout candidate (Some settings);
  if negb (passed validation) then
    Ok {| st_rng := r;
          current := current st;
          current_metrics := current_metrics st;
          current_score := current_score st;
          best := best st;
          best_metrics := best_metrics st;
          best_score := best_score st;
          history := log st
            {| iteration := step; score := current_score st; accepted := false;
               reason := "constraint_fail:" +:+ join_comma (failed_rules validation) |} |}
  else
    '(candidate_metrics, candidate_score) ←
      evaluate candidate (Some settings) (Some weights);
    let delta := candidate_score - current_score st in
    let '(accept, r') := accept_move delta (temperature step iterations) r in
    if accept then
      let entry := {| iteration := step; score := candidate_score; accepted := true;
                      reason := op_name op |} in
      if Qltb (best_score st) candidate_score then
        best' ← _copy_layout candidate;
        Ok {| st_rng := r';
              current := candidate;
              current_metrics := candidate_metrics;
              current_score := candidate_score;
              best := best';
              best_metrics := candidate_metrics;
              best_score := candidate_score;
              history := log st entry |}
      else
        Ok {| st_rng := r';
              current := candidate;
              current_metrics := candidate_metrics;
              current_score := candidate_score;
              best := best st;
              best_metrics := best_metrics st;
              best_score := best_score st;
              history := log st entry |}
    else
      Ok {| st_rng := r';
            current := current st;
            current_metrics := current_metrics st;
            current_score := current_score st;
            best := best st;
            best_metrics := best_metrics st;
            best_score := best_score st;
            history := log st
              {| iteration := step; score := current_score st; accepted := false;
                 reason := "anneal_reject" |} |}.

(** [range(1, iterations + 1)] *)
Definition step_range (iterations : Z) : list Z :=
  map (fun k => Z.of_nat k) (seq 1 (Z.to_nat iterations)).

Fixpoint anneal_loop (settings : ConstraintSettings) (weights : ScoreWeights)
    (iterations : Z) (steps : list Z) (st : anneal_state) : result anneal_state :=
  match steps with
  | [] => Ok st
  | step :: rest =>
      st' ← anneal_step settings weights iterations st step;
      anneal_loop settings weights iterations rest st'
  end.

(** [seed or int(layout.metadata.get("seed", 42))] *)
Definition rng_seed (layout : Layout) (seed : option Z) : result Z :=
  match seed with
  | Some s => if (s =? 0)%Z then py_int (dict_get (metadata layout) "seed" (VInt 42))
              else Ok s
  | None => py_int (dict_get (metadata layout) "seed" (VInt 42))
  end.

(** The state the loop starts from, iteration 0 logged. *)
Definition initial_state (layout : Layout) (settings : ConstraintSettings)
    (weights : ScoreWeights) (seed : option Z) : result anneal_state :=
  s ← rng_seed layout seed;
  cur ← _copy_layout layout;
  '(cur_metrics, cur_score) ← evaluate cur (Some settings) (Some weights);
  best0 ← _copy_layout cur;
  Ok {| st_rng := Random s;
        current := cur;
        current_metrics := cur_metrics;
        current_score := cur_score;
        best := best0;
        best_metrics := cur_metrics;
        best_score := cur_score;
        history := [ {| iteration := 0; score := cur_score; accepted := true;
                        reason := "initial" |} ] |}.

(** [optimize_layout(layout, iterations, settings, weights, seed)] *)
Definition optimize_layout (layout : Layout) (iterations : Z)
    (settings : option ConstraintSettings) (weights : option ScoreWeights)
    (seed : option Z) : result OptimizationResult :=
  let settings := default default_settings settings in
  let weights := default default_weights weights in
  st0 ← initial_state layout settings weights seed;
  st ← anneal_loop settings weights iterations (step_range iterations) st0;
  Ok {| result_layout := best st;
        result_metrics := best_metrics st;
        result_score := best_score st;
        result_history := history st |}.

End Optimizer.

(** ** A host to run the definitions on

    A linear congruential generator and rational stand-ins for the square
    root, the exponential and the power; strings are not parsed. *)

Definition lcg_modulus : Z := 2147483648.

Definition lcg_next (s : Z) : Z := ((1103515245 * s + 12345) mod lcg_modulus)%Z.

Definition lcg_random (s : Z) : Q * Z :=
  let s' := lcg_next s in (inject_Z s' / inject_Z lcg_modulus, s').

Definition lcg_below (n : nat) (s : Z) : nat * Z :=
  let s' := lcg_next s in (Z.to_nat (s' mod Z.of_nat n), s').

(** An under-approximation of the square root: the integer root of the
    argument scaled by [10^6], scaled back. *)
Definition approx_sqrt (x : Q) : Q :=
  inject_Z (Z.sqrt (Qnum x * 1000000 * 1000000 / Zpos (Qden x))) / 1000000.

Definition model_host : Host := {|
  int_of_str := fun _ => None;
  float_of_str := fun _ => None;
  str_coerce := fun v => match v with VStr s => Some s | _ => None end;
  str_strip := fun s => s;
  math_sqrt := approx_sqrt;
  math_exp := fun x => if Qleb x 0 then 1 / (1 - x) else 1 + x;
  float_pow := fun b e => 1 - (1 - b) * e;
  rng := Z;
  Random := fun seed => (Z.abs seed mod lcg_modulus)%Z;
  rng_random := lcg_random;
  rng_uniform := fun a b s => let '(x, s') := lcg_random s in (a + (b - a) * x, s');
  rng_randint := fun a b s =>
    let '(k, s') := lcg_below (Z.to_nat (b - a + 1)) s in ((a + Z.of_nat k)%Z, s');
  rng_choice := lcg_below;
  rng_sample2 := fun n s =>
    let '(i, s1) := lcg_below n s in
    let '(k, s2) := lcg_below (n - 1) s1 in
    ((i, if (k <? i)%nat then k else S k), s2)
|}.

(** The configuration of Scenario A. *)
Definition scenario_config : gmap string pyval :=
  {[ "crew" := VInt 4; "duration_days" := VInt 90;
     "habitat_type" := VStr "Inflatable";
     "pressurized_volume_m3" := VInt 170;
     "target_isru_ratio" := VFloat 0.6;
     "docking_ports" := VInt 2; "seed" := VInt 7 ]}.

(** * Properties *)

(** ** Comparisons and sums of rationals *)

Lemma Qltb_lt (x y : Q) : Qltb x y = true <-> x < y.
Proof.
  unfold Qltb. rewrite negb_true_iff, <- not_true_iff_false, Qle_bool_iff.
  split; [apply Qnot_le_lt | apply Qlt_not_le].
Qed.

Lemma Qltb_ge (x y : Q) : Qltb x y = false <-> y <= x.
Proof.
  unfold Qltb. rewrite negb_false_iff. apply Qle_bool_iff.
Qed.

Lemma Qleb_le (x y : Q) : Qleb x y = true <-> x <= y.
Proof. apply Qle_bool_iff. Qed.

Lemma Qleb_gt (x y : Q) : Qleb x y = false <-> y < x.
Proof.
  unfold Qleb. rewrite <- not_true_iff_false, Qle_bool_iff.
  split; [apply Qnot_le_lt | apply Qlt_not_le].
Qed.

Lemma fmax_spec (a b : Q) : a <= fmax a b /\ b <= fmax a b.
Proof.
  unfold fmax. destruct (Qltb a b) eqn:E.
  - apply Qltb_lt in E. split; lra.
  - apply Qltb_ge in E. split; lra.
Qed.

Lemma fmax_cases (a b : Q) : fmax a b = a \/ fmax a b = b.
Proof. unfold fmax. destruct (Qltb a b); auto. Qed.

Lemma fmin_spec (a b : Q) : fmin a b <= a /\ fmin a b <= b.
Proof.
  unfold fmin. destruct (Qltb b a) eqn:E.
  - apply Qltb_lt in E. split; lra.
  - apply Qltb_ge in E. split; lra.
Qed.

Lemma fold_left_Qplus_shift (l : list Q) (a : Q) :
  fold_left Qplus l a == a + fold_left Qplus l 0.
Proof.
  revert a. induction l as [|x l IH]; intros a; simpl.
  - lra.
  - rewrite (IH (a + x)), (IH (0 + x)). lra.
Qed.

Lemma fsum_cons (x : Q) (l : list Q) : fsum (x :: l) == x + fsum l.
Proof.
  unfold fsum. simpl. rewrite fold_left_Qplus_shift. lra.
Qed.

Lemma fsum_nil : fsum [] == 0.
Proof. reflexivity. Qed.

Lemma fsum_scale (k : Q) (l : list Q) : fsum (map (fun x => x * k) l) == fsum l * k.
Proof.
  induction l as [|x l IH]; simpl map.
  - unfold fsum. simpl. lra.
  - rewrite !fsum_cons, IH. lra.
Qed.

Lemma fsum_lower_bound (b : Q) (l : list Q) :
  Forall (fun x => b <= x) l -> inject_Z (Z.of_nat (length l)) * b <= fsum l.
Proof.
  induction 1 as [|x l Hx _ IH].
  - rewrite fsum_nil. change (inject_Z (Z.of_nat (length (@nil Q)))) with 0. lra.
  - rewrite fsum_cons. cbn [length]. rewrite Nat2Z.inj_succ.
    unfold Z.succ. rewrite inject_Z_plus. change (inject_Z 1) with 1. lra.
Qed.

(** ** The list of failed rules, rule by rule *)

Definition flag (violated : bool) (rule_id : string) : list string :=
  if violated then [rule_id] else [].

Lemma failed_rule (b : bool) (r : string) (m1 m2 : message) (c : checks) :
  failed (rule b r m1 m2 c) = failed c ++ flag b r.
Proof. destruct b; simpl; [reflexivity | now rewrite app_nil_r]. Qed.

Lemma in_strs_app (x : string) (l1 l2 : list string) :
  in_strs x (l1 ++ l2) = in_strs x l1 || in_strs x l2.
Proof. apply existsb_app. Qed.

Lemma in_strs_flag (x : string) (b : bool) (r : string) :
  in_strs x (flag b r) = b && String.eqb x r.
Proof. destruct b; simpl; [now rewrite orb_false_r | reflexivity]. Qed.

Lemma in_strs_In (x : string) (l : list string) : in_strs x l = true <-> In x l.
Proof.
  unfold in_strs. rewrite existsb_exists. split.
  - intros (y & Hy & E). apply String.eqb_eq in E. now subst.
  - intros Hx. exists x. split; [assumption | apply String.eqb_refl].
Qed.

Lemma In_flag (x : string) (b : bool) (r : string) :
  In x (flag b r) <-> b = true /\ x = r.
Proof.
  destruct b; simpl; split; intros Hx.
  - destruct Hx as [<- | []]. auto.
  - left. symmetry. apply Hx.
  - destruct Hx.
  - destruct Hx as [Hx _]. discriminate.
Qed.

Lemma in_strs_singleton (x : string) : in_strs x [x] = true.
Proof. unfold in_strs. simpl. now rewrite String.eqb_refl. Qed.

(** What the connectivity rule and the redundant-path rule add. *)
Definition connectivity_flags (layout : Layout) (g : graph) : list string :=
  match g with
  | [] => ["connectivity"]
  | (start, _) :: _ =>
      let zone_names : gset string := list_to_set (map name (zones layout)) in
      if negb (size (reachable_from g start) =? size zone_names)%nat
      then ["connectivity"]
      else flag (negb (_has_cycle g)) "redundant_paths"
  end.

Lemma failed_check_connectivity (layout : Layout) (g : graph) (c : checks) :
  in_strs "connectivity" (failed c) = false ->
  failed (check_connectivity layout g c) = failed c ++ connectivity_flags layout g.
Proof.
  intros Hc. unfold check_connectivity, connectivity_flags.
  destruct g as [|[start adj] g']; [reflexivity|].
  cbv zeta.
  destruct (negb (size (reachable_from ((start, adj) :: g') start)
                  =? size (list_to_set (map name (zones layout)) : gset string))%nat) eqn:E.
  - rewrite failed_rule, in_strs_app, Hc. cbn [flag]. rewrite in_strs_singleton.
    cbn [orb negb]. rewrite andb_false_r. apply failed_rule.
  - rewrite failed_rule, in_strs_app, Hc. cbn [flag in_strs existsb orb negb].
    rewrite !andb_true_r.
    destruct (_has_cycle ((start, adj) :: g')); cbn [negb flag fail note rule failed];
      now rewrite ?app_nil_r.
Qed.

(** What the adjacency-pair rule adds: one identifier per missing pair. *)
Definition pair_rule_id (a b : string) : string :=
  "adjacency_" +:+ a +:+ "_" +:+ b.

Fixpoint pair_flags (g : graph) (pairs : list (list string)) : result (list string) :=
  match pairs with
  | [] => Ok []
  | p :: rest =>
      '(a, b) ← unpack2 p;
      fl ← pair_flags g rest;
      Ok (flag (negb (graph_mem g a && in_strs b (graph_get g a))) (pair_rule_id a b) ++ fl)
  end.

Lemma fold_check_pair_raise (g : graph) (pairs : list (list string)) (e : exn) :
  fold_left (check_pair g) pairs (Raise e) = Raise e.
Proof. induction pairs as [|p pairs IH]; simpl; auto. Qed.

Lemma failed_check_pairs (g : graph) (pairs : list (list string)) (c c' : checks) :
  fold_left (check_pair g) pairs (Ok c) = Ok c' ->
  exists fl, pair_flags g pairs = Ok fl /\ failed c' = failed c ++ fl.
Proof.
  revert c. induction pairs as [|p pairs IH]; intros c Hf; cbn [fold_left] in Hf.
  - injection Hf as <-. exists []. split; [reflexivity | now rewrite app_nil_r].
  - cbn [pair_flags].
    assert (Hstep : check_pair g (Ok c) p =
              '(a, b) ← unpack2 p;
              if graph_mem g a && in_strs b (graph_get g a) then Ok c
              else Ok (fail (pair_rule_id a b)
                         (Msg "Critical adjacency missing between {a} and {b}."
                              [VStr a; VStr b]) c)) by reflexivity.
    rewrite Hstep in Hf. clear Hstep.
    destruct (unpack2 p) as [[a b]|e] eqn:Hp; cbn [mbind result_bind] in *.
    + destruct (graph_mem g a && in_strs b (graph_get g a)) eqn:Hm.
      * destruct (IH _ Hf) as (fl & -> & ->). exists fl. split; reflexivity.
      * destruct (IH _ Hf) as (fl & -> & ->). eexists. split; [reflexivity|].
        cbn [fail failed negb flag]. now rewrite <- app_assoc.
    + now rewrite fold_check_pair_raise in Hf.
Qed.

(** What the storm-shelter rule adds. *)
Definition too_far (g : graph) (shelter : Zone) (max_hops : Z) (zone : Zone) : bool :=
  let dist := _storm_distance g (name zone) (name shelter) in
  (dist =? -1)%Z || (max_hops <? dist)%Z.

Definition shelter_flags (layout : Layout) (settings : ConstraintSettings) (g : graph)
    : list string :=
  match zone_by_name layout "StormShelter", g with
  | Some shelter, _ :: _ =>
      flag (existsb (too_far g shelter (max_storm_shelter_hops settings)) (zones layout))
           "storm_shelter_access"
  | _, _ => ["storm_shelter_access"]
  end.

Lemma failed_check_shelter_hops (g : graph) (shelter : Zone) (max_hops : Z)
    (zs : list Zone) (c : checks) :
  failed (check_shelter_hops g shelter max_hops zs c)
  = failed c ++ flag (existsb (too_far g shelter max_hops) zs) "storm_shelter_access".
Proof.
  induction zs as [|z zs IH]; cbn [check_shelter_hops existsb].
  - cbn. now rewrite app_nil_r.
  - unfold too_far at 1. cbv zeta.
    destruct ((_storm_distance g (name z) (name shelter) =? -1)%Z
              || (max_hops <? _storm_distance g (name z) (name shelter))%Z); [reflexivity|].
    apply IH.
Qed.

Lemma failed_check_shelter (layout : Layout) (settings : ConstraintSettings)
    (g : graph) (c : checks) :
  failed (check_shelter layout settings g c) = failed c ++ shelter_flags layout settings g.
Proof.
  unfold check_shelter, shelter_flags.
  destruct (zone_by_name layout "StormShelter"); [|reflexivity].
  destruct g; [reflexivity|]. apply failed_check_shelter_hops.
Qed.

(** What the crew-quarters rule adds. *)
Definition quarters_flags (layout : Layout) (settings : ConstraintSettings) : list string :=
  match zone_by_name layout "CrewQuarters" with
  | None => []
  | Some quarters =>
      flag (negb (bool_decide (privacy quarters = High))
            || Qltb (acoustic_isolation quarters) (min_privacy_quarters settings))
           "crew_privacy"
  end.

Lemma failed_check_quarters (layout : Layout) (settings : ConstraintSettings) (c : checks) :
  failed (check_quarters layout settings c) = failed c ++ quarters_flags layout settings.
Proof.
  unfold check_quarters, quarters_flags.
  destruct (zone_by_name layout "CrewQuarters").
  - apply failed_rule.
  - cbn. now rewrite app_nil_r.
Qed.

Lemma failed_check_shelter_volume (layout : Layout) (c : checks) :
  failed (check_shelter_volume layout c) = failed c.
Proof.
  unfold check_shelter_volume.
  destruct (zone_by_name layout "StormShelter"); [|reflexivity].
  destruct (Qleb _ _); reflexivity.
Qed.

(** The rules that read only the metadata, the volumes and the systems. *)
Definition nhv_efficiency_of (layout : Layout) : Q :=
  if Qeq_bool (pressurized_volume_m3 layout) 0 then 0.0
  else _nhv layout / pressurized_volume_m3 layout.

Definition missing_zones (layout : Layout) (settings : ConstraintSettings) : list string :=
  List.filter (fun z => negb (in_strs z (map name (zones layout)))) (required_zones settings).

Definition dust_ok (layout : Layout) : bool :=
  truthy (dict_get (dust_mitigation (systems layout)) "dual_door" VNone)
  && truthy (dict_get (dust_mitigation (systems layout)) "suit_storage" VNone).

Definition static_flags (layout : Layout) (settings : ConstraintSettings)
    (crew duration autonomy : Z) : list string :=
  flag (negb ((min_crew settings <=? crew)%Z && (crew <=? max_crew settings)%Z))
       "crew_range"
  ++ flag (negb ((min_duration_days settings <=? duration)%Z
                 && (duration <=? max_duration_days settings)%Z))
       "duration_range"
  ++ flag (negb (bool_decide (missing_zones layout settings = []))) "required_zones"
  ++ flag (Qltb (_nhv layout) (inject_Z crew * min_nhv_per_person settings)) "nhv_per_crew"
  ++ flag (Qltb (nhv_efficiency_of layout) (min_nhv_efficiency settings)) "nhv_efficiency"
  ++ flag (Qltb (shield_equivalent_g_cm2 layout) (min_shield_g_cm2 settings))
       "radiation_shield"
  ++ flag (eclss_redundancy_loops (systems layout) <? min_eclss_loops settings)%Z
       "eclss_redundancy"
  ++ flag (Qltb (water_recycling_rate (systems layout)) (min_water_recycling settings))
       "water_recycling"
  ++ flag (autonomy <? min_power_autonomy_days settings)%Z "power_autonomy"
  ++ flag (negb (dust_ok layout)) "dust_mitigation".

Ltac eval_string_eqb :=
  repeat match goal with
         | |- context [String.eqb ?a ?b] =>
             let v := eval vm_compute in (String.eqb a b) in
             change (String.eqb a b) with v
         end.

Lemma static_flags_no_connectivity (layout : Layout) (settings : ConstraintSettings)
    (crew duration autonomy : Z) :
  in_strs "connectivity" (static_flags layout settings crew duration autonomy) = false.
Proof.
  unfold static_flags. rewrite !in_strs_app, !in_strs_flag.
  eval_string_eqb. now rewrite !andb_false_r.
Qed.

Section ValidatorFacts.
Context {H : Host}.

(** The validator returns exactly when the three integers it reads convert
    and every adjacency pair has two items; the failed rules are then the
    rules' contributions, in the order of the rules. *)
Lemma validate_layout_failed_rules (layout : Layout)
    (settings : option ConstraintSettings) (vr : ValidationResult) :
  validate_layout layout settings = Ok vr ->
  let s := default default_settings settings in
  let g := _build_adjacency layout in
  exists crew duration autonomy pf,
    _crew layout = Ok crew /\ _duration layout = Ok duration
    /\ py_int (dict_get (power (systems layout)) "autonomy_days" (VInt 0)) = Ok autonomy
    /\ pair_flags g (adjacency_pairs s) = Ok pf
    /\ failed_rules vr =
         static_flags layout s crew duration autonomy
         ++ connectivity_flags layout g
         ++ pf
         ++ flag (length (List.filter is_egress (zones layout)) <? 2)%nat "egress_paths"
         ++ shelter_flags layout s g
         ++ quarters_flags layout s
    /\ passed vr = bool_decide (failed_rules vr = []).
Proof.
  unfold validate_layout. intros Hv. cbv zeta.
  set (s := default default_settings settings) in *.
  set (g := _build_adjacency layout) in *.
  destruct (_crew layout) as [crew|] eqn:Hcrew; [|discriminate].
  destruct (_duration layout) as [duration|] eqn:Hdur; [|discriminate].
  cbn [mbind result_bind] in Hv.
  destruct (py_int (dict_get (power (systems layout)) "autonomy_days" (VInt 0)))
    as [autonomy|] eqn:Haut; [|discriminate].
  cbn [mbind result_bind] in Hv.
  match type of Hv with
  | context [fold_left (check_pair g) (adjacency_pairs s) (Ok ?c0)] =>
      destruct (fold_left (check_pair g) (adjacency_pairs s) (Ok c0)) as [c1|] eqn:Hp;
        [|discriminate]
  end.
  cbn [mbind result_bind] in Hv. injection Hv as <-. cbn [failed_rules passed].
  apply failed_check_pairs in Hp. destruct Hp as (pf & Hpf & Hc1).
  exists crew, duration, autonomy, pf. repeat split; try assumption.
  rewrite failed_check_shelter_volume, failed_check_quarters, failed_check_shelter,
    failed_rule, Hc1.
  assert (Hstatic : forall c, failed c = static_flags layout s crew duration autonomy ->
            failed (check_connectivity layout g c)
            = static_flags layout s crew duration autonomy ++ connectivity_flags layout g).
  { intros c Hc. rewrite failed_check_connectivity; [now rewrite Hc|].
    rewrite Hc. apply static_flags_no_connectivity. }
  rewrite Hstatic.
  - now rewrite <- !app_assoc.
  - rewrite !failed_rule. cbn [failed app]. unfold static_flags.
    now rewrite <- !app_assoc.
Qed.

End ValidatorFacts.

(** ** Required zones (claim C6) *)

(** [layout.zones = [z for z in layout.zones if z.name != zone_name]], as the
    test of the missing zone does it. *)
Definition remove_zone (zone_name : string) (layout : Layout) : Layout :=
  set_zones layout
    (List.filter (fun z => negb (String.eqb (name z) zone_name)) (zones layout))
    (pressurized_volume_m3 layout).

(** The rules that do not read the list of zones. *)
Definition zone_independent_rules : list string :=
  ["crew_range"; "duration_range"; "radiation_shield"; "eclss_redundancy";
   "water_recycling"; "power_autonomy"; "dust_mitigation"].

Definition global_flags (layout : Layout) (settings : ConstraintSettings)
    (crew duration autonomy : Z) : list string :=
  flag (negb ((min_crew settings <=? crew)%Z && (crew <=? max_crew settings)%Z))
       "crew_range"
  ++ flag (negb ((min_duration_days settings <=? duration)%Z
                 && (duration <=? max_duration_days settings)%Z))
       "duration_range"
  ++ flag (Qltb (shield_equivalent_g_cm2 layout) (min_shield_g_cm2 settings))
       "radiation_shield"
  ++ flag (eclss_redundancy_loops (systems layout) <? min_eclss_loops settings)%Z
       "eclss_redundancy"
  ++ flag (Qltb (water_recycling_rate (systems layout)) (min_water_recycling settings))
       "water_recycling"
  ++ flag (autonomy <? min_power_autonomy_days settings)%Z "power_autonomy"
  ++ flag (negb (dust_ok layout)) "dust_mitigation".

Lemma In_connectivity_flags (r : string) (layout : Layout) (g : graph) :
  In r (connectivity_flags layout g) -> r = "connectivity" \/ r = "redundant_paths".
Proof.
  unfold connectivity_flags. destruct g as [|[start adj] g'].
  - intros [<-|[]]. now left.
  - cbv zeta. destruct (negb _).
    + intros [<-|[]]. now left.
    + intros Hr. apply In_flag in Hr. right. apply Hr.
Qed.

Lemma In_pair_flags (r : string) (g : graph) (pairs : list (list string))
    (pf : list string) :
  pair_flags g pairs = Ok pf -> In r pf -> exists a b, r = pair_rule_id a b.
Proof.
  revert pf. induction pairs as [|p pairs IH]; intros pf Hpf Hr; cbn [pair_flags] in Hpf.
  - injection Hpf as <-. destruct Hr.
  - destruct (unpack2 p) as [[a b]|]; [|discriminate]. cbn [mbind result_bind] in Hpf.
    destruct (pair_flags g pairs) as [fl|]; [|discriminate].
    cbn [mbind result_bind] in Hpf. injection Hpf as <-.
    apply in_app_iff in Hr. destruct Hr as [Hr|Hr].
    + apply In_flag in Hr. exists a, b. apply Hr.
    + now apply (IH fl).
Qed.

Lemma In_shelter_flags (r : string) (layout : Layout) (settings : ConstraintSettings)
    (g : graph) :
  In r (shelter_flags layout settings g) -> r = "storm_shelter_access".
Proof.
  unfold shelter_flags. destruct (zone_by_name layout "StormShelter").
  - destruct g.
    + now intros [<-|[]].
    + intros Hr. apply In_flag in Hr. apply Hr.
  - now intros [<-|[]].
Qed.

Lemma In_quarters_flags (r : string) (layout : Layout) (settings : ConstraintSettings) :
  In r (quarters_flags layout settings) -> r = "crew_privacy".
Proof.
  unfold quarters_flags. destruct (zone_by_name layout "CrewQuarters").
  - intros Hr. apply In_flag in Hr. apply Hr.
  - intros [].
Qed.

Lemma pair_rule_id_head (a b : string) :
  exists rest, pair_rule_id a b = String (Ascii.Ascii true false false false false true true false) rest.
Proof. unfold pair_rule_id. cbn [String.app]. eexists. reflexivity. Qed.

(** A rule that does not read the zones is among the failed rules exactly when
    its own condition is violated. *)
Lemma In_failed_global (r : string) (layout : Layout) (s : ConstraintSettings)
    (g : graph) (crew duration autonomy : Z) (pairs : list (list string))
    (pf : list string) (tail : list string) :
  In r zone_independent_rules ->
  pair_flags g pairs = Ok pf ->
  (forall x, In x tail ->
     x = "egress_paths" \/ x = "storm_shelter_access" \/ x = "crew_privacy") ->
  In r (static_flags layout s crew duration autonomy
        ++ connectivity_flags layout g ++ pf ++ tail)
  <-> In r (global_flags layout s crew duration autonomy).
Proof.
  intros Hr Hpf Htail. unfold static_flags, global_flags.
  rewrite !in_app_iff, !In_flag.
  assert (Hc : In r (connectivity_flags layout g) -> False).
  { intros Hc. apply In_connectivity_flags in Hc.
    unfold zone_independent_rules in Hr. simpl in Hr.
    destruct Hc as [-> | ->]; intuition discriminate. }
  assert (Hp : In r pf -> False).
  { intros Hp. destruct (In_pair_flags _ _ _ _ Hpf Hp) as (a & b & ->).
    destruct (pair_rule_id_head a b) as (rest & E). rewrite E in Hr.
    unfold zone_independent_rules in Hr. simpl in Hr. intuition discriminate. }
  assert (Ht : In r tail -> False).
  { intros Ht. apply Htail in Ht.
    unfold zone_independent_rules in Hr. simpl in Hr.
    destruct Ht as [-> | [-> | ->]]; intuition discriminate. }
  unfold zone_independent_rules in Hr. simpl in Hr.
  destruct Hr as [<-|[<-|[<-|[<-|[<-|[<-|[<-|[]]]]]]]];
    (split; [intros Hin | intros Hin];
     repeat (destruct Hin as [Hin|Hin]);
     try (destruct Hin as [_ Hin]; discriminate Hin);
     try (exfalso; auto; fail);
     tauto).
Qed.

(** A feasible layout to compute with: the zones of the generator's tables
    at 170 m³ for a crew of four, before any jitter. *)
Definition baseline_zones : list Zone :=
  match make_zones 170 4 ZONE_TABLES with
  | Ok zs => zs
  | Raise _ => []
  end.

Definition baseline_layout : Layout := {|
  habitat_name := "Helios-Init";
  habitat_type := Inflatable;
  pressurized_volume_m3 := 170;
  zones := baseline_zones;
  systems := initial_systems default_settings;
  shield_equivalent_g_cm2 := 5.8;
  isru_ratio := 0.6;
  docking_ports := 2;
  metadata := {[ "crew" := VInt 4; "duration_days" := VInt 90; "seed" := VInt 7 ]}
|}.

Example baseline_layout_feasible :
  (validate_layout (H:=model_host) baseline_layout None
   ≫= fun vr => Ok (passed vr, failed_rules vr)) = Ok (true, []).
Proof. vm_compute. reflexivity. Qed.

(** Scenario B: without its "Exercise" zone the layout fails, and
    "required_zones" is among the failed rules. *)
Example scenario_B :
  (validate_layout (H:=model_host) (remove_zone "Exercise" baseline_layout) None
   ≫= fun vr => Ok (passed vr, failed_rules vr))
  = Ok (false, ["required_zones"; "connectivity"]).
Proof. vm_compute. reflexivity. Qed.

(** The second half of claim C6, as the specification words it: taking a zone
    out of a feasible layout changes the presence of no rule but
    "required_zones". *)
Definition removal_leaves_other_rules (H : Host) (layout : Layout)
    (settings : option ConstraintSettings) (zone_name : string) : Prop :=
  forall vr vr',
    validate_layout layout settings = Ok vr -> passed vr = true ->
    validate_layout (remove_zone zone_name layout) settings = Ok vr' ->
    forall r, r <> "required_zones" ->
      (In r (failed_rules vr') <-> In r (failed_rules vr)).

Section RequiredZones.
Context {H : Host}.

Lemma missing_zone_flagged (layout : Layout) (settings : option ConstraintSettings)
    (vr : ValidationResult) (z : string) :
  validate_layout layout settings = Ok vr ->
  In z (required_zones (default default_settings settings)) ->
  ~ In z (map name (zones layout)) ->
  In "required_zones" (failed_rules vr) /\ passed vr = false.
Proof.
  intros Hv Hz Hmiss.
  destruct (validate_layout_failed_rules _ _ _ Hv)
    as (crew & duration & autonomy & pf & _ & _ & _ & _ & Hf & Hp).
  assert (Hin : In "required_zones" (failed_rules vr)).
  { rewrite Hf. apply in_or_app. left. unfold static_flags.
    apply in_or_app. right. apply in_or_app. right. apply in_or_app. left.
    apply In_flag. split; [|reflexivity].
    apply negb_true_iff, bool_decide_eq_false. intros Hnil.
    assert (Hzin : In z (missing_zones layout (default default_settings settings))).
    { unfold missing_zones. apply filter_In. split; [assumption|].
      apply negb_true_iff, not_true_iff_false. now rewrite in_strs_In. }
    rewrite Hnil in Hzin. destruct Hzin. }
  split; [assumption|].
  rewrite Hp. apply bool_decide_eq_false. intros Hnil. rewrite Hnil in Hin. destruct Hin.
Qed.

Lemma removal_keeps_global_rules (layout : Layout)
    (settings : option ConstraintSettings) (zone_name : string)
    (vr vr' : ValidationResult) (r : string) :
  validate_layout layout settings = Ok vr ->
  validate_layout (remove_zone zone_name layout) settings = Ok vr' ->
  In r zone_independent_rules ->
  In r (failed_rules vr') <-> In r (failed_rules vr).
Proof.
  intros Hv Hv' Hr.
  destruct (validate_layout_failed_rules _ _ _ Hv)
    as (crew & duration & autonomy & pf & Hc & Hd & Ha & Hpf & Hf & _).
  destruct (validate_layout_failed_rules _ _ _ Hv')
    as (crew' & duration' & autonomy' & pf' & Hc' & Hd' & Ha' & Hpf' & Hf' & _).
  assert (crew' = crew) as -> by (unfold _crew in *; cbn in Hc'; congruence).
  assert (duration' = duration) as ->
    by (unfold _duration in *; cbn in Hd'; congruence).
  assert (autonomy' = autonomy) as -> by (cbn in Ha'; congruence).
  assert (Htail : forall l s g x,
            In x (flag (length (List.filter is_egress (zones l)) <? 2)%nat "egress_paths"
                  ++ shelter_flags l s g ++ quarters_flags l s) ->
            x = "egress_paths" \/ x = "storm_shelter_access" \/ x = "crew_privacy").
  { intros l s g x Hx. rewrite !in_app_iff in Hx. destruct Hx as [Hx|[Hx|Hx]].
    - apply In_flag in Hx. left. apply Hx.
    - right. left. eapply In_shelter_flags, Hx.
    - right. right. eapply In_quarters_flags, Hx. }
  rewrite Hf, Hf'.
  rewrite (In_failed_global r _ _ _ _ _ _ _ _ _ Hr Hpf (Htail _ _ _)).
  rewrite (In_failed_global r _ _ _ _ _ _ _ _ _ Hr Hpf' (Htail _ _ _)).
  reflexivity.
Qed.

End RequiredZones.

(** Claim C6, as amended.  Whenever a zone named in [settings.required_zones]
    is absent from the layout, the validator's result has "required_zones"
    among its failed rules and [passed] false.  Taking a zone out of a layout
    changes neither the presence nor the absence of the rules that do not read
    the zones: crew_range, duration_range, radiation_shield, eclss_redundancy,
    water_recycling, power_autonomy and dust_mitigation. *)
Theorem validate_required_zones (H : Host) (layout : Layout)
    (settings : option ConstraintSettings) (vr : ValidationResult) :
  validate_layout layout settings = Ok vr ->
  ((exists z, In z (required_zones (default default_settings settings))
              /\ ~ In z (map name (zones layout))) ->
   In "required_zones" (failed_rules vr) /\ passed vr = false)
  /\ (forall zone_name vr' r,
        validate_layout (remove_zone zone_name layout) settings = Ok vr' ->
        In r zone_independent_rules ->
        (In r (failed_rules vr') <-> In r (failed_rules vr))).
Proof.
  intros Hv. split.
  - intros (z & Hz & Hmiss). eapply missing_zone_flagged; eassumption.
  - intros zone_name vr' r Hv' Hr. eapply removal_keeps_global_rules; eassumption.
Qed.

(** Claim C6 on the layout of Scenario B: the feasible layout without its
    "Exercise" zone. *)
Lemma validate_required_zones_witness :
  exists vr,
    validate_layout (H:=model_host) (remove_zone "Exercise" baseline_layout) None = Ok vr
    /\ In "required_zones" (failed_rules vr) /\ passed vr = false.
Proof.
  destruct (validate_layout (H:=model_host) (remove_zone "Exercise" baseline_layout) None)
    as [vr|e] eqn:Hv; [|vm_compute in Hv; discriminate Hv].
  exists vr. split; [reflexivity|].
  apply (proj1 (validate_required_zones model_host _ None vr Hv)).
  exists "Exercise". split.
  - vm_compute. tauto.
  - vm_compute. intuition discriminate.
Defined.

(** Claim C6 as stated fails: without its "StormShelter" zone the feasible
    layout also fails the storm-shelter rule, which it passed before. *)
Lemma removal_changes_other_rules :
  ~ removal_leaves_other_rules model_host baseline_layout None "StormShelter".
Proof.
  intros Hclaim.
  destruct (validate_layout (H:=model_host) baseline_layout None) as [vr|e] eqn:Hv;
    [|vm_compute in Hv; discriminate Hv].
  destruct (validate_layout (H:=model_host) (remove_zone "StormShelter" baseline_layout) None)
    as [vr'|e] eqn:Hv'; [|vm_compute in Hv'; discriminate Hv'].
  assert (Hp : passed vr = true).
  { vm_compute in Hv. injection Hv as <-. reflexivity. }
  assert (Hf : failed_rules vr = []).
  { vm_compute in Hv. injection Hv as <-. reflexivity. }
  assert (Hin : In "storm_shelter_access" (failed_rules vr')).
  { vm_compute in Hv'. injection Hv' as <-. simpl. tauto. }
  specialize (Hclaim vr vr' Hv Hp Hv' "storm_shelter_access").
  rewrite Hf in Hclaim. apply Hclaim; [discriminate | exact Hin].
Qed.

(** ** Connectivity and redundant paths (claims C5 and C7) *)

(** Every declared zone name is reached by the traversal of the connectivity
    rule, which starts at the first key of the graph. *)
Definition all_declared_reached (layout : Layout) : bool :=
  match _build_adjacency layout with
  | [] => true
  | (start, adj) :: g' =>
      forallb (fun z => bool_decide (z ∈ reachable_from ((start, adj) :: g') start))
              (map name (zones layout))
  end.

(** Every node of the graph, stub or zone, is reached: the graph is connected. *)
Definition graph_connected (g : graph) : bool :=
  match g with
  | [] => true
  | (start, _) :: _ =>
      forallb (fun k => bool_decide (k ∈ reachable_from g start)) (map fst g)
  end.

Definition with_connections (z : Zone) (cs : list string) : Zone := set_connections z cs.

Definition zone_named (zone_name : string) : list Zone :=
  List.filter (fun z => String.eqb (name z) zone_name) baseline_zones.

(** Two declared zones, "Airlock" and "Work"; "Airlock" names a neighbour,
    "Annex", that is no zone, and "Work" has no neighbour at all. *)
Definition stub_layout : Layout :=
  set_zones baseline_layout
    (map (fun z => with_connections z ["Annex"]) (zone_named "Airlock")
     ++ map (fun z => with_connections z []) (zone_named "Work"))
    170.

(** Two declared zones in a path "Airlock" - "Work" - "GalleyDining", the last
    of which is not declared: a connected graph of three nodes and no cycle. *)
Definition path_layout : Layout :=
  set_zones baseline_layout
    (map (fun z => with_connections z ["Work"]) (zone_named "Airlock")
     ++ map (fun z => with_connections z ["GalleyDining"]) (zone_named "Work"))
    170.

(** Scenario D: five declared zones in a tree, and no other node. *)
Definition tree_layout : Layout :=
  set_zones baseline_layout
    (map (fun z => with_connections z ["Work"; "MaintenanceStorage"]) (zone_named "Airlock")
     ++ map (fun z => with_connections z ["GalleyDining"]) (zone_named "Work")
     ++ map (fun z => with_connections z []) (zone_named "GalleyDining")
     ++ map (fun z => with_connections z ["StormShelter"]) (zone_named "MaintenanceStorage")
     ++ map (fun z => with_connections z []) (zone_named "StormShelter"))
    170.

Definition flagged (H : Host) (layout : Layout) (rule_id : string) : result bool :=
  vr ← validate_layout layout None; Ok (in_strs rule_id (failed_rules vr)).

Example scenario_D :
  graph_connected (_build_adjacency tree_layout) = true
  /\ _has_cycle (_build_adjacency tree_layout) = false
  /\ flagged model_host tree_layout "connectivity" = Ok false
  /\ flagged model_host tree_layout "redundant_paths" = Ok true.
Proof. vm_compute. auto. Qed.

(** Claim C5 at its failing inputs.  The connectivity rule compares the number
    of reached nodes with the number of declared zone names.  Without its
    "Exercise" zone, which two other zones still name, the feasible layout has
    every declared zone reached and yet fails "connectivity"; the layout with
    the stub "Annex" has its zone "Work" unreached and yet passes it. *)
Theorem connectivity_counts_nodes :
  (all_declared_reached (remove_zone "Exercise" baseline_layout) = true
   /\ flagged model_host (remove_zone "Exercise" baseline_layout) "connectivity" = Ok true)
  /\ (all_declared_reached stub_layout = false
      /\ flagged model_host stub_layout "connectivity" = Ok false).
Proof. vm_compute. auto. Qed.

(** Claim C7 at its failing input.  The graph of the path layout is connected
    and has no cycle, but one of its three nodes is a stub: the node count
    differs from the number of declared zones, "connectivity" is reported and
    "redundant_paths" is not. *)
Theorem redundant_paths_skipped_on_stub :
  graph_connected (_build_adjacency path_layout) = true
  /\ _has_cycle (_build_adjacency path_layout) = false
  /\ flagged model_host path_layout "connectivity" = Ok true
  /\ flagged model_host path_layout "redundant_paths" = Ok false.
Proof. vm_compute. auto. Qed.

(** ** The score and the feasibility penalty (claim C9) *)

(** The weighted sum of the six terms of the score, read off the metrics. *)
Definition weighted_sum (H : Host) (w : ScoreWeights) (settings : ConstraintSettings)
    (m : Metrics) : Q :=
  w_volume_eff w * fmin (nhv_efficiency m / min_nhv_efficiency settings) 1.2
  + w_privacy w * privacy_score m
  + w_transit w * transit_distance_score m
  + w_safety w * safety_redundancy_score m
  + w_sustain w * sustainability_score m
  + w_energy w * energy_score (energy_use_kwh_per_person_day m).

Lemma normalized_total (w wn : ScoreWeights) :
  normalized w = Ok wn -> weights_total wn == 1.
Proof.
  unfold normalized. destruct (Qleb (weights_total w) 0) eqn:E; [discriminate|].
  intros Hn. injection Hn as <-. apply Qleb_gt in E.
  unfold weights_total in *. cbn. field. lra.
Qed.

Lemma validate_layout_default (H : Host) (layout : Layout)
    (settings : option ConstraintSettings) :
  validate_layout layout (Some (default default_settings settings))
  = validate_layout layout settings.
Proof. destruct settings; reflexivity. Qed.

Lemma half_eq_iff (x : Q) : ~ x == 0 -> ~ x * 0.5 == x.
Proof. intros Hx E. apply Hx. lra. Qed.

(** Claim C9, as amended.  When [evaluate] returns, the feasibility of the
    metrics is the validator's [passed]; the score is the weighted sum of the
    six terms, with the weights normalised to sum to one, when the layout is
    feasible, and that sum times 0.5 when it is not.  Unless the sum is zero,
    either value of the score tells which of the two cases it is; a sum of
    zero is its own half, and the score then tells nothing. *)
Theorem evaluate_score (H : Host) (layout : Layout)
    (constraints : option ConstraintSettings) (weights : option ScoreWeights)
    (m : Metrics) (sc : Q) :
  evaluate layout constraints weights = Ok (m, sc) ->
  let s := default default_settings constraints in
  exists wn vr,
    normalized (default default_weights weights) = Ok wn
    /\ weights_total wn == 1
    /\ validate_layout layout constraints = Ok vr
    /\ feasibility m = passed vr
    /\ sc = (if passed vr then weighted_sum H wn s m else weighted_sum H wn s m * 0.5)
    /\ (~ weighted_sum H wn s m == 0 ->
        (sc == weighted_sum H wn s m * 0.5 <-> passed vr = false)
        /\ (sc == weighted_sum H wn s m <-> passed vr = true)).
Proof.
  unfold evaluate. intros He. cbv zeta in *.
  set (s := default default_settings constraints) in *.
  destruct (normalized (default default_weights weights)) as [wn|] eqn:Hn; [|discriminate].
  cbn [mbind result_bind] in He.
  destruct (_transit_score layout s) as [transit|]; [|discriminate].
  cbn [mbind result_bind] in He.
  destruct (_sustainability_score layout s) as [sustain|]; [|discriminate].
  cbn [mbind result_bind] in He.
  destruct (_energy_per_person_day layout) as [energy|]; [|discriminate].
  cbn [mbind result_bind] in He.
  destruct (_safety_score layout s) as [safety|]; [|discriminate].
  cbn [mbind result_bind] in He.
  destruct (validate_layout layout (Some s)) as [vr|] eqn:Hv; [|discriminate].
  cbn [mbind result_bind] in He.
  unfold fdiv in He.
  destruct (Qeq_bool (min_nhv_efficiency s) 0); [discriminate|].
  cbn [mbind result_bind] in He. injection He as <- <-.
  exists wn, vr. subst s. rewrite validate_layout_default in Hv.
  split; [reflexivity|]. split; [eapply normalized_total; eassumption|].
  split; [assumption|]. split; [reflexivity|].
  unfold weighted_sum. cbn [nhv_efficiency privacy_score transit_distance_score
    safety_redundancy_score sustainability_score energy_use_kwh_per_person_day].
  split.
  - destruct (passed vr); reflexivity.
  - intros Hnz. destruct (passed vr); cbn [negb]; split; split; intros E;
      try reflexivity; try discriminate; exfalso.
    + apply (half_eq_iff _ Hnz). symmetry. exact E.
    + apply (half_eq_iff _ Hnz). exact E.
Qed.

(** Claim C9 on the feasible layout and the default weights. *)
Lemma evaluate_score_witness :
  exists m sc,
    evaluate (H:=model_host) baseline_layout None None = Ok (m, sc)
    /\ feasibility m = true
    /\ sc = weighted_sum model_host
              match normalized default_weights with Ok wn => wn | Raise _ => default_weights end
              default_settings m.
Proof.
  destruct (evaluate (H:=model_host) baseline_layout None None) as [[m sc]|e] eqn:He;
    [|vm_compute in He; discriminate He].
  exists m, sc. split; [reflexivity|].
  destruct (evaluate_score model_host baseline_layout None None m sc He)
    as (wn & vr & Hn & _ & Hv & Hf & Hs & _).
  assert (Hp : passed vr = true).
  { vm_compute in Hv. injection Hv as <-. reflexivity. }
  rewrite Hp in Hf, Hs. split; [exact Hf|].
  rewrite Hs. cbn [default] in Hn. rewrite Hn. reflexivity.
Defined.

(** Claim C9 as the specification words it: the score is the halved sum
    exactly when the validator fails the layout, and the full sum exactly when
    it passes it. *)
Definition score_tells_feasibility (H : Host) : Prop :=
  forall layout constraints weights m sc wn vr,
    evaluate layout constraints weights = Ok (m, sc) ->
    normalized (default default_weights weights) = Ok wn ->
    validate_layout layout constraints = Ok vr ->
    let total := weighted_sum H wn (default default_settings constraints) m in
    feasibility m = passed vr
    /\ (sc == total * 0.5 <-> passed vr = false)
    /\ (sc == total <-> passed vr = true).

(** A layout without zones, scored on the volume efficiency alone. *)
Definition empty_layout : Layout := set_zones baseline_layout [] 170.

Definition volume_only : ScoreWeights := {|
  w_volume_eff := 1; w_privacy := 0; w_transit := 0;
  w_safety := 0; w_sustain := 0; w_energy := 0
|}.

(** Claim C9 as stated fails: the layout without zones is infeasible and its
    weighted sum under these weights is zero, so its score, zero, is also the
    sum without the penalty. *)
Lemma zero_score_hides_penalty : ~ score_tells_feasibility model_host.
Proof.
  intros Hclaim.
  destruct (evaluate (H:=model_host) empty_layout None (Some volume_only))
    as [[m sc]|e] eqn:He; [|vm_compute in He; discriminate He].
  destruct (validate_layout (H:=model_host) empty_layout None)
    as [vr|e] eqn:Hv; [|vm_compute in Hv; discriminate Hv].
  destruct (normalized (default default_weights (Some volume_only)))
    as [wn|e] eqn:Hn; [|vm_compute in Hn; discriminate Hn].
  destruct (Hclaim _ _ _ _ _ _ _ He Hn Hv) as (_ & _ & Hfull).
  assert (Hp : passed vr = false).
  { vm_compute in Hv. injection Hv as <-. reflexivity. }
  rewrite Hp in Hfull. apply proj1 in Hfull.
  assert (Heq : sc == weighted_sum model_host wn (default default_settings None) m).
  { vm_compute in He. injection He as <- <-.
    vm_compute in Hn. injection Hn as <-. vm_compute. reflexivity. }
  specialize (Hfull Heq). discriminate Hfull.
Qed.

(** ** The optimizer's best state (claim C1) *)

Section BestTracking.
Context {H : Host}.
Variables (settings : ConstraintSettings) (weights : ScoreWeights) (iterations : Z).

(** What one iteration may do to [best]: leave it, or replace it by a copy of
    the candidate of that iteration, which the validator has passed and
    whose score is higher. *)
Definition best_kept (st st' : anneal_state) : Prop :=
  best st' = best st /\ best_metrics st' = best_metrics st
  /\ best_score st' = best_score st.

Definition best_replaced (st st' : anneal_state) : Prop :=
  exists op candidate r vr,
    propose (current st) (st_rng st) = Ok (op, candidate, r)
    /\ validate_layout candidate (Some settings) = Ok vr
    /\ passed vr = true
    /\ evaluate candidate (Some settings) (Some weights)
       = Ok (best_metrics st', best_score st')
    /\ _copy_layout candidate = Ok (best st')
    /\ best_score st < best_score st'.

Lemma anneal_step_best (st st' : anneal_state) (step : Z) :
  anneal_step settings weights iterations st step = Ok st' ->
  (best_kept st st' \/ best_replaced st st')
  /\ exists e, history st' = history st ++ [e].
Proof.
  unfold anneal_step. intros Hs.
  destruct (propose (current st) (st_rng st)) as [[[op cand] r]|] eqn:Hp; [|discriminate].
  cbn [mbind result_bind] in Hs.
  destruct (validate_layout cand (Some settings)) as [vr|] eqn:Hv; [|discriminate].
  cbn [mbind result_bind] in Hs.
  destruct (passed vr) eqn:Hpass; cbn [negb] in Hs.
  - destruct (evaluate cand (Some settings) (Some weights)) as [[cm cs]|] eqn:He;
      [|discriminate].
    cbn [mbind result_bind] in Hs.
    destruct (accept_move (cs - current_score st) (temperature step iterations) r)
      as [accept r'].
    destruct accept.
    + destruct (Qltb (best_score st) cs) eqn:Hb.
      * destruct (_copy_layout cand) as [b'|] eqn:Hc; [|discriminate].
        cbn [mbind result_bind] in Hs. injection Hs as <-. split.
        -- right. exists op, cand, r, vr. cbn. apply Qltb_lt in Hb. auto 10.
        -- eexists. reflexivity.
      * injection Hs as <-. split; [left; repeat split | eexists; reflexivity].
    + injection Hs as <-. split; [left; repeat split | eexists; reflexivity].
  - injection Hs as <-. split; [left; repeat split | eexists; reflexivity].
Qed.

Lemma best_score_step (st st' : anneal_state) (step : Z) :
  anneal_step settings weights iterations st step = Ok st' ->
  best_score st <= best_score st'.
Proof.
  intros Hs. destruct (anneal_step_best _ _ _ Hs) as [[(_ & _ & E) | Hr] _].
  - rewrite E. apply Qle_refl.
  - destruct Hr as (? & ? & ? & ? & _ & _ & _ & _ & _ & Hlt). now apply Qlt_le_weak.
Qed.

(** The best layout of a state: the one the loop started from, or the copy
    of a candidate that passed validation. *)
Definition best_provenance (st0 st : anneal_state) : Prop :=
  (best st = best st0 /\ best_metrics st = best_metrics st0
   /\ best_score st = best_score st0)
  \/ exists candidate vr,
       validate_layout candidate (Some settings) = Ok vr /\ passed vr = true
       /\ evaluate candidate (Some settings) (Some weights)
          = Ok (best_metrics st, best_score st)
       /\ _copy_layout candidate = Ok (best st).

Lemma anneal_loop_best (steps : list Z) (st0 st st' : anneal_state) :
  anneal_loop settings weights iterations steps st = Ok st' ->
  best_provenance st0 st ->
  best_score st <= best_score st'
  /\ best_provenance st0 st'
  /\ exists es, history st' = history st ++ es.
Proof.
  revert st. induction steps as [|step steps IH]; intros st Hl Hinv; cbn in Hl.
  - injection Hl as <-. split; [apply Qle_refl|]. split; [assumption|].
    exists []. now rewrite app_nil_r.
  - destruct (anneal_step settings weights iterations st step) as [st1|] eqn:Hs;
      [|discriminate].
    cbn [mbind result_bind] in Hl.
    pose proof (best_score_step _ _ _ Hs) as Hle.
    destruct (anneal_step_best _ _ _ Hs) as [Hb [e He]].
    assert (Hinv1 : best_provenance st0 st1).
    { destruct Hb as [(E1 & E2 & E3) | (op & cand & r & vr & _ & Hv & Hp & Hev & Hc & _)].
      - unfold best_provenance. rewrite E1, E2, E3. exact Hinv.
      - right. exists cand, vr. auto. }
    destruct (IH st1 Hl Hinv1) as (Hle' & Hinv' & es & Hes).
    split; [eapply Qle_trans; eassumption|]. split; [assumption|].
    exists (e :: es). rewrite Hes, He, <- app_assoc. reflexivity.
Qed.

End BestTracking.

(** Claim C1.  When the optimizer returns, its history starts with the entry
    of iteration 0, logged as accepted with the reason "initial", and the score
    it returns is at least the score of that entry.  The layout it returns is
    the copy of the input layout, or the copy of a candidate that the validator
    passed; and in every iteration, from whatever state, [best] is either kept
    or replaced by the copy of the candidate of that very iteration, which the
    validator passed and which scores strictly higher. *)
Theorem best_tracking (H : Host) (layout : Layout) (iterations : Z)
    (settings : option ConstraintSettings) (weights : option ScoreWeights)
    (seed : option Z) (res : OptimizationResult) :
  optimize_layout layout iterations settings weights seed = Ok res ->
  let s := default default_settings settings in
  let w := default default_weights weights in
  (exists e0 rest,
      result_history res = e0 :: rest
      /\ iteration e0 = 0%Z /\ accepted e0 = true /\ reason e0 = "initial"
      /\ score e0 <= result_score res)
  /\ (exists st0, initial_state layout s w seed = Ok st0
      /\ ((result_layout res = best st0 /\ result_score res = best_score st0)
          \/ exists candidate vr,
               validate_layout candidate (Some s) = Ok vr /\ passed vr = true
               /\ evaluate candidate (Some s) (Some w)
                  = Ok (result_metrics res, result_score res)
               /\ _copy_layout candidate = Ok (result_layout res)))
  /\ (forall st step st',
        anneal_step s w iterations st step = Ok st' ->
        best_kept st st' \/ best_replaced s w st st').
Proof.
  unfold optimize_layout. intros Ho. cbv zeta in *.
  set (s := default default_settings settings) in *.
  set (w := default default_weights weights) in *.
  destruct (initial_state layout s w seed) as [st0|] eqn:H0; [|discriminate].
  cbn [mbind result_bind] in Ho.
  destruct (anneal_loop s w iterations (step_range iterations) st0) as [st|] eqn:Hl;
    [|discriminate].
  cbn [mbind result_bind] in Ho. injection Ho as <-.
  cbn [result_history result_score result_layout result_metrics].
  assert (Hinit : history st0 = [ {| iteration := 0; score := best_score st0;
                                     accepted := true; reason := "initial" |} ]).
  { unfold initial_state in H0.
    destruct (rng_seed layout seed); [|discriminate]. cbn [mbind result_bind] in H0.
    destruct (_copy_layout layout) as [cur|]; [|discriminate].
    cbn [mbind result_bind] in H0.
    destruct (evaluate cur (Some s) (Some w)) as [[cm cs]|]; [|discriminate].
    cbn [mbind result_bind] in H0.
    destruct (_copy_layout cur); [|discriminate].
    cbn [mbind result_bind] in H0. injection H0 as <-. reflexivity. }
  destruct (anneal_loop_best s w iterations _ st0 st0 st Hl) as (Hle & Hprov & es & Hes).
  { left. auto. }
  split; [|split].
  - eexists. exists es. rewrite Hes, Hinit. split; [reflexivity|]. cbn. auto.
  - exists st0. split; [reflexivity|].
    destruct Hprov as [(E1 & _ & E3) | (cand & vr & Hv & Hp & He & Hc)].
    + left. auto.
    + right. exists cand, vr. auto.
  - intros st1 step st1' Hs. exact (proj1 (anneal_step_best s w iterations _ _ _ Hs)).
Qed.

(** ** The seed of the optimizer (claim C10) *)

(** Claim C10.  A seed of 0 is falsy: called with it, the optimizer seeds its
    generator from [layout.metadata["seed"]], 42 when there is none, as it does
    when no seed is given, and returns the same result. *)
Theorem optimize_seed_zero (H : Host) (layout : Layout) (iterations : Z)
    (settings : option ConstraintSettings) (weights : option ScoreWeights) :
  optimize_layout layout iterations settings weights (Some 0%Z)
  = optimize_layout layout iterations settings weights None
  /\ rng_seed layout (Some 0%Z) = py_int (dict_get (metadata layout) "seed" (VInt 42))
  /\ rng_seed layout None = py_int (dict_get (metadata layout) "seed" (VInt 42)).
Proof. repeat split. Qed.

(** The optimizer returns on the feasible layout, two iterations, seed 5. *)
Lemma baseline_run :
  exists res,
    optimize_layout (H:=model_host) baseline_layout 2 None None (Some 5%Z) = Ok res.
Proof.
  destruct (optimize_layout (H:=model_host) baseline_layout 2 None None (Some 5%Z))
    as [res|e] eqn:Ho; [|vm_compute in Ho; discriminate Ho].
  exists res. reflexivity.
Qed.

(** Claim C1 on a run of two iterations from the feasible layout. *)
Lemma best_tracking_witness :
  exists res e0 rest,
    optimize_layout (H:=model_host) baseline_layout 2 None None (Some 5%Z) = Ok res
    /\ result_history res = e0 :: rest
    /\ iteration e0 = 0%Z /\ score e0 <= result_score res.
Proof.
  destruct baseline_run as [res Ho].
  destruct (best_tracking model_host baseline_layout 2 None None (Some 5%Z) res Ho)
    as ((e0 & rest & Hh & Hi & _ & _ & Hs) & _).
  exists res, e0, rest. auto.
Defined.

(** ** The optimizer as a state machine *)

Section AnnealingRelation.
Context {H : Host}.
Variables (settings : ConstraintSettings) (weights : ScoreWeights) (iterations : Z).

(** The four ways an iteration ends: the candidate fails validation; it is
    accepted and becomes the best; it is accepted without becoming the best;
    it is rejected by the annealing criterion. *)
Inductive anneal_step_rel (st : anneal_state) (step : Z) : anneal_state -> Prop :=
| step_constraint_fail op candidate r vr :
    propose (current st) (st_rng st) = Ok (op, candidate, r) ->
    validate_layout candidate (Some settings) = Ok vr ->
    passed vr = false ->
    anneal_step_rel st step
      {| st_rng := r;
         current := current st;
         current_metrics := current_metrics st;
         current_score := current_score st;
         best := best st;
         best_metrics := best_metrics st;
         best_score := best_score st;
         history := log st
           {| iteration := step; score := current_score st; accepted := false;
              reason := "constraint_fail:" +:+ join_comma (failed_rules vr) |} |}
| step_accept_best op candidate r vr cm cs r' best' :
    propose (current st) (st_rng st) = Ok (op, candidate, r) ->
    validate_layout candidate (Some settings) = Ok vr ->
    passed vr = true ->
    evaluate candidate (Some settings) (Some weights) = Ok (cm, cs) ->
    accept_move (cs - current_score st) (temperature step iterations) r = (true, r') ->
    best_score st < cs ->
    _copy_layout candidate = Ok best' ->
    anneal_step_rel st step
      {| st_rng := r';
         current := candidate;
         current_metrics := cm;
         current_score := cs;
         best := best';
         best_metrics := cm;
         best_score := cs;
         history := log st
           {| iteration := step; score := cs; accepted := true;
              reason := op_name op |} |}
| step_accept op candidate r vr cm cs r' :
    propose (current st) (st_rng st) = Ok (op, candidate, r) ->
    validate_layout candidate (Some settings) = Ok vr ->
    passed vr = true ->
    evaluate candidate (Some settings) (Some weights) = Ok (cm, cs) ->
    accept_move (cs - current_score st) (temperature step iterations) r = (true, r') ->
    cs <= best_score st ->
    anneal_step_rel st step
      {| st_rng := r';
         current := candidate;
         current_metrics := cm;
         current_score := cs;
         best := best st;
         best_metrics := best_metrics st;
         best_score := best_score st;
         history := log st
           {| iteration := step; score := cs; accepted := true;
              reason := op_name op |} |}
| step_anneal_reject op candidate r vr cm cs r' :
    propose (current st) (st_rng st) = Ok (op, candidate, r) ->
    validate_layout candidate (Some settings) = Ok vr ->
    passed vr = true ->
    evaluate candidate (Some settings) (Some weights) = Ok (cm, cs) ->
    accept_move (cs - current_score st) (temperature step iterations) r = (false, r') ->
    anneal_step_rel st step
      {| st_rng := r';
         current := current st;
         current_metrics := current_metrics st;
         current_score := current_score st;
         best := best st;
         best_metrics := best_metrics st;
         best_score := best_score st;
         history := log st
           {| iteration := step; score := current_score st; accepted := false;
              reason := "anneal_reject" |} |}.

Inductive anneal_run : list Z -> anneal_state -> anneal_state -> Prop :=
| run_done st : anneal_run [] st st
| run_step step steps st st1 st2 :
    anneal_step_rel st step st1 ->
    anneal_run steps st1 st2 ->
    anneal_run (step :: steps) st st2.

(** The executable step takes a transition of the machine. *)
Lemma anneal_step_sound (st st' : anneal_state) (step : Z) :
  anneal_step settings weights iterations st step = Ok st' ->
  anneal_step_rel st step st'.
Proof.
  unfold anneal_step. intros Hs.
  destruct (propose (current st) (st_rng st)) as [[[op cand] r]|] eqn:Hp; [|discriminate].
  cbn [mbind result_bind] in Hs.
  destruct (validate_layout cand (Some settings)) as [vr|] eqn:Hv; [|discriminate].
  cbn [mbind result_bind] in Hs.
  destruct (passed vr) eqn:Hpass; cbn [negb] in Hs.
  - destruct (evaluate cand (Some settings) (Some weights)) as [[cm cs]|] eqn:He;
      [|discriminate].
    cbn [mbind result_bind] in Hs.
    destruct (accept_move (cs - current_score st) (temperature step iterations) r)
      as [accept r'] eqn:Ha.
    destruct accept.
    + destruct (Qltb (best_score st) cs) eqn:Hb.
      * destruct (_copy_layout cand) as [b'|] eqn:Hc; [|discriminate].
        cbn [mbind result_bind] in Hs. injection Hs as <-.
        apply Qltb_lt in Hb. eapply step_accept_best; eassumption.
      * injection Hs as <-. apply Qltb_ge in Hb. eapply step_accept; eassumption.
    + injection Hs as <-. eapply step_anneal_reject; eassumption.
  - injection Hs as <-. eapply step_constraint_fail; eassumption.
Qed.

Lemma anneal_loop_sound (steps : list Z) (st st' : anneal_state) :
  anneal_loop settings weights iterations steps st = Ok st' ->
  anneal_run steps st st'.
Proof.
  revert st. induction steps as [|step steps IH]; intros st Hl; cbn in Hl.
  - injection Hl as <-. constructor.
  - destruct (anneal_step settings weights iterations st step) as [st1|] eqn:Hs;
      [|discriminate].
    cbn [mbind result_bind] in Hl.
    econstructor; [apply anneal_step_sound; eassumption | now apply IH].
Qed.

End AnnealingRelation.

(** A call of the optimizer: the initial state, the run of the loop over
    [range(1, iterations + 1)], and the result read off the final state. *)
Inductive optimize_run {H : Host} (layout : Layout) (iterations : Z)
    (settings : option ConstraintSettings) (weights : option ScoreWeights)
    (seed : option Z) : OptimizationResult -> Prop :=
| optimize_run_intro st0 st :
    initial_state layout (default default_settings settings)
      (default default_weights weights) seed = Ok st0 ->
    anneal_run (default default_settings settings) (default default_weights weights)
      iterations (step_range iterations) st0 st ->
    optimize_run layout iterations settings weights seed
      {| result_layout := best st;
         result_metrics := best_metrics st;
         result_score := best_score st;
         result_history := history st |}.

Lemma optimize_layout_run (H : Host) (layout : Layout) (iterations : Z)
    (settings : option ConstraintSettings) (weights : option ScoreWeights)
    (seed : option Z) (res : OptimizationResult) :
  optimize_layout layout iterations settings weights seed = Ok res ->
  optimize_run layout iterations settings weights seed res.
Proof.
  unfold optimize_layout. intros Ho. cbv zeta in Ho.
  destruct (initial_state layout _ _ seed) as [st0|] eqn:H0; [|discriminate].
  cbn [mbind result_bind] in Ho.
  destruct (anneal_loop _ _ iterations (step_range iterations) st0) as [st|] eqn:Hl;
    [|discriminate].
  cbn [mbind result_bind] in Ho. injection Ho as <-.
  econstructor; [eassumption | now apply anneal_loop_sound].
Qed.

(** ** The generator: volumes (claim C8) *)

Lemma total_volume_cons (z : Zone) (zs : list Zone) :
  total_volume (z :: zs) == volume_m3 z + total_volume zs.
Proof. unfold total_volume. cbn [map]. apply fsum_cons. Qed.

Section GeneratorVolumes.
Context {H : Host}.

(** The loop that tweaks the volumes leaves every zone at 5 m³ or more. *)
Lemma jitter_zones_floor (zs : list Zone) (r : rng) :
  Forall (fun z => 5 <= volume_m3 z) (fst (jitter_zones zs r))
  /\ length (fst (jitter_zones zs r)) = length zs.
Proof.
  revert r. induction zs as [|z zs IH]; intros r; cbn [jitter_zones].
  - split; [constructor | reflexivity].
  - destruct (rng_uniform (-0.05) 0.05 r) as [j r1].
    specialize (IH r1). destruct (jitter_zones zs r1) as [rest r2].
    cbn [fst] in *. destruct IH as [IH1 IH2]. split.
    + constructor; [|assumption]. cbn [set_volume volume_m3].
      pose proof (fmax_spec (volume_m3 z * (1 + j)) 5.0) as [_ Hf]. lra.
    + cbn [length]. now rewrite IH2.
Qed.

Lemma make_zones_length (p : Q) (crew : Z) (ds : list zone_defaults) (zs : list Zone) :
  make_zones p crew ds = Ok zs -> length zs = length ds.
Proof.
  revert zs. induction ds as [|d ds IH]; intros zs Hm; cbn [make_zones] in Hm.
  - now injection Hm as <-.
  - destruct (make_zone p crew d); [|discriminate]. cbn [mbind result_bind] in Hm.
    destruct (make_zones p crew ds) as [zs'|]; [|discriminate].
    cbn [mbind result_bind] in Hm. injection Hm as <-. cbn [length].
    now rewrite (IH zs').
Qed.

Lemma total_volume_scaled (k : Q) (zs : list Zone) :
  total_volume (map (fun z => set_volume z (volume_m3 z * k)) zs)
  == total_volume zs * k.
Proof.
  induction zs as [|z zs IH]; cbn [map].
  - unfold total_volume. cbn. lra.
  - rewrite !total_volume_cons, IH. cbn [set_volume volume_m3]. lra.
Qed.

Lemma total_volume_floor (zs : list Zone) :
  Forall (fun z => 5 <= volume_m3 z) zs ->
  inject_Z (Z.of_nat (length zs)) * 5 <= total_volume zs.
Proof.
  intros Hz. unfold total_volume. rewrite <- (length_map volume_m3).
  apply fsum_lower_bound. now apply Forall_map.
Qed.

(** The closure invariant of the renormalisation. *)
Lemma renormalize_total (p : Q) (zs : list Zone) :
  0 < total_volume zs -> total_volume (renormalize p zs) == p.
Proof.
  intros Hpos. unfold renormalize.
  destruct (Qeq_bool (total_volume zs) 0) eqn:E.
  - apply Qeq_bool_eq in E. lra.
  - rewrite total_volume_scaled. field. lra.
Qed.

Lemma initial_zones_total (cfg : gen_config) (zs : list Zone) :
  initial_zones cfg = Ok zs -> total_volume zs == cfg_pressurized cfg.
Proof.
  unfold initial_zones. intros Hi.
  destruct (make_zones (cfg_pressurized cfg) (cfg_crew cfg) ZONE_TABLES) as [zs0|] eqn:Hm;
    [|discriminate].
  cbn [mbind result_bind] in Hi. injection Hi as <-.
  apply renormalize_total.
  destruct (jitter_zones_floor zs0 (Random (cfg_seed cfg))) as [Hfloor Hlen].
  apply total_volume_floor in Hfloor.
  rewrite Hlen, (make_zones_length _ _ _ _ Hm) in Hfloor.
  change (inject_Z (Z.of_nat (length ZONE_TABLES))) with 9 in Hfloor. lra.
Qed.

Lemma build_layout_total (cfg : gen_config) (settings : ConstraintSettings)
    (layout : Layout) :
  build_layout cfg settings = Ok layout ->
  total_volume (zones layout) == pressurized_volume_m3 layout
  /\ pressurized_volume_m3 layout = cfg_pressurized cfg.
Proof.
  unfold build_layout. intros Hb.
  destruct (crew_outside settings (cfg_crew cfg)); [discriminate|].
  destruct (initial_zones cfg) as [zs|] eqn:Hz; [|discriminate].
  cbn [mbind result_bind] in Hb.
  destruct (str_coerce (cfg_habitat_name cfg)); [|discriminate].
  destruct (parse_habitat_type (cfg_habitat_type cfg)); [|discriminate].
  destruct (Qltb 0 (cfg_pressurized cfg) && (0 <=? cfg_docking_ports cfg)%Z);
    [|discriminate].
  injection Hb as <-. cbn [zones pressurized_volume_m3].
  split; [now apply initial_zones_total | reflexivity].
Qed.

Lemma nhv_corrective_pass_total (layout layout' : Layout)
    (settings : ConstraintSettings) (crew : Z) :
  nhv_corrective_pass layout settings crew = Ok layout' ->
  total_volume (zones layout') = pressurized_volume_m3 layout'.
Proof.
  unfold nhv_corrective_pass. intros Hn. cbv zeta in Hn.
  match type of Hn with
  | context [if ?c then Ok 1.1 else ?e] => destruct (if c then Ok 1.1 else e) as [ratio|]
  end; [|discriminate].
  cbn [mbind result_bind] in Hn. injection Hn as <-. reflexivity.
Qed.

(** The layout that the generator returns is one the validator passes, and
    its zone volumes sum to its pressurized volume. *)
Lemma generate_initial_layout_sound (config : option (gmap string pyval))
    (settings : option ConstraintSettings) (layout : Layout) :
  generate_initial_layout config settings = Ok layout ->
  total_volume (zones layout) == pressurized_volume_m3 layout
  /\ exists vr, validate_layout layout settings = Ok vr /\ passed vr = true.
Proof.
  unfold generate_initial_layout. intros Hg. cbv zeta in Hg.
  set (s := default default_settings settings) in *.
  destruct (read_config (default ∅ config)) as [cfg|]; [|discriminate].
  cbn [mbind result_bind] in Hg.
  destruct (build_layout cfg s) as [l0|] eqn:Hb; [|discriminate].
  cbn [mbind result_bind] in Hg.
  destruct (validate_layout l0 (Some s)) as [vr0|] eqn:Hv0; [|discriminate].
  cbn [mbind result_bind] in Hg.
  unfold self_heal, corrective_pass_due in Hg.
  destruct (negb (passed vr0) && nhv_deficit (failed_rules vr0)).
  - destruct (nhv_corrective_pass l0 s (cfg_crew cfg)) as [l1|] eqn:Hn; [|discriminate].
    cbn [mbind result_bind] in Hg.
    destruct (validate_layout l1 (Some s)) as [vr1|] eqn:Hv1; [|discriminate].
    cbn [mbind result_bind] in Hg.
    destruct (passed vr1) eqn:Hp; [|discriminate]. cbn [negb] in Hg.
    injection Hg as <-. split.
    + rewrite (nhv_corrective_pass_total _ _ _ _ Hn). reflexivity.
    + exists vr1. subst s. rewrite validate_layout_default in Hv1. auto.
  - cbn [mbind result_bind] in Hg.
    destruct (passed vr0) eqn:Hp; [|discriminate]. cbn [negb] in Hg.
    injection Hg as <-. split.
    + apply (build_layout_total _ _ _ Hb).
    + exists vr0. subst s. rewrite validate_layout_default in Hv0. auto.
Qed.

(** The generator past its first validation. *)
Lemma generate_stages (config : option (gmap string pyval))
    (settings : option ConstraintSettings) (cfg : gen_config)
    (layout0 : Layout) (vr0 : ValidationResult) :
  read_config (default ∅ config) = Ok cfg ->
  let s := default default_settings settings in
  build_layout cfg s = Ok layout0 ->
  validate_layout layout0 (Some s) = Ok vr0 ->
  generate_initial_layout config settings
  = '(layout, res) ← self_heal layout0 vr0 s (cfg_crew cfg);
    if negb (passed res) then Raise (ValueError (GenerationFailed (failed_rules res)))
    else Ok layout.
Proof.
  intros Hr s Hb Hv. unfold generate_initial_layout. cbv zeta. fold s.
  rewrite Hr. cbn [mbind result_bind]. rewrite Hb. cbn [mbind result_bind].
  rewrite Hv. reflexivity.
Qed.

End GeneratorVolumes.

(** The model host keeps the promises of [random]. *)
Lemma lcg_next_bound (s : Z) : (0 <= lcg_next s < lcg_modulus)%Z.
Proof. unfold lcg_next. apply Z.mod_pos_bound. reflexivity. Qed.

Lemma lcg_random_range (s : Z) : 0 <= fst (lcg_random s) /\ fst (lcg_random s) < 1.
Proof.
  unfold lcg_random. cbn [fst]. pose proof (lcg_next_bound s) as [Hlo Hhi].
  assert (Hm : 0 < inject_Z lcg_modulus) by reflexivity.
  split.
  - apply Qle_shift_div_l; [assumption|]. rewrite Qmult_0_l.
    change 0 with (inject_Z 0). now rewrite <- Zle_Qle.
  - apply Qlt_shift_div_r; [assumption|]. rewrite Qmult_1_l. now rewrite <- Zlt_Qlt.
Qed.

Lemma lcg_below_lt (n : nat) (s : Z) : (0 < n)%nat -> (fst (lcg_below n s) < n)%nat.
Proof.
  intros Hn. unfold lcg_below. cbn [fst].
  pose proof (Z.mod_pos_bound (lcg_next s) (Z.of_nat n) ltac:(lia)). lia.
Qed.

Lemma uniform_affine (a b x : Q) :
  a <= b -> 0 <= x -> x < 1 -> a <= a + (b - a) * x /\ a + (b - a) * x <= b.
Proof.
  intros Hab Hlo Hhi.
  assert (H1 : 0 <= (b - a) * x) by (apply Qmult_le_0_compat; lra).
  assert (H2 : 0 <= (b - a) * (1 - x)) by (apply Qmult_le_0_compat; lra).
  assert (E : (b - a) * (1 - x) == (b - a) - (b - a) * x) by ring.
  rewrite E in H2. clear E. revert H1 H2. generalize ((b - a) * x). intros p H1 H2.
  split; lra.
Qed.

Lemma model_host_laws : HostLaws model_host.
Proof.
  constructor.
  - apply lcg_random_range.
  - intros a b s Hab. cbn [rng_uniform model_host].
    pose proof (lcg_random_range s) as [Hlo Hhi].
    destruct (lcg_random s) as [x s']. cbn [fst] in *. now apply uniform_affine.
  - intros a b s Hab. cbn [rng_randint model_host].
    pose proof (lcg_below_lt (Z.to_nat (b - a + 1)) s ltac:(lia)) as Hk.
    destruct (lcg_below (Z.to_nat (b - a + 1)) s) as [k s']. cbn [fst] in *. lia.
  - apply lcg_below_lt.
  - intros n s Hn. cbn [rng_sample2 model_host].
    pose proof (lcg_below_lt n s ltac:(lia)) as Hi.
    destruct (lcg_below n s) as [i s1]. cbn [fst] in Hi.
    pose proof (lcg_below_lt (n - 1) s1 ltac:(lia)) as Hk.
    destruct (lcg_below (n - 1) s1) as [k s2]. cbn [fst] in *.
    destruct (k <? i)%nat eqn:E.
    + apply Nat.ltb_lt in E. lia.
    + apply Nat.ltb_ge in E. lia.
  - reflexivity.
Qed.

(** ** Scenario A (claim C8) *)

(** The layouts that the generator can build for Scenario A: the zones of the
    tables with volumes [ys]. *)
Definition scenario_shape (ys : list Q) : Layout := {|
  habitat_name := "Helios-Init";
  habitat_type := Inflatable;
  pressurized_volume_m3 := inject_Z 170;
  zones := zip_with set_volume baseline_zones ys;
  systems := initial_systems default_settings;
  shield_equivalent_g_cm2 := fmax 5.5 (5.0 + 0.2 * inject_Z 4);
  isru_ratio := fmin 1.0 (fmax 0.5 0.6);
  docking_ports := 2;
  metadata := {[ "crew" := VInt 4; "duration_days" := VInt 90; "seed" := VInt 7 ]}
|}.

(** Every volume is within a tenth of the share of its zone, and the volumes
    sum to 170 m³. *)
Definition scenario_volumes (ys : list Q) : Prop :=
  Forall2 (fun z y => 0.9 * volume_m3 z <= y) baseline_zones ys /\ fsum ys == 170.

Lemma Qmult_lower (w k a c : Q) :
  0 <= a -> 0 <= c -> a <= w -> c <= k -> a * c <= w * k.
Proof.
  intros Ha Hc Hw Hk.
  apply Qle_trans with (w * c).
  - apply Qmult_le_compat_r; assumption.
  - rewrite !(Qmult_comm w). apply Qmult_le_compat_r; [assumption | lra].
Qed.

Lemma fmax_upper (a b u : Q) : a <= u -> b <= u -> fmax a b <= u.
Proof. intros Ha Hb. destruct (fmax_cases a b) as [-> | ->]; assumption. Qed.

Section ScenarioA.
Context {H : Host} (laws : HostLaws H).

Lemma read_scenario_config :
  read_config scenario_config
  = Ok {| cfg_crew := 4; cfg_duration := 90; cfg_habitat_type := VStr "Inflatable";
          cfg_pressurized := inject_Z 170; cfg_isru_target := 0.6;
          cfg_docking_ports := 2; cfg_seed := 7;
          cfg_habitat_name := VStr "Helios-Init" |}.
Proof. vm_compute. reflexivity. Qed.

(** The draws of the loop that tweaks the volumes. *)
Fixpoint jitter_draws (n : nat) (r : rng) : list Q :=
  match n with
  | O => []
  | S n' => fst (rng_uniform (-0.05) 0.05 r)
            :: jitter_draws n' (snd (rng_uniform (-0.05) 0.05 r))
  end.

Lemma jitter_zones_draws (zs : list Zone) (r : rng) :
  fst (jitter_zones zs r)
  = zip_with (fun z j => set_volume z (fmax (volume_m3 z * (1 + j)) 5.0))
             zs (jitter_draws (length zs) r).
Proof.
  revert r. induction zs as [|z zs IH]; intros r; cbn [jitter_zones length jitter_draws].
  - reflexivity.
  - destruct (rng_uniform (-0.05) 0.05 r) as [j r1]. cbn [fst snd].
    specialize (IH r1). destruct (jitter_zones zs r1) as [rest r2]. cbn [fst] in *.
    cbn [zip_with]. now rewrite IH.
Qed.

Lemma jitter_draws_range (n : nat) (r : rng) :
  Forall (fun j => -0.05 <= j /\ j <= 0.05) (jitter_draws n r)
  /\ length (jitter_draws n r) = n.
Proof.
  revert r. induction n as [|n IH]; intros r; cbn [jitter_draws].
  - split; [constructor | reflexivity].
  - destruct (IH (snd (rng_uniform (-0.05) 0.05 r))) as [IH1 IH2]. split.
    + constructor; [|assumption]. apply (uniform_range H laws). lra.
    + cbn [length]. now rewrite IH2.
Qed.

Lemma scenario_initial_zones :
  exists ys, scenario_volumes ys
    /\ initial_zones {| cfg_crew := 4; cfg_duration := 90;
                        cfg_habitat_type := VStr "Inflatable";
                        cfg_pressurized := inject_Z 170; cfg_isru_target := 0.6;
                        cfg_docking_ports := 2; cfg_seed := 7;
                        cfg_habitat_name := VStr "Helios-Init" |}
       = Ok (zip_with set_volume baseline_zones ys).
Proof.
  unfold initial_zones. cbn [cfg_pressurized cfg_crew cfg_seed].
  assert (Hm : make_zones (inject_Z 170) 4 ZONE_TABLES = Ok baseline_zones)
    by (vm_compute; reflexivity).
  rewrite Hm. cbn [mbind result_bind].
  rewrite jitter_zones_draws.
  destruct (jitter_draws_range (length baseline_zones) (Random 7)) as [Hr Hl].
  change (length baseline_zones) with 9%nat in *.
  destruct (jitter_draws 9 (Random 7)) as [|j1 [|j2 [|j3 [|j4 [|j5 [|j6 [|j7 [|j8 [|j9 [|]]]]]]]]]];
    try discriminate Hl. clear Hl.
  repeat match goal with
         | Hf : Forall _ (_ :: _) |- _ => inversion Hf; subst; clear Hf
         | Hf : Forall _ [] |- _ => clear Hf
         | Hc : _ /\ _ |- _ => destruct Hc
         end.
  let bz := eval vm_compute in baseline_zones in change baseline_zones with bz.
  unfold renormalize, total_volume.
  cbn [zip_with map set_volume volume_m3].
  repeat match goal with
         | |- context [fmax (?c * (1 + ?j)) 5.0] =>
             let w := fresh "w" in
             pose proof (proj1 (fmax_spec (c * (1 + j)) 5.0));
             pose proof (fmax_upper (c * (1 + j)) 5.0 (c * 1.05) ltac:(lra) ltac:(lra));
             set (w := fmax (c * (1 + j)) 5.0) in *
         end.
  set (total := fsum [w; w0; w1; w2; w3; w4; w5; w6; w7]).
  assert (Ht : total == w + w0 + w1 + w2 + w3 + w4 + w5 + w6 + w7)
    by (unfold total, fsum; cbn [fold_left]; ring).
  assert (Hpos : 0 < total) by lra.
  assert (Hz : Qeq_bool total 0 = false).
  { apply not_true_iff_false. intros E. apply Qeq_bool_eq in E. lra. }
  rewrite Hz. set (k := inject_Z 170 / total).
  assert (Hk : 0.95 <= k).
  { apply Qle_shift_div_l; [assumption|]. change (inject_Z 170) with 170. lra. }
  assert (Hkt : k * total == 170).
  { unfold k. change (inject_Z 170) with 170. field. lra. }
  exists [w * k; w0 * k; w1 * k; w2 * k; w3 * k; w4 * k; w5 * k; w6 * k; w7 * k].
  split; [|reflexivity]. split.
  - let bz := eval vm_compute in baseline_zones in change baseline_zones with bz.
    repeat constructor; cbn [volume_m3];
      match goal with
      | |- 0.9 * ?c <= ?x * k =>
          pose proof (Qmult_lower x k (0.95 * c) 0.95
                        ltac:(lra) ltac:(lra) ltac:(lra) Hk); lra
      end.
  - unfold fsum. cbn [fold_left]. rewrite <- Hkt, Ht. ring.
Qed.
End ScenarioA.

(** ** When the validator returns *)

Lemma check_pairs_returns (g : graph) (pairs : list (list string)) (pf : list string) :
  pair_flags g pairs = Ok pf ->
  forall c, exists c', fold_left (check_pair g) pairs (Ok c) = Ok c'.
Proof.
  revert pf. induction pairs as [|p pairs IH]; intros pf Hpf c; cbn [fold_left].
  - eauto.
  - cbn [pair_flags] in Hpf.
    assert (Hstep : check_pair g (Ok c) p =
              '(a, b) ← unpack2 p;
              if graph_mem g a && in_strs b (graph_get g a) then Ok c
              else Ok (fail (pair_rule_id a b)
                         (Msg "Critical adjacency missing between {a} and {b}."
                              [VStr a; VStr b]) c)) by reflexivity.
    rewrite Hstep. clear Hstep.
    destruct (unpack2 p) as [[a b]|]; [|discriminate]. cbn [mbind result_bind] in *.
    destruct (pair_flags g pairs) as [fl|]; [|discriminate].
    destruct (graph_mem g a && in_strs b (graph_get g a)); eapply IH; reflexivity.
Qed.

Section ValidatorReturns.
Context {H : Host}.

(** The validator raises only when one of the three integers it reads does
    not convert, or when an adjacency pair has not two items. *)
Lemma validate_layout_returns (layout : Layout) (settings : option ConstraintSettings)
    (crew duration autonomy : Z) (pf : list string) :
  _crew layout = Ok crew ->
  _duration layout = Ok duration ->
  py_int (dict_get (power (systems layout)) "autonomy_days" (VInt 0)) = Ok autonomy ->
  pair_flags (_build_adjacency layout)
             (adjacency_pairs (default default_settings settings)) = Ok pf ->
  exists vr, validate_layout layout settings = Ok vr.
Proof.
  intros Hc Hd Ha Hp. unfold validate_layout. cbv zeta.
  rewrite Hc, Hd. cbn [mbind result_bind]. rewrite Ha. cbn [mbind result_bind].
  match goal with
  | |- context [fold_left (check_pair ?g) ?ps (Ok ?c0)] =>
      destruct (check_pairs_returns g ps pf Hp c0) as [c1 ->]
  end.
  cbn [mbind result_bind]. eauto.
Qed.

End ValidatorReturns.

Section ScenarioAFeasible.
Context {H : Host}.

Lemma scenario_shape_feasible (ys : list Q) :
  scenario_volumes ys ->
  exists vr, validate_layout (scenario_shape ys) None = Ok vr /\ passed vr = true.
Proof.
  intros [Hlow Hsum].
  pose proof (Forall2_length _ _ _ Hlow) as Hlen. symmetry in Hlen.
  change (length baseline_zones) with 9%nat in Hlen.
  destruct ys as [|y1 [|y2 [|y3 [|y4 [|y5 [|y6 [|y7 [|y8 [|y9 [|]]]]]]]]]];
    try discriminate Hlen. clear Hlen.
  revert Hlow.
  let bz := eval vm_compute in baseline_zones in change baseline_zones with bz.
  intros Hlow.
  repeat match goal with
         | Hf : Forall2 _ (_ :: _) (_ :: _) |- _ => inversion Hf; subst; clear Hf
         | Hf : Forall2 _ [] [] |- _ => clear Hf
         end.
  cbn [volume_m3] in *.
  unfold fsum in Hsum. cbn [fold_left] in Hsum.
  set (l := scenario_shape [y1; y2; y3; y4; y5; y6; y7; y8; y9]).
  assert (Hnhv : _nhv l == y1 * 0.6 + y2 * 0.85 + y3 * 0.8 + y4 * 0.85 + y5 * 0.9
                          + y6 * 0.8 + y7 * 0.75 + y8 * 0.7 + y9 * 0.85).
  { change (_nhv l) with (fsum [y1 * 0.6; y2 * 0.85; y3 * 0.8; y4 * 0.85; y5 * 0.9;
                                y6 * 0.8; y7 * 0.75; y8 * 0.7; y9 * 0.85]).
    unfold fsum. cbn [fold_left]. ring. }
  assert (Hc : _crew l = Ok 4%Z) by (vm_compute; reflexivity).
  assert (Hd : _duration l = Ok 90%Z) by (vm_compute; reflexivity).
  assert (Ha : py_int (dict_get (power (systems l)) "autonomy_days" (VInt 0)) = Ok 14%Z)
    by (vm_compute; reflexivity).
  assert (Hp : pair_flags (_build_adjacency l)
                 (adjacency_pairs (default default_settings None)) = Ok [])
    by (vm_compute; reflexivity).
  destruct (validate_layout_returns l None _ _ _ _ Hc Hd Ha Hp) as [vr Hv].
  exists vr. split; [assumption|].
  destruct (validate_layout_failed_rules _ _ _ Hv)
    as (crew & duration & autonomy & pf & Hc' & Hd' & Ha' & Hp' & Hf & Hpass).
  rewrite Hc in Hc'. injection Hc' as <-.
  rewrite Hd in Hd'. injection Hd' as <-.
  rewrite Ha in Ha'. injection Ha' as <-.
  rewrite Hp in Hp'. injection Hp' as <-.
  rewrite Hpass. apply bool_decide_eq_true. rewrite Hf.
  assert (Hn1 : Qltb (_nhv l) (inject_Z 4 * min_nhv_per_person default_settings) = false).
  { apply Qltb_ge. rewrite Hnhv. cbn [min_nhv_per_person default_settings].
    change (inject_Z 4) with 4. lra. }
  assert (Hn2 : Qltb (nhv_efficiency_of l) (min_nhv_efficiency default_settings) = false).
  { apply Qltb_ge. unfold nhv_efficiency_of.
    change (pressurized_volume_m3 l) with 170.
    change (Qeq_bool 170 0) with false. cbv iota.
    rewrite Hnhv. cbn [min_nhv_efficiency default_settings].
    apply Qle_shift_div_l; [reflexivity | lra]. }
  unfold static_flags. cbn [default]. rewrite Hn1, Hn2.
  vm_compute. reflexivity.
Qed.

(** The generator on the configuration of Scenario A, whatever the draws:
    the layout it returns has volumes that sum to 170 m³, and the validator
    passes it. *)
Lemma scenario_A (laws : HostLaws H) :
  exists layout vr,
    generate_initial_layout (Some scenario_config) None = Ok layout
    /\ total_volume (zones layout) == 170
    /\ validate_layout layout None = Ok vr /\ passed vr = true.
Proof.
  destruct (scenario_initial_zones laws) as (ys & Hys & Hz).
  destruct (scenario_shape_feasible ys Hys) as (vr & Hv & Hp).
  exists (scenario_shape ys), vr.
  assert (Hb : build_layout
                 {| cfg_crew := 4; cfg_duration := 90;
                    cfg_habitat_type := VStr "Inflatable";
                    cfg_pressurized := inject_Z 170; cfg_isru_target := 0.6;
                    cfg_docking_ports := 2; cfg_seed := 7;
                    cfg_habitat_name := VStr "Helios-Init" |} default_settings
               = Ok (scenario_shape ys)).
  { unfold build_layout. rewrite Hz. cbn [cfg_crew cfg_habitat_name cfg_habitat_type
      cfg_pressurized cfg_docking_ports cfg_isru_target cfg_duration cfg_seed
      mbind result_bind].
    rewrite (coerce_str H laws). reflexivity. }
  assert (Hg : generate_initial_layout (Some scenario_config) None
               = Ok (scenario_shape ys)).
  { pose proof Hv as Hv'.
    rewrite <- (validate_layout_default H (scenario_shape ys) None) in Hv'.
    rewrite (generate_stages (Some scenario_config) None _ (scenario_shape ys) vr
               read_scenario_config Hb Hv').
    unfold self_heal, corrective_pass_due. rewrite Hp.
    cbn [negb andb mbind result_bind]. rewrite Hp. reflexivity. }
  split; [exact Hg|]. split; [|auto].
  destruct (generate_initial_layout_sound _ _ _ Hg) as [Ht _].
  rewrite Ht. reflexivity.
Qed.

End ScenarioAFeasible.

(** Claim C8.  The renormalisation closes the volumes on the configured
    total: the zones of the layout that the generator builds sum to the
    pressurized volume of the configuration, which is that of the layout.  The
    zone volumes of every layout that the generator returns sum to the layout's
    pressurized volume.  On a host that keeps the promises of [random], the
    generator returns a layout for the configuration of Scenario A, whose
    volumes sum to 170 m³ and which the validator passes. *)
Theorem generate_closure (H : Host) :
  (forall cfg settings layout,
      build_layout cfg settings = Ok layout ->
      total_volume (zones layout) == cfg_pressurized cfg
      /\ pressurized_volume_m3 layout = cfg_pressurized cfg)
  /\ (forall config settings layout,
        generate_initial_layout config settings = Ok layout ->
        total_volume (zones layout) == pressurized_volume_m3 layout)
  /\ (HostLaws H ->
      exists layout vr,
        generate_initial_layout (Some scenario_config) None = Ok layout
        /\ total_volume (zones layout) == 170
        /\ validate_layout layout None = Ok vr /\ passed vr = true).
Proof.
  split; [|split].
  - intros cfg settings layout Hb.
    destruct (build_layout_total _ _ _ Hb) as [Ht Hp]. rewrite <- Hp. auto.
  - intros config settings layout Hg.
    apply (generate_initial_layout_sound _ _ _ Hg).
  - apply scenario_A.
Qed.

(** Claim C8 on the model host. *)
Lemma generate_closure_witness :
  HostLaws model_host
  /\ exists layout vr,
       generate_initial_layout (H:=model_host) (Some scenario_config) None = Ok layout
       /\ total_volume (zones layout) == 170
       /\ validate_layout (H:=model_host) layout None = Ok vr /\ passed vr = true.
Proof.
  split; [exact model_host_laws|].
  exact (proj2 (proj2 (generate_closure model_host)) model_host_laws).
Defined.

(** ** The errors of the generator (claims C3 and C4) *)

Lemma py_int_raises (H : Host) (v : pyval) (e : exn) :
  py_int v = Raise e -> e = TypeError \/ e = ValueError InvalidLiteral.
Proof.
  destruct v; cbn; try discriminate.
  - intros E. injection E as <-. now left.
  - destruct (int_of_str s); [discriminate|]. intros E. injection E as <-. now right.
Qed.

Lemma check_pairs_raises (g : graph) (pairs : list (list string)) (r : result checks)
    (e : exn) :
  fold_left (check_pair g) pairs r = Raise e ->
  r = Raise e \/ e = ValueError Unpack.
Proof.
  revert r. induction pairs as [|p pairs IH]; intros r Hf; cbn [fold_left] in Hf.
  - now left.
  - destruct (IH _ Hf) as [Hr | Hr]; [|now right].
    destruct r as [c|e']; [|left; exact Hr].
    right. unfold check_pair in Hr. cbn [mbind result_bind] in Hr.
    destruct p as [|a [|b [|]]]; cbn in Hr; try (injection Hr as <-; reflexivity).
    destruct (graph_mem g a && in_strs b (graph_get g a)); discriminate.
Qed.

Section GeneratorErrors.
Context {H : Host}.

(** What the validator can raise. *)
Lemma validate_layout_raises (layout : Layout) (settings : option ConstraintSettings)
    (e : exn) :
  validate_layout layout settings = Raise e ->
  e = TypeError \/ e = ValueError InvalidLiteral \/ e = ValueError Unpack.
Proof.
  unfold validate_layout. cbv zeta. intros Hv.
  destruct (_crew layout) as [crew|e1] eqn:Hc.
  2:{ cbn in Hv. injection Hv as <-. apply py_int_raises in Hc. tauto. }
  destruct (_duration layout) as [duration|e1] eqn:Hd.
  2:{ cbn in Hv. injection Hv as <-. apply py_int_raises in Hd. tauto. }
  cbn [mbind result_bind] in Hv.
  destruct (py_int (dict_get (power (systems layout)) "autonomy_days" (VInt 0)))
    as [autonomy|e1] eqn:Ha.
  2:{ cbn in Hv. injection Hv as <-. apply py_int_raises in Ha. tauto. }
  cbn [mbind result_bind] in Hv.
  match type of Hv with
  | context [fold_left (check_pair ?g) ?ps (Ok ?c0)] =>
      destruct (fold_left (check_pair g) ps (Ok c0)) as [c1|e1] eqn:Hp
  end; cbn [mbind result_bind] in Hv; [discriminate|].
  injection Hv as <-. apply check_pairs_raises in Hp.
  destruct Hp as [Hp|Hp]; [discriminate | tauto].
Qed.

(** The validator flags "duration_range" exactly when the duration it reads
    lies outside the range. *)
Lemma duration_range_flagged (layout : Layout) (settings : option ConstraintSettings)
    (vr : ValidationResult) (duration : Z) :
  validate_layout layout settings = Ok vr ->
  _duration layout = Ok duration ->
  let s := default default_settings settings in
  negb ((min_duration_days s <=? duration)%Z && (duration <=? max_duration_days s)%Z)
  = true ->
  In "duration_range" (failed_rules vr) /\ passed vr = false.
Proof.
  intros Hv Hd s Hout.
  destruct (validate_layout_failed_rules _ _ _ Hv)
    as (crew & duration' & autonomy & pf & _ & Hd' & _ & _ & Hf & Hp).
  rewrite Hd in Hd'. injection Hd' as <-.
  assert (Hin : In "duration_range" (failed_rules vr)).
  { rewrite Hf. apply in_or_app. left. unfold static_flags.
    apply in_or_app. right. apply in_or_app. left.
    apply In_flag. split; [exact Hout | reflexivity]. }
  split; [assumption|].
  rewrite Hp. apply bool_decide_eq_false. intros Hnil. rewrite Hnil in Hin. destruct Hin.
Qed.

Lemma build_layout_duration (cfg : gen_config) (settings : ConstraintSettings)
    (layout : Layout) :
  build_layout cfg settings = Ok layout -> _duration layout = Ok (cfg_duration cfg).
Proof.
  unfold build_layout. intros Hb.
  destruct (crew_outside settings (cfg_crew cfg)); [discriminate|].
  destruct (initial_zones cfg) as [zs|]; [|discriminate].
  cbn [mbind result_bind] in Hb.
  destruct (str_coerce (cfg_habitat_name cfg)); [|discriminate].
  destruct (parse_habitat_type (cfg_habitat_type cfg)); [|discriminate].
  destruct (Qltb 0 (cfg_pressurized cfg) && (0 <=? cfg_docking_ports cfg)%Z);
    [|discriminate].
  injection Hb as <-. reflexivity.
Qed.

Lemma build_layout_raises (cfg : gen_config) (settings : ConstraintSettings) (e : exn) :
  build_layout cfg settings = Raise e ->
  crew_outside settings (cfg_crew cfg) = false ->
  e = ValidationError.
Proof.
  unfold build_layout. intros Hb Hc. rewrite Hc in Hb.
  unfold initial_zones in Hb.
  destruct (make_zones (cfg_pressurized cfg) (cfg_crew cfg) ZONE_TABLES) as [zs|e'] eqn:Hm.
  - cbn [mbind result_bind] in Hb.
    destruct (str_coerce (cfg_habitat_name cfg));
      [|injection Hb as <-; reflexivity].
    destruct (parse_habitat_type (cfg_habitat_type cfg));
      [|injection Hb as <-; reflexivity].
    destruct (Qltb 0 (cfg_pressurized cfg) && (0 <=? cfg_docking_ports cfg)%Z);
      [discriminate | injection Hb as <-; reflexivity].
  - cbn [mbind result_bind] in Hb. injection Hb as <-.
    clear Hc. revert e' Hm. generalize ZONE_TABLES.
    induction l as [|d ds IH]; intros e' Hm; cbn [make_zones] in Hm; [discriminate|].
    unfold make_zone in Hm at 1. cbv zeta in Hm.
    match type of Hm with
    | context [if Qltb 0 ?v then _ else _] => destruct (Qltb 0 v)
    end; cbn [mbind result_bind] in Hm.
    + destruct (make_zones (cfg_pressurized cfg) (cfg_crew cfg) ds) as [zs|e''] eqn:Hr;
        cbn [mbind result_bind] in Hm; [discriminate|].
      injection Hm as <-. now apply IH.
    + now injection Hm as <-.
Qed.

End GeneratorErrors.

(** The range test of the duration, which only the validator makes. *)
Definition duration_outside (settings : ConstraintSettings) (duration : Z) : bool :=
  negb ((min_duration_days settings <=? duration)%Z
        && (duration <=? max_duration_days settings)%Z).

(** Claim C3 as the specification words it: a crew or a duration outside its
    range makes the generator raise the configuration error. *)
Definition config_error_on_range (H : Host) : Prop :=
  forall config settings cfg,
    read_config (default ∅ config) = Ok cfg ->
    let s := default default_settings settings in
    crew_outside s (cfg_crew cfg) = true \/ duration_outside s (cfg_duration cfg) = true ->
    generate_initial_layout config settings = Raise (ValueError ConfigCrewOutOfRange).

(** Scenario A with a mission of 500 days. *)
Definition long_mission_config : gmap string pyval :=
  <["duration_days" := VInt 500]> scenario_config.

(** Scenario A with a crew of nine. *)
Definition large_crew_config : gmap string pyval :=
  <["crew" := VInt 9]> scenario_config.

Section RangeErrors.
Context {H : Host}.

Lemma nhv_corrective_pass_raises (layout : Layout) (settings : ConstraintSettings)
    (crew : Z) (e : exn) :
  nhv_corrective_pass layout settings crew = Raise e -> e = ValueError MathDomain.
Proof.
  unfold nhv_corrective_pass. cbv zeta. intros Hn.
  match type of Hn with
  | context [if ?c then Ok 1.1 else py_sqrt ?x] =>
      destruct c; cbn [mbind result_bind] in Hn; [discriminate|];
      unfold py_sqrt in Hn; destruct (Qltb x 0)
  end; cbn [mbind result_bind] in Hn; [|discriminate].
  now injection Hn as <-.
Qed.

Lemma nhv_corrective_pass_metadata (layout layout' : Layout)
    (settings : ConstraintSettings) (crew : Z) :
  nhv_corrective_pass layout settings crew = Ok layout' ->
  metadata layout' = metadata layout.
Proof.
  unfold nhv_corrective_pass. cbv zeta. intros Hn.
  match type of Hn with
  | context [if ?c then Ok 1.1 else ?e] => destruct (if c then Ok 1.1 else e)
  end; cbn [mbind result_bind] in Hn; [|discriminate].
  now injection Hn as <-.
Qed.

Lemma generate_duration_outside (config : option (gmap string pyval))
    (settings : option ConstraintSettings) (cfg : gen_config) :
  read_config (default ∅ config) = Ok cfg ->
  let s := default default_settings settings in
  crew_outside s (cfg_crew cfg) = false ->
  duration_outside s (cfg_duration cfg) = true ->
  exists e, generate_initial_layout config settings = Raise e
    /\ e <> ValueError ConfigCrewOutOfRange
    /\ forall rules, e = ValueError (GenerationFailed rules) -> In "duration_range" rules.
Proof.
  intros Hr s Hc Hd. unfold generate_initial_layout. cbv zeta. fold s.
  rewrite Hr. cbn [mbind result_bind].
  destruct (build_layout cfg s) as [l0|e] eqn:Hb; cbn [mbind result_bind].
  2:{ exists e. apply build_layout_raises in Hb; [|assumption]. subst e.
      repeat split; intros; discriminate. }
  pose proof (build_layout_duration _ _ _ Hb) as Hd0.
  destruct (validate_layout l0 (Some s)) as [vr0|e] eqn:Hv0; cbn [mbind result_bind].
  2:{ exists e. apply validate_layout_raises in Hv0.
      destruct Hv0 as [-> | [-> | ->]]; repeat split; intros; discriminate. }
  destruct (duration_range_flagged _ _ _ _ Hv0 Hd0 Hd) as [Hin0 Hp0].
  unfold self_heal, corrective_pass_due. rewrite Hp0. cbn [negb andb].
  destruct (nhv_deficit (failed_rules vr0)); cbn [mbind result_bind].
  - destruct (nhv_corrective_pass l0 s (cfg_crew cfg)) as [l1|e] eqn:Hn;
      cbn [mbind result_bind].
    2:{ exists e. apply nhv_corrective_pass_raises in Hn. subst e.
        repeat split; intros; discriminate. }
    assert (Hd1 : _duration l1 = Ok (cfg_duration cfg)).
    { unfold _duration in *. now rewrite (nhv_corrective_pass_metadata _ _ _ _ Hn). }
    destruct (validate_layout l1 (Some s)) as [vr1|e] eqn:Hv1; cbn [mbind result_bind].
    2:{ exists e. apply validate_layout_raises in Hv1.
        destruct Hv1 as [-> | [-> | ->]]; repeat split; intros; discriminate. }
    destruct (duration_range_flagged _ _ _ _ Hv1 Hd1 Hd) as [Hin1 Hp1].
    rewrite Hp1. cbn [negb]. eexists. split; [reflexivity|].
    split; [discriminate|]. intros rules E. now injection E as <-.
  - rewrite Hp0. cbn [negb]. eexists. split; [reflexivity|].
    split; [discriminate|]. intros rules E. now injection E as <-.
Qed.

End RangeErrors.

(** Claim C3, as amended.  A crew outside the range of the settings makes the
    generator raise the configuration error at once, whatever the rest of the
    configuration.  A duration outside its range does not: with the crew in
    range the generator goes on, never returns a layout, never raises the
    configuration error, and when it fails with the generation error,
    "duration_range" is among the rule identifiers that the error carries. *)
Theorem generate_range_errors (H : Host) (config : option (gmap string pyval))
    (settings : option ConstraintSettings) (cfg : gen_config) :
  read_config (default ∅ config) = Ok cfg ->
  let s := default default_settings settings in
  (crew_outside s (cfg_crew cfg) = true ->
   generate_initial_layout config settings = Raise (ValueError ConfigCrewOutOfRange))
  /\ (crew_outside s (cfg_crew cfg) = false ->
      duration_outside s (cfg_duration cfg) = true ->
      exists e, generate_initial_layout config settings = Raise e
        /\ e <> ValueError ConfigCrewOutOfRange
        /\ forall rules, e = ValueError (GenerationFailed rules) ->
                         In "duration_range" rules).
Proof.
  intros Hr s. split.
  - intros Hc. unfold generate_initial_layout. cbv zeta. fold s.
    rewrite Hr. cbn [mbind result_bind]. unfold build_layout. rewrite Hc. reflexivity.
  - intros Hc Hd. now apply (generate_duration_outside config settings cfg).
Qed.

(** Claim C3 on Scenario A with a crew of nine. *)
Lemma generate_range_errors_witness :
  generate_initial_layout (H:=model_host) (Some large_crew_config) None
  = Raise (ValueError ConfigCrewOutOfRange).
Proof.
  eassert (Hr : read_config (H:=model_host) (default ∅ (Some large_crew_config)) = Ok _)
    by (vm_compute; reflexivity).
  apply (proj1 (generate_range_errors model_host (Some large_crew_config) None _ Hr)).
  vm_compute. reflexivity.
Defined.

(** Claim C3 as stated fails: with a mission of 500 days and the crew of
    Scenario A the generator does not raise the configuration error; the
    layout is built and validated, and the error is the generation error. *)
Lemma duration_is_no_config_error : ~ config_error_on_range model_host.
Proof.
  intros Hclaim.
  eassert (Hr : read_config (H:=model_host) (default ∅ (Some long_mission_config)) = Ok _)
    by (vm_compute; reflexivity).
  destruct (generate_duration_outside (Some long_mission_config) None _ Hr eq_refl eq_refl)
    as (e & Hg & Hne & _).
  specialize (Hclaim (Some long_mission_config) None _ Hr (or_intror eq_refl)).
  cbv zeta in Hclaim. rewrite Hg in Hclaim. injection Hclaim as ->. now apply Hne.
Qed.

(** ** The corrective pass (claim C4) *)

(** Claim C4 as the specification words it: the corrective pass is due only
    when every rule that failed the first validation is one of the two rules
    on net habitable volume. *)
Definition heal_only_for_nhv (H : Host) : Prop :=
  forall config settings cfg layout0 vr0,
    read_config (default ∅ config) = Ok cfg ->
    let s := default default_settings settings in
    build_layout cfg s = Ok layout0 ->
    validate_layout layout0 (Some s) = Ok vr0 ->
    corrective_pass_due vr0 = true ->
    forall r, In r (failed_rules vr0) -> r = "nhv_per_crew" \/ r = "nhv_efficiency".

(** Scenario A with a mission of 500 days in 90 m³. *)
Definition cramped_long_config : gmap string pyval :=
  <["pressurized_volume_m3" := VInt 90]> long_mission_config.

(** The zones after the corrective pass: the four boosted zones scaled by
    [ratio], the others as they were. *)
Definition boost_zones (ratio : Q) (zs : list Zone) : list Zone :=
  map (fun z => if in_strs (name z) boosted
                then set_volume z (volume_m3 z * ratio) else z) zs.

Lemma corrective_pass_due_iff (res : ValidationResult) :
  corrective_pass_due res = true
  <-> passed res = false
      /\ (In "nhv_per_crew" (failed_rules res) \/ In "nhv_efficiency" (failed_rules res)).
Proof.
  unfold corrective_pass_due, nhv_deficit.
  rewrite andb_true_iff, negb_true_iff, orb_true_iff, !in_strs_In. reflexivity.
Qed.

Section SelfHeal.
Context {H : Host}.

(** The corrective pass scales the volumes of "CrewQuarters", "GalleyDining",
    "HygieneMedical" and "StormShelter" by the square root of the needed over
    the current net habitable volume, and recomputes the pressurized volume as
    the sum of the zone volumes. *)
Lemma nhv_corrective_pass_spec (layout layout' : Layout)
    (settings : ConstraintSettings) (crew : Z) :
  nhv_corrective_pass layout settings crew = Ok layout' ->
  let needed_nhv := inject_Z crew * min_nhv_per_person settings in
  let current_nhv := fsum (map (fun z => volume_m3 z * usable_ratio z) (zones layout)) in
  exists ratio,
    (if Qeq_bool current_nhv 0 then ratio = 1.1
     else ratio = math_sqrt (needed_nhv / current_nhv))
    /\ zones layout' = boost_zones ratio (zones layout)
    /\ pressurized_volume_m3 layout' = total_volume (zones layout').
Proof.
  unfold nhv_corrective_pass. cbv zeta. intros Hn.
  match type of Hn with
  | context [if ?c then Ok 1.1 else py_sqrt ?x] =>
      destruct c; cbn [mbind result_bind] in Hn;
      [|unfold py_sqrt in Hn; destruct (Qltb x 0); [discriminate|];
        cbn [mbind result_bind] in Hn]
  end; injection Hn as <-; eexists; repeat split.
Qed.

End SelfHeal.

(** Claim C4, as amended.  Let the generator have built a layout and the first
    validation have returned.  The corrective pass is due exactly when that
    validation failed with "nhv_per_crew" or "nhv_efficiency" among its failed
    rules, whatever else failed.  When it is not due, the generator returns
    the layout as built if the validation passed, and otherwise fails with the
    generation error carrying the failed rules of that validation.  When it is
    due, the four zones are scaled and the pressurized volume recomputed, the
    layout is validated once more, and the generator returns the corrected
    layout when that validation passes and otherwise fails with the generation
    error carrying the rules that still fail. *)
Theorem generate_self_heal (H : Host) (config : option (gmap string pyval))
    (settings : option ConstraintSettings) (cfg : gen_config)
    (layout0 : Layout) (vr0 : ValidationResult) :
  read_config (default ∅ config) = Ok cfg ->
  let s := default default_settings settings in
  build_layout cfg s = Ok layout0 ->
  validate_layout layout0 (Some s) = Ok vr0 ->
  (corrective_pass_due vr0 = true
   <-> passed vr0 = false
       /\ (In "nhv_per_crew" (failed_rules vr0) \/ In "nhv_efficiency" (failed_rules vr0)))
  /\ (corrective_pass_due vr0 = false ->
      self_heal layout0 vr0 s (cfg_crew cfg) = Ok (layout0, vr0)
      /\ generate_initial_layout config settings
         = if passed vr0 then Ok layout0
           else Raise (ValueError (GenerationFailed (failed_rules vr0))))
  /\ (corrective_pass_due vr0 = true ->
      forall layout1 vr1,
        nhv_corrective_pass layout0 s (cfg_crew cfg) = Ok layout1 ->
        validate_layout layout1 (Some s) = Ok vr1 ->
        (exists ratio, zones layout1 = boost_zones ratio (zones layout0))
        /\ pressurized_volume_m3 layout1 = total_volume (zones layout1)
        /\ self_heal layout0 vr0 s (cfg_crew cfg) = Ok (layout1, vr1)
        /\ generate_initial_layout config settings
           = if passed vr1 then Ok layout1
             else Raise (ValueError (GenerationFailed (failed_rules vr1)))).
Proof.
  intros Hr s Hb Hv. rewrite (generate_stages config settings cfg layout0 vr0 Hr Hb Hv).
  fold s. split; [apply corrective_pass_due_iff|]. split.
  - intros Hno. unfold self_heal. rewrite Hno. cbn [mbind result_bind].
    split; [reflexivity|]. destruct (passed vr0); reflexivity.
  - intros Hdue layout1 vr1 Hn Hv1.
    destruct (nhv_corrective_pass_spec _ _ _ _ Hn) as (ratio & _ & Hz & Hpv).
    assert (Hs : self_heal layout0 vr0 s (cfg_crew cfg) = Ok (layout1, vr1)).
    { unfold self_heal. rewrite Hdue, Hn. cbn [mbind result_bind].
      rewrite Hv1. reflexivity. }
    rewrite Hs. cbn [mbind result_bind].
    split; [eauto|]. split; [assumption|]. split; [reflexivity|].
    destruct (passed vr1); reflexivity.
Qed.

(** ** What the generator builds *)

Lemma tables_fractions_positive : Forall (fun d => 0 < zd_fraction d) ZONE_TABLES.
Proof. repeat constructor. Qed.

Lemma tables_usable_range :
  Forall (fun d => 0 <= zd_usable d /\ zd_usable d <= 1) ZONE_TABLES.
Proof. repeat constructor; discriminate. Qed.

Lemma make_zone_returns (p : Q) (crew : Z) (d : zone_defaults) :
  0 < p -> 0 < zd_fraction d ->
  exists z, make_zone p crew d = Ok z /\ usable_ratio z = zd_usable d.
Proof.
  intros Hp Hf. unfold make_zone. cbv zeta.
  assert (Hv : 0 < _scale_volumes p (zd_fraction d)).
  { unfold _scale_volumes. cbv zeta. apply Qlt_shift_div_l; [reflexivity|].
    rewrite Qmult_0_l. apply Qmult_lt_0_compat; assumption. }
  match goal with
  | |- context [if Qltb 0 ?v then _ else _] =>
      assert (Hpos : Qltb 0 v = true)
  end.
  { apply Qltb_lt. destruct (in_strs (zd_name d) crew_scaled); [|assumption].
    apply Qmult_lt_0_compat; [assumption|].
    pose proof (proj1 (fmax_spec 1.0 (inject_Z crew / 4.0))). lra. }
  rewrite Hpos. eexists. split; reflexivity.
Qed.

Lemma make_zones_returns (p : Q) (crew : Z) (ds : list zone_defaults) :
  0 < p -> Forall (fun d => 0 < zd_fraction d) ds ->
  exists zs, make_zones p crew ds = Ok zs
    /\ Forall2 (fun d z => usable_ratio z = zd_usable d) ds zs.
Proof.
  intros Hp Hds. induction Hds as [|d ds Hd _ IH]; cbn [make_zones].
  - exists []. split; [reflexivity | constructor].
  - destruct (make_zone_returns p crew d Hp Hd) as (z & -> & Hu).
    destruct IH as (zs & -> & Hzs). cbn [mbind result_bind].
    exists (z :: zs). split; [reflexivity | now constructor].
Qed.

Lemma make_zones_usable (p : Q) (crew : Z) (ds : list zone_defaults) (zs : list Zone) :
  make_zones p crew ds = Ok zs ->
  Forall (fun d => 0 <= zd_usable d /\ zd_usable d <= 1) ds ->
  Forall (fun z => 0 <= usable_ratio z /\ usable_ratio z <= 1) zs.
Proof.
  intros Hm Hds. revert zs Hm.
  induction Hds as [|d ds Hd _ IH]; intros zs Hm; cbn [make_zones] in Hm.
  - injection Hm as <-. constructor.
  - destruct (make_zone p crew d) as [z|] eqn:Hz; [|discriminate].
    cbn [mbind result_bind] in Hm.
    destruct (make_zones p crew ds) as [zs'|]; [|discriminate].
    cbn [mbind result_bind] in Hm. injection Hm as <-.
    constructor; [|now apply IH].
    unfold make_zone in Hz. cbv zeta in Hz.
    match type of Hz with
    | context [if Qltb 0 ?v then _ else _] => destruct (Qltb 0 v)
    end; [|discriminate].
    injection Hz as <-. exact Hd.
Qed.

Section BuiltZones.
Context {H : Host}.

Lemma jitter_zones_usable (P : Q -> Prop) (zs : list Zone) (r : rng) :
  Forall (fun z => P (usable_ratio z)) zs ->
  Forall (fun z => P (usable_ratio z)) (fst (jitter_zones zs r)).
Proof.
  intros Hzs. revert r. induction Hzs as [|z zs Hz _ IH]; intros r; cbn [jitter_zones].
  - constructor.
  - destruct (rng_uniform (-0.05) 0.05 r) as [j r1].
    specialize (IH r1). destruct (jitter_zones zs r1) as [rest r2].
    cbn [fst] in *. now constructor.
Qed.

(** The zones that enter the first validation: volumes that are not negative
    and sum to the configured total, usable ratios between 0 and 1. *)
Lemma initial_zones_facts (cfg : gen_config) (zs : list Zone) :
  initial_zones cfg = Ok zs ->
  0 < cfg_pressurized cfg ->
  Forall (fun z => 0 <= volume_m3 z /\ 0 <= usable_ratio z /\ usable_ratio z <= 1) zs.
Proof.
  unfold initial_zones. intros Hi Hp.
  destruct (make_zones (cfg_pressurized cfg) (cfg_crew cfg) ZONE_TABLES) as [zs0|] eqn:Hm;
    [|discriminate].
  cbn [mbind result_bind] in Hi. injection Hi as <-.
  pose proof (make_zones_usable _ _ _ _ Hm tables_usable_range) as Hu.
  apply (jitter_zones_usable (fun u => 0 <= u /\ u <= 1) _ (Random (cfg_seed cfg))) in Hu.
  destruct (jitter_zones_floor zs0 (Random (cfg_seed cfg))) as [Hfloor Hlen].
  pose proof (total_volume_floor _ Hfloor) as Htot.
  rewrite Hlen, (make_zones_length _ _ _ _ Hm) in Htot.
  change (inject_Z (Z.of_nat (length ZONE_TABLES))) with 9 in Htot.
  unfold renormalize.
  set (js := fst (jitter_zones zs0 (Random (cfg_seed cfg)))) in *.
  destruct (Qeq_bool (total_volume js) 0) eqn:E.
  { apply Qeq_bool_eq in E. lra. }
  assert (Hk : 0 <= cfg_pressurized cfg / total_volume js).
  { apply Qle_shift_div_l; lra. }
  revert Hk. generalize (cfg_pressurized cfg / total_volume js). intros k Hk.
  clear E Htot Hlen. induction js as [|z js IH]; cbn [map]; [constructor|].
  inversion Hfloor; subst. inversion Hu; subst.
  constructor; [|now apply IH].
  cbn [set_volume volume_m3 usable_ratio]. split; [|assumption].
  apply Qmult_le_0_compat; [lra | assumption].
Qed.

(** The net habitable volume is at most the total volume. *)
Lemma nhv_le_total_volume (layout : Layout) :
  Forall (fun z => 0 <= volume_m3 z /\ 0 <= usable_ratio z /\ usable_ratio z <= 1)
         (zones layout) ->
  _nhv layout <= total_volume (zones layout).
Proof.
  unfold _nhv. generalize (zones layout). intros zs Hzs.
  induction Hzs as [|z zs (Hv & Hu0 & Hu1) _ IH].
  - unfold total_volume, fsum. cbn. lra.
  - rewrite total_volume_cons, filter_cons.
    assert (Hvu : volume_m3 z * usable_ratio z <= volume_m3 z).
    { rewrite <- (Qmult_1_r (volume_m3 z)) at 2.
      rewrite !(Qmult_comm (volume_m3 z)). apply Qmult_le_compat_r; assumption. }
    destruct (decide (is_pressurized z = true)).
    + cbn [map]. rewrite fsum_cons. lra.
    + lra.
Qed.

Lemma build_layout_returns (cfg : gen_config) (settings : ConstraintSettings)
    (hname : string) (htype : HabitatType) :
  crew_outside settings (cfg_crew cfg) = false ->
  0 < cfg_pressurized cfg ->
  (0 <= cfg_docking_ports cfg)%Z ->
  str_coerce (cfg_habitat_name cfg) = Some hname ->
  parse_habitat_type (cfg_habitat_type cfg) = Some htype ->
  exists layout, build_layout cfg settings = Ok layout.
Proof.
  intros Hc Hp Hd Hn Ht. unfold build_layout, initial_zones. rewrite Hc.
  destruct (make_zones_returns (cfg_pressurized cfg) (cfg_crew cfg) ZONE_TABLES Hp
              tables_fractions_positive) as (zs & -> & _).
  cbn [mbind result_bind]. rewrite Hn, Ht.
  apply Qltb_lt in Hp. rewrite Hp. apply Z.leb_le in Hd. rewrite Hd.
  cbn [andb]. eauto.
Qed.

(** The layout that the generator builds has the crew, the duration and the
    power autonomy as integers: the validator returns on it as soon as the
    adjacency pairs of the settings have two items each. *)
Lemma build_layout_validates (cfg : gen_config) (s s' : ConstraintSettings)
    (layout : Layout) (pf : list string) :
  build_layout cfg s = Ok layout ->
  pair_flags (_build_adjacency layout) (adjacency_pairs s') = Ok pf ->
  exists vr, validate_layout layout (Some s') = Ok vr
    /\ _crew layout = Ok (cfg_crew cfg)
    /\ pressurized_volume_m3 layout = cfg_pressurized cfg
    /\ Forall (fun z => 0 < cfg_pressurized cfg ->
                 0 <= volume_m3 z /\ 0 <= usable_ratio z /\ usable_ratio z <= 1)
              (zones layout).
Proof.
  unfold build_layout. intros Hb Hpf.
  destruct (crew_outside s (cfg_crew cfg)); [discriminate|].
  destruct (initial_zones cfg) as [zs|] eqn:Hz; [|discriminate].
  cbn [mbind result_bind] in Hb.
  destruct (str_coerce (cfg_habitat_name cfg)); [|discriminate].
  destruct (parse_habitat_type (cfg_habitat_type cfg)); [|discriminate].
  destruct (Qltb 0 (cfg_pressurized cfg) && (0 <=? cfg_docking_ports cfg)%Z);
    [|discriminate].
  injection Hb as <-.
  match goal with
  | |- exists vr, validate_layout ?l _ = _ /\ _ =>
      destruct (validate_layout_returns l (Some s') (cfg_crew cfg) (cfg_duration cfg)
                  (Z.max (min_power_autonomy_days s) 14) pf
                  eq_refl eq_refl eq_refl Hpf) as [vr Hv]
  end.
  exists vr. split; [exact Hv|]. split; [reflexivity|]. split; [reflexivity|].
  cbn [zones]. apply Forall_forall. intros z Hzin Hp.
  pose proof (initial_zones_facts cfg zs Hz Hp) as Hf.
  rewrite Forall_forall in Hf. now apply Hf.
Qed.

End BuiltZones.

Lemma pair_flags_returns (g : graph) (pairs : list (list string)) :
  Forall (fun p => length p = 2%nat) pairs -> exists pf, pair_flags g pairs = Ok pf.
Proof.
  induction 1 as [|p pairs Hp _ [pf IH]]; cbn [pair_flags].
  - eauto.
  - destruct p as [|a [|b [|]]]; try discriminate Hp.
    cbn [unpack2 mbind result_bind]. rewrite IH. cbn [mbind result_bind]. eauto.
Qed.

(** The first stages of the generator on Scenario A with 500 days in 90 m³:
    the layout is built, the first validation fails on "duration_range" and on
    "nhv_per_crew", and the corrective pass is due. *)
Lemma cramped_long_stages :
  exists cfg layout0 vr0,
    read_config (H:=model_host) (default ∅ (Some cramped_long_config)) = Ok cfg
    /\ build_layout (H:=model_host) cfg default_settings = Ok layout0
    /\ validate_layout (H:=model_host) layout0 (Some default_settings) = Ok vr0
    /\ corrective_pass_due vr0 = true
    /\ In "duration_range" (failed_rules vr0)
    /\ In "nhv_per_crew" (failed_rules vr0).
Proof.
  eassert (Hr : read_config (H:=model_host) (default ∅ (Some cramped_long_config)) = Ok _)
    by (vm_compute; reflexivity).
  match type of Hr with _ = Ok ?c => set (cfg := c) in * end.
  destruct (build_layout_returns (H:=model_host) cfg default_settings
              "Helios-Init" Inflatable eq_refl eq_refl ltac:(discriminate) eq_refl eq_refl)
    as [l0 Hb].
  destruct (pair_flags_returns (_build_adjacency l0) (adjacency_pairs default_settings))
    as [pf Hpf]; [repeat constructor|].
  destruct (build_layout_validates cfg default_settings default_settings l0 pf Hb Hpf)
    as (vr0 & Hv & Hcrew & Hpv & Hz).
  exists cfg, l0, vr0. split; [exact Hr|]. split; [exact Hb|]. split; [exact Hv|].
  destruct (duration_range_flagged l0 (Some default_settings) vr0 500 Hv
              (build_layout_duration _ _ _ Hb) eq_refl) as [Hdur Hfail].
  assert (Hnhv : In "nhv_per_crew" (failed_rules vr0)).
  { destruct (validate_layout_failed_rules _ _ _ Hv)
      as (crew & duration & autonomy & pf' & Hc & _ & _ & _ & Hf & _).
    rewrite Hcrew in Hc. injection Hc as <-.
    rewrite Hf. apply in_or_app. left. unfold static_flags.
    do 3 (apply in_or_app; right). apply in_or_app. left.
    apply In_flag. split; [|reflexivity]. apply Qltb_lt.
    assert (Hfacts : Forall (fun z => 0 <= volume_m3 z /\ 0 <= usable_ratio z
                                      /\ usable_ratio z <= 1) (zones l0)).
    { eapply Forall_impl; [exact Hz|]. intros z Hzp. apply Hzp. reflexivity. }
    pose proof (nhv_le_total_volume l0 Hfacts) as Hle.
    destruct (build_layout_total _ _ _ Hb) as [Htot _]. rewrite Htot, Hpv in Hle.
    change (cfg_pressurized cfg) with 90 in Hle.
    change (min_nhv_per_person (default default_settings (Some default_settings))) with 25.0.
    change (inject_Z 4) with 4. lra. }
  split; [|auto]. apply corrective_pass_due_iff. auto.
Qed.

(** Claim C4 on that configuration: the pass is due although "duration_range"
    failed too, and the generator fails with the rules of the second
    validation whenever the pass and that validation return. *)
Lemma generate_self_heal_witness :
  exists cfg layout0 vr0,
    read_config (H:=model_host) (default ∅ (Some cramped_long_config)) = Ok cfg
    /\ build_layout (H:=model_host) cfg default_settings = Ok layout0
    /\ validate_layout (H:=model_host) layout0 (Some default_settings) = Ok vr0
    /\ corrective_pass_due vr0 = true
    /\ forall layout1 vr1,
         nhv_corrective_pass (H:=model_host) layout0 default_settings (cfg_crew cfg)
         = Ok layout1 ->
         validate_layout (H:=model_host) layout1 (Some default_settings) = Ok vr1 ->
         generate_initial_layout (H:=model_host) (Some cramped_long_config) None
         = if passed vr1 then Ok layout1
           else Raise (ValueError (GenerationFailed (failed_rules vr1))).
Proof.
  destruct cramped_long_stages as (cfg & l0 & vr0 & Hr & Hb & Hv & Hdue & _).
  exists cfg, l0, vr0.
  split; [exact Hr|]. split; [exact Hb|]. split; [exact Hv|]. split; [exact Hdue|].
  intros l1 vr1 Hn Hv1.
  apply (proj2 (proj2 (generate_self_heal model_host (Some cramped_long_config) None
                         cfg l0 vr0 Hr Hb Hv)) Hdue l1 vr1 Hn Hv1).
Defined.

(** Claim C4 as stated fails: on that configuration the first validation fails
    on "duration_range" as well as on "nhv_per_crew", and the corrective pass
    is due all the same. *)
Lemma heal_despite_other_failures : ~ heal_only_for_nhv model_host.
Proof.
  intros Hclaim.
  destruct cramped_long_stages as (cfg & l0 & vr0 & Hr & Hb & Hv & Hdue & Hdur & _).
  destruct (Hclaim (Some cramped_long_config) None cfg l0 vr0 Hr Hb Hv Hdue
              "duration_range" Hdur) as [E|E]; discriminate E.
Qed.

(** * Further properties of the validator *)

(** A value that [int()] converts without consulting the host. *)
Definition numeric (v : pyval) : Prop :=
  match v with
  | VBool _ | VInt _ | VFloat _ => True
  | VNone | VStr _ => False
  end.

Lemma py_int_numeric (H : Host) (v : pyval) : numeric v -> exists z, py_int v = Ok z.
Proof. destruct v; cbn; intros Hn; try destruct Hn; eauto. Qed.

Lemma dict_get_numeric (d : gmap string pyval) (key : string) (dflt : pyval) :
  numeric dflt -> (forall v, d !! key = Some v -> numeric v) -> numeric (dict_get d key dflt).
Proof.
  intros Hd Hv. unfold dict_get. destruct (d !! key) as [v|]; [now apply Hv | exact Hd].
Qed.

(** [zone_by_name] finds no zone exactly when no zone has the name. *)
Lemma zone_by_name_None (layout : Layout) (key : string) :
  zone_by_name layout key = None <-> ~ In key (map name (zones layout)).
Proof.
  unfold zone_by_name. generalize (zones layout). intros zs.
  assert (Hgen : forall acc,
            fold_left (fun acc z => if String.eqb (name z) key then Some z else acc) zs acc
            = None <-> acc = None /\ ~ In key (map name zs)).
  { induction zs as [|z zs IH]; intros acc; cbn [fold_left map In].
    - tauto.
    - rewrite IH. destruct (String.eqb (name z) key) eqn:E.
      + apply String.eqb_eq in E. split; [intros [? _]; discriminate | tauto].
      + apply String.eqb_neq in E. tauto. }
  rewrite Hgen. tauto.
Qed.

Lemma zone_by_name_Some (layout : Layout) (key : string) (z : Zone) :
  zone_by_name layout key = Some z -> In z (zones layout) /\ name z = key.
Proof.
  unfold zone_by_name. generalize (zones layout). intros zs.
  assert (Hgen : forall acc,
            fold_left (fun acc z => if String.eqb (name z) key then Some z else acc) zs acc
            = Some z -> acc = Some z \/ (In z zs /\ name z = key)).
  { induction zs as [|z' zs IH]; intros acc Hf; cbn [fold_left] in Hf.
    - now left.
    - destruct (IH _ Hf) as [Hacc | [Hin Hn]].
      + destruct (String.eqb (name z') key) eqn:E.
        * injection Hacc as ->. apply String.eqb_eq in E. right. split; [now left | exact E].
        * now left.
      + right. split; [now right | exact Hn]. }
  intros Hf. destruct (Hgen None Hf) as [Hn | Hr]; [discriminate | exact Hr].
Qed.

(** Where a rule of the graph can appear in the list of failed rules. *)
Lemma In_failed_graph_rule (r : string) (layout : Layout) (s : ConstraintSettings)
    (g : graph) (crew duration autonomy : Z) (pairs : list (list string))
    (pf tail : list string) :
  r = "connectivity" \/ r = "redundant_paths" ->
  pair_flags g pairs = Ok pf ->
  (forall x, In x tail ->
     x = "egress_paths" \/ x = "storm_shelter_access" \/ x = "crew_privacy") ->
  In r (static_flags layout s crew duration autonomy
        ++ connectivity_flags layout g ++ pf ++ tail)
  <-> In r (connectivity_flags layout g).
Proof.
  intros Hr Hpf Htail. rewrite !in_app_iff.
  assert (Hs : In r (static_flags layout s crew duration autonomy) -> False).
  { unfold static_flags. rewrite !in_app_iff, !In_flag.
    destruct Hr as [-> | ->]; intuition discriminate. }
  assert (Hp : In r pf -> False).
  { intros Hp. destruct (In_pair_flags _ _ _ _ Hpf Hp) as (a & b & E).
    destruct (pair_rule_id_head a b) as (rest & E'). rewrite E' in E.
    destruct Hr as [-> | ->]; discriminate E. }
  assert (Ht : In r tail -> False).
  { intros Ht. apply Htail in Ht.
    destruct Hr as [-> | ->]; destruct Ht as [E | [E | E]]; discriminate E. }
  tauto.
Qed.

Lemma tail_rule_names (layout : Layout) (s : ConstraintSettings) (g : graph) (x : string) :
  In x (flag (length (List.filter is_egress (zones layout)) <? 2)%nat "egress_paths"
        ++ shelter_flags layout s g ++ quarters_flags layout s) ->
  x = "egress_paths" \/ x = "storm_shelter_access" \/ x = "crew_privacy".
Proof.
  intros Hx. rewrite !in_app_iff in Hx. destruct Hx as [Hx|[Hx|Hx]].
  - apply In_flag in Hx. left. apply Hx.
  - right. left. eapply In_shelter_flags, Hx.
  - right. right. eapply In_quarters_flags, Hx.
Qed.

(** The redundant-path rule is reported exactly when the connectivity rule is
    not and the cycle search finds no cycle: the two rules never fail
    together. *)
Theorem redundant_paths_iff (H : Host) (layout : Layout)
    (settings : option ConstraintSettings) (vr : ValidationResult) :
  validate_layout layout settings = Ok vr ->
  (In "redundant_paths" (failed_rules vr)
   <-> ~ In "connectivity" (failed_rules vr)
       /\ _has_cycle (_build_adjacency layout) = false)
  /\ (In "connectivity" (failed_rules vr)
      <-> match _build_adjacency layout with
          | [] => True
          | (start, _) :: _ =>
              size (reachable_from (_build_adjacency layout) start)
              <> size (list_to_set (map name (zones layout)) : gset string)
          end).
Proof.
  intros Hv.
  destruct (validate_layout_failed_rules _ _ _ Hv)
    as (crew & duration & autonomy & pf & _ & _ & _ & Hpf & Hf & _).
  rewrite Hf.
  rewrite (In_failed_graph_rule "connectivity" _ _ _ _ _ _ _ _ _ ltac:(auto) Hpf
             (tail_rule_names _ _ _)).
  rewrite (In_failed_graph_rule "redundant_paths" _ _ _ _ _ _ _ _ _ ltac:(auto) Hpf
             (tail_rule_names _ _ _)).
  unfold connectivity_flags.
  destruct (_build_adjacency layout) as [|[start adj] g'] eqn:Hg.
  - split; split.
    + intros [E|[]]. discriminate E.
    + intros [Hc _]. exfalso. apply Hc. now left.
    + trivial.
    + intros _. now left.
  - cbv zeta.
    destruct (size (reachable_from ((start, adj) :: g') start)
              =? size (list_to_set (map name (zones layout)) : gset string))%nat eqn:E;
      cbn [negb].
    + apply Nat.eqb_eq in E. rewrite In_flag, negb_true_iff.
      split; split.
      * intros [Hc _]. split; [|exact Hc].
        intros Hin. apply In_flag in Hin. destruct Hin as [_ Hin]. discriminate Hin.
      * intros [_ Hc]. auto.
      * intros Hin. apply In_flag in Hin. destruct Hin as [_ Hin]. discriminate Hin.
      * intros Hne. contradiction.
    + apply Nat.eqb_neq in E. split; split.
      * intros [Hin|[]]. discriminate Hin.
      * intros [Hc _]. exfalso. apply Hc. now left.
      * intros _. exact E.
      * intros _. now left.
Qed.

(** On the feasible layout neither rule is reported. *)
Lemma redundant_paths_iff_witness :
  exists vr,
    validate_layout (H:=model_host) baseline_layout None = Ok vr
    /\ ~ In "redundant_paths" (failed_rules vr).
Proof.
  destruct (validate_layout (H:=model_host) baseline_layout None) as [vr|e] eqn:Hv;
    [|vm_compute in Hv; discriminate Hv].
  exists vr. split; [reflexivity|].
  rewrite (proj1 (redundant_paths_iff model_host baseline_layout None vr Hv)).
  intros [_ Hc]. vm_compute in Hc. discriminate Hc.
Defined.

(** ** When the validator raises *)

Lemma pair_flags_Ok (g : graph) (pairs : list (list string)) :
  is_ok (pair_flags g pairs) = true <-> Forall (fun p => length p = 2%nat) pairs.
Proof.
  split.
  - induction pairs as [|p pairs IH]; intros Hp; [constructor|].
    cbn [pair_flags] in Hp.
    destruct p as [|a [|b [|]]]; try discriminate Hp.
    cbn [unpack2 mbind result_bind] in Hp.
    destruct (pair_flags g pairs) as [pf|]; [|discriminate Hp].
    constructor; [reflexivity | now apply IH].
  - intros Hp. destruct (pair_flags_returns g pairs Hp) as [pf ->]. reflexivity.
Qed.

Lemma validate_layout_ok_iff (H : Host) (layout : Layout)
    (settings : option ConstraintSettings) :
  is_ok (validate_layout layout settings) = true
  <-> is_ok (_crew layout) = true
      /\ is_ok (_duration layout) = true
      /\ is_ok (py_int (dict_get (power (systems layout)) "autonomy_days" (VInt 0))) = true
      /\ Forall (fun p => length p = 2%nat)
                (adjacency_pairs (default default_settings settings)).
Proof.
  split.
  - destruct (validate_layout layout settings) as [vr|] eqn:Hv; [|discriminate].
    intros _.
    destruct (validate_layout_failed_rules _ _ _ Hv)
      as (crew & duration & autonomy & pf & -> & -> & -> & Hpf & _).
    repeat split. apply (pair_flags_Ok (_build_adjacency layout)). now rewrite Hpf.
  - intros (Hc & Hd & Ha & Hp).
    destruct (_crew layout) as [crew|] eqn:Ec; [|discriminate].
    destruct (_duration layout) as [duration|] eqn:Ed; [|discriminate].
    destruct (py_int (dict_get (power (systems layout)) "autonomy_days" (VInt 0)))
      as [autonomy|] eqn:Ea; [|discriminate].
    destruct (pair_flags_returns (_build_adjacency layout) _ Hp) as [pf Hpf].
    destruct (validate_layout_returns layout settings crew duration autonomy pf
                Ec Ed Ea Hpf) as [vr ->].
    reflexivity.
Qed.

(** The validator raises exactly when one of its three [int()] conversions
    fails or an adjacency pair is not a list of two names: no violated rule
    makes it raise. *)
Theorem validate_layout_returns_iff (H : Host) (layout : Layout)
    (settings : option ConstraintSettings) :
  is_ok (validate_layout layout settings) = true
  <-> is_ok (_crew layout) = true
      /\ is_ok (_duration layout) = true
      /\ is_ok (py_int (dict_get (power (systems layout)) "autonomy_days" (VInt 0))) = true
      /\ Forall (fun p => length p = 2%nat)
                (adjacency_pairs (default default_settings settings)).
Proof. apply validate_layout_ok_iff. Qed.

(** A layout without a zone named StormShelter fails the storm-shelter rule
    whatever the required zones are, and one without CrewQuarters is never
    reported for crew privacy. *)
Theorem validate_without_shelter (H : Host) (layout : Layout)
    (settings : option ConstraintSettings) (vr : ValidationResult) :
  validate_layout layout settings = Ok vr ->
  (~ In "StormShelter" (map name (zones layout)) ->
   In "storm_shelter_access" (failed_rules vr) /\ passed vr = false)
  /\ (~ In "CrewQuarters" (map name (zones layout)) ->
      ~ In "crew_privacy" (failed_rules vr)).
Proof.
  intros Hv.
  destruct (validate_layout_failed_rules _ _ _ Hv)
    as (crew & duration & autonomy & pf & _ & _ & _ & Hpf & Hf & Hp).
  split.
  - intros Hs. apply zone_by_name_None in Hs.
    assert (Hin : In "storm_shelter_access" (failed_rules vr)).
    { rewrite Hf, !in_app_iff. do 4 right. left.
      unfold shelter_flags. rewrite Hs. now left. }
    split; [exact Hin|]. rewrite Hp. apply bool_decide_eq_false.
    intros E. rewrite E in Hin. destruct Hin.
  - intros Hq. apply zone_by_name_None in Hq.
    rewrite Hf, !in_app_iff. unfold quarters_flags. rewrite Hq.
    intros [Hx|[Hx|[Hx|[Hx|[Hx|[]]]]]].
    + unfold static_flags in Hx. rewrite !in_app_iff, !In_flag in Hx.
      intuition discriminate.
    + unfold connectivity_flags in Hx.
      destruct (_build_adjacency layout) as [|[start adj] g'].
      * destruct Hx as [E|[]]. discriminate E.
      * cbv zeta in Hx. destruct (negb _).
        -- destruct Hx as [E|[]]. discriminate E.
        -- apply In_flag in Hx. destruct Hx as [_ E]. discriminate E.
    + destruct (In_pair_flags _ _ _ _ Hpf Hx) as (a & b & E).
      destruct (pair_rule_id_head a b) as (rest & E'). rewrite E' in E. discriminate E.
    + apply In_flag in Hx. destruct Hx as [_ E]. discriminate E.
    + apply In_shelter_flags in Hx. discriminate Hx.
Qed.

Lemma validate_without_shelter_witness :
  exists vr,
    validate_layout (H:=model_host) (remove_zone "StormShelter" baseline_layout) None = Ok vr
    /\ In "storm_shelter_access" (failed_rules vr) /\ passed vr = false.
Proof.
  destruct (validate_layout (H:=model_host) (remove_zone "StormShelter" baseline_layout) None)
    as [vr|e] eqn:Hv; [|vm_compute in Hv; discriminate Hv].
  exists vr. split; [reflexivity|].
  apply (validate_without_shelter model_host _ None vr Hv).
  vm_compute. intros Hin.
  repeat (destruct Hin as [E|Hin]; [discriminate E|]). destruct Hin.
Defined.

(** * Further properties of the optimizer *)

Section OptimizerInvariants.
Context {H : Host}.
Variables (settings : ConstraintSettings) (weights : ScoreWeights) (iterations : Z).

(** A property that every transition keeps holds at the end of a run. *)
Lemma anneal_run_invariant (P : anneal_state -> Prop) :
  (forall st step st',
      anneal_step_rel settings weights iterations st step st' -> P st -> P st') ->
  forall steps st st',
    anneal_run settings weights iterations steps st st' -> P st -> P st'.
Proof.
  intros Hstep steps st st' Hrun. induction Hrun as [|step steps st st1 st2 Hs _ IH].
  - auto.
  - intros HP. apply IH. eapply Hstep; eassumption.
Qed.

(** Every iteration logs one entry, numbered by the iteration. *)
Lemma anneal_step_rel_history (st st' : anneal_state) (step : Z) :
  anneal_step_rel settings weights iterations st step st' ->
  exists e, history st' = history st ++ [e] /\ iteration e = step
            /\ score e = current_score st'
            /\ (accepted e = false ->
                current st' = current st /\ current_score st' = current_score st).
Proof.
  intros Hs. destruct Hs; cbn [history current current_score]; unfold log;
    eexists; (split; [reflexivity|]); cbn [iteration score accepted]; auto.
  all: repeat split; auto; discriminate.
Qed.

Lemma anneal_run_iterations (steps : list Z) (st st' : anneal_state) :
  anneal_run settings weights iterations steps st st' ->
  map iteration (history st') = map iteration (history st) ++ steps.
Proof.
  induction 1 as [st|step steps st st1 st2 Hs _ IH].
  - now rewrite app_nil_r.
  - destruct (anneal_step_rel_history _ _ _ Hs) as (e & He & Hi & _).
    rewrite IH, He, map_app. cbn [map]. rewrite Hi, <- app_assoc. reflexivity.
Qed.

(** The scores of the log against the best score: none is higher, and an
    accepted entry carries it. *)
Definition log_consistent (st : anneal_state) : Prop :=
  current_score st <= best_score st
  /\ Forall (fun e => score e <= best_score st) (history st)
  /\ Exists (fun e => accepted e = true /\ score e = best_score st) (history st).

Lemma anneal_step_rel_log (st st' : anneal_state) (step : Z) :
  anneal_step_rel settings weights iterations st step st' ->
  log_consistent st -> log_consistent st'.
Proof.
  intros Hs (Hc & Hf & He).
  destruct Hs; unfold log_consistent, log;
    cbn [history current_score best_score]; rewrite Forall_app, Exists_app.
  - split; [exact Hc|]. split; [split; [exact Hf|] | left; exact He].
    repeat constructor. exact Hc.
  - split; [apply Qle_refl|]. split; [split | right].
    + eapply Forall_impl; [exact Hf|]. cbn. intros e Hle.
      eapply Qle_trans; [exact Hle | now apply Qlt_le_weak].
    + repeat constructor. apply Qle_refl.
    + constructor. cbn. auto.
  - split; [assumption|]. split; [split; [exact Hf|] | left; exact He].
    repeat constructor. assumption.
  - split; [exact Hc|]. split; [split; [exact Hf|] | left; exact He].
    repeat constructor. exact Hc.
Qed.

End OptimizerInvariants.

Lemma initial_state_inv (H : Host) (layout : Layout) (settings : ConstraintSettings)
    (weights : ScoreWeights) (seed : option Z) (st0 : anneal_state) :
  initial_state layout settings weights seed = Ok st0 ->
  exists s cur,
    rng_seed layout seed = Ok s
    /\ _copy_layout layout = Ok cur
    /\ evaluate cur (Some settings) (Some weights) = Ok (best_metrics st0, best_score st0)
    /\ _copy_layout cur = Ok (best st0)
    /\ current st0 = cur
    /\ current_metrics st0 = best_metrics st0
    /\ current_score st0 = best_score st0
    /\ st_rng st0 = Random s
    /\ history st0 = [ {| iteration := 0; score := best_score st0; accepted := true;
                          reason := "initial" |} ].
Proof.
  unfold initial_state. intros H0.
  destruct (rng_seed layout seed) as [s|] eqn:Hs; [|discriminate].
  cbn [mbind result_bind] in H0.
  destruct (_copy_layout layout) as [cur|] eqn:Hc; [|discriminate].
  cbn [mbind result_bind] in H0.
  destruct (evaluate cur (Some settings) (Some weights)) as [[cm cs]|] eqn:He;
    [|discriminate].
  cbn [mbind result_bind] in H0.
  destruct (_copy_layout cur) as [b|] eqn:Hb; [|discriminate].
  cbn [mbind result_bind] in H0. injection H0 as <-.
  exists s, cur. cbn. repeat split; auto.
Qed.

(** The history of the optimizer has one entry for the initial layout and one
    for each iteration, numbered 0, 1, ..., [iterations] in this order; with
    no iteration to run it holds the initial entry alone. *)
Theorem optimize_history_shape (H : Host) (layout : Layout) (iterations : Z)
    (settings : option ConstraintSettings) (weights : option ScoreWeights)
    (seed : option Z) (res : OptimizationResult) :
  optimize_layout layout iterations settings weights seed = Ok res ->
  map iteration (result_history res) = 0%Z :: step_range iterations
  /\ length (result_history res) = S (Z.to_nat iterations)
  /\ ((iterations <= 0)%Z ->
      result_history res = [ {| iteration := 0; score := result_score res;
                                accepted := true; reason := "initial" |} ]).
Proof.
  intros Ho. apply optimize_layout_run in Ho. destruct Ho as [st0 st Hi Hr].
  cbn [result_history result_score].
  destruct (initial_state_inv _ _ _ _ _ _ Hi) as (s & cur & _ & _ & _ & _ & _ & _ & _ & _ & Hh).
  pose proof (anneal_run_iterations _ _ _ _ _ _ Hr) as Hit.
  rewrite Hh in Hit. cbn [map iteration app] in Hit.
  split; [exact Hit|]. split.
  - rewrite <- (length_map iteration), Hit. cbn [length]. unfold step_range.
    now rewrite length_map, length_seq.
  - intros Hle. unfold step_range in Hr.
    replace (Z.to_nat iterations) with O in Hr by lia. cbn in Hr.
    inversion Hr; subst. exact Hh.
Qed.

Lemma optimize_history_shape_witness :
  exists res,
    optimize_layout (H:=model_host) baseline_layout 2 None None (Some 5%Z) = Ok res
    /\ map iteration (result_history res) = [0; 1; 2]%Z.
Proof.
  destruct baseline_run as [res Ho]. exists res. split; [exact Ho|].
  exact (proj1 (optimize_history_shape model_host _ _ _ _ _ res Ho)).
Defined.

(** The score that the optimizer returns is the highest score of its history:
    no entry of the log scores higher, and an accepted entry carries exactly
    this score. *)
Theorem optimize_score_is_max (H : Host) (layout : Layout) (iterations : Z)
    (settings : option ConstraintSettings) (weights : option ScoreWeights)
    (seed : option Z) (res : OptimizationResult) :
  optimize_layout layout iterations settings weights seed = Ok res ->
  Forall (fun e => score e <= result_score res) (result_history res)
  /\ Exists (fun e => accepted e = true /\ score e = result_score res)
            (result_history res).
Proof.
  intros Ho. apply optimize_layout_run in Ho. destruct Ho as [st0 st Hi Hr].
  cbn [result_history result_score].
  destruct (initial_state_inv _ _ _ _ _ _ Hi)
    as (s & cur & _ & _ & _ & _ & _ & _ & Hcs & _ & Hh).
  assert (H0 : log_consistent st0).
  { unfold log_consistent. rewrite Hh, Hcs. repeat split.
    - apply Qle_refl.
    - repeat constructor. apply Qle_refl.
    - constructor. cbn. auto. }
  pose proof (anneal_run_invariant _ _ _ log_consistent
                (fun st1 step st2 Hs => anneal_step_rel_log _ _ _ st1 st2 step Hs)
                _ _ _ Hr H0) as (_ & Hf & He).
  auto.
Qed.

Lemma optimize_score_is_max_witness :
  exists res,
    optimize_layout (H:=model_host) baseline_layout 2 None None (Some 5%Z) = Ok res
    /\ Forall (fun e => score e <= result_score res) (result_history res).
Proof.
  destruct baseline_run as [res Ho]. exists res. split; [exact Ho|].
  exact (proj1 (optimize_score_is_max model_host _ _ _ _ _ res Ho)).
Defined.

(** ** What the neighbour operators leave alone *)

Lemma fmin_cases (a b : Q) : fmin a b = a \/ fmin a b = b.
Proof. unfold fmin. destruct (Qltb b a); auto. Qed.

(** [min(hi, max(lo, x))] lies between [lo] and [hi]. *)
Lemma clamp_range (lo hi x : Q) :
  lo <= hi -> lo <= fmin hi (fmax lo x) /\ fmin hi (fmax lo x) <= hi.
Proof.
  intros Hle. pose proof (fmin_spec hi (fmax lo x)) as Hmin.
  pose proof (fmax_spec lo x) as Hmax.
  destruct (fmin_cases hi (fmax lo x)) as [E|E]; rewrite E in *; lra.
Qed.

Lemma set_volume_id (z : Zone) : set_volume z (volume_m3 z) = z.
Proof. now destruct z. Qed.

Lemma set_acoustic_id (z : Zone) : set_acoustic z (acoustic_isolation z) = z.
Proof. now destruct z. Qed.

Lemma set_zones_id (l : Layout) : set_zones l (zones l) (pressurized_volume_m3 l) = l.
Proof. now destruct l. Qed.

(** A zone without the two fields that the operators write, and a layout
    without the fields and the two power entries that they write. *)
Definition zone_skeleton (z : Zone) : Zone := set_acoustic (set_volume z 0) 0.

Definition layout_skeleton (l : Layout) : Layout :=
  set_isru
    (set_systems
       (set_zones l (map zone_skeleton (zones l)) 0)
       {| eclss_redundancy_loops := eclss_redundancy_loops (systems l);
          water_recycling_rate := 0;
          power := delete "storage_kwh" (delete "autonomy_days" (power (systems l)));
          dust_mitigation := dust_mitigation (systems l) |})
    0.

Lemma skeleton_insert (zs : list Zone) (i : nat) (z z' : Zone) :
  zs !! i = Some z -> zone_skeleton z' = zone_skeleton z ->
  map zone_skeleton (<[i:=z']> zs) = map zone_skeleton zs.
Proof.
  revert i. induction zs as [|a zs IH]; intros [|i] Hl Hz; cbn in *; try discriminate.
  - injection Hl as ->. now rewrite Hz.
  - f_equal. now apply IH.
Qed.

Lemma layout_skeleton_zones (l : Layout) (zs : list Zone) (v : Q) :
  map zone_skeleton zs = map zone_skeleton (zones l) ->
  layout_skeleton (set_zones l zs v) = layout_skeleton l.
Proof. intros Hz. unfold layout_skeleton. cbn. now rewrite Hz. Qed.

(** The positions that a comprehension keeps are positions of kept zones,
    each listed once. *)
Lemma positions_from (keep : Zone -> bool) (zs : list Zone) (k : nat) :
  let L := map fst (List.filter (fun p : nat * Zone => keep (snd p))
                      (imap (fun i z => ((k + i)%nat, z)) zs)) in
  (forall d, In d L ->
     (k <= d)%nat /\ exists z, zs !! (d - k)%nat = Some z /\ keep z = true)
  /\ List.NoDup L.
Proof.
  revert k. induction zs as [|z zs IH]; intros k; cbn zeta.
  - cbn. split; [intros d []|constructor].
  - cbn [imap].
    rewrite (imap_ext _ (fun i z => ((S k + i)%nat, z)) zs)
      by (intros i x _; cbn; f_equal; lia).
    destruct (IH (S k)) as [Hin Hnd]. cbn zeta in Hin, Hnd.
    assert (Htail : forall d,
               In d (map fst (List.filter (fun p : nat * Zone => keep (snd p))
                                (imap (fun i z => ((S k + i)%nat, z)) zs))) ->
               (k <= d)%nat /\ exists z0, (z :: zs) !! (d - k)%nat = Some z0
                                          /\ keep z0 = true).
    { intros d Hd. destruct (Hin d Hd) as (Hle & z0 & Hl & Hk).
      split; [lia|]. exists z0. split; [|exact Hk].
      replace (d - k)%nat with (S (d - S k)) by lia. exact Hl. }
    cbn [List.filter snd]. destruct (keep z) eqn:Hk; cbn [map fst].
    + split.
      * intros d [<-|Hd]; [|now apply Htail].
        split; [lia|]. exists z. replace (k + 0 - k)%nat with O by lia. auto.
      * constructor; [|exact Hnd]. intros Hd. apply Hin in Hd. lia.
    + split; [exact Htail | exact Hnd].
Qed.

Lemma positions_where_lookup (keep : Zone -> bool) (zs : list Zone) (i d : nat) :
  positions_where keep zs !! i = Some d ->
  exists z, zs !! d = Some z /\ keep z = true.
Proof.
  intros Hl. apply list_elem_of_lookup_2, list_elem_of_In in Hl.
  destruct (positions_from keep zs 0) as [Hin _]. cbn zeta in Hin.
  destruct (Hin d Hl) as (_ & z & Hz & Hk).
  exists z. now rewrite Nat.sub_0_r in Hz.
Qed.

Lemma positions_where_distinct (keep : Zone -> bool) (zs : list Zone) (i j d e : nat) :
  positions_where keep zs !! i = Some d ->
  positions_where keep zs !! j = Some e ->
  i <> j -> d <> e.
Proof.
  intros Hi Hj Hne ->. apply Hne.
  destruct (positions_from keep zs 0) as [_ Hnd]. cbn zeta in Hnd.
  apply NoDup_ListNoDup in Hnd. exact (NoDup_lookup _ _ _ _ Hnd Hi Hj).
Qed.

Section OperatorFrame.
Context {H : Host}.

(** The shape of a run of the volume operator that moves volume. *)
Lemma apply_adjust_zone_volume_inv (l l' : Layout) (r r' : rng) :
  apply_adjust_zone_volume l r = Ok (l', r') ->
  l' = l
  \/ exists i j u d e donor receiver r1,
       let adjustable :=
         positions_where (fun z => negb (in_strs (name z) ["Airlock"; "StormShelter"]))
                         (zones l) in
       let transfer := volume_m3 donor * u in
       let zs1 := <[d := set_volume donor (fmax (volume_m3 donor - transfer) 5.0)]>
                    (zones l) in
       let zs2 := <[e := set_volume receiver (volume_m3 receiver + transfer)]> zs1 in
       (2 <= length adjustable)%nat
       /\ rng_sample2 (length adjustable) r = ((i, j), r1)
       /\ rng_uniform 0.02 0.06 r1 = (u, r')
       /\ adjustable !! i = Some d /\ adjustable !! j = Some e
       /\ zones l !! d = Some donor
       /\ zs1 !! e = Some receiver
       /\ l' = set_zones l zs2 (total_volume zs2).
Proof.
  unfold apply_adjust_zone_volume. cbv zeta.
  set (adjustable := positions_where _ (zones l)).
  destruct (length adjustable <? 2)%nat eqn:Hlen.
  { intros E. injection E as <- <-. now left. }
  apply Nat.ltb_ge in Hlen.
  destruct (rng_sample2 (length adjustable) r) as [[i j] r1] eqn:Hs.
  destruct (rng_uniform 0.02 0.06 r1) as [u r2] eqn:Hu.
  destruct (adjustable !! i) as [d|] eqn:Hd.
  2:{ intros E. injection E as <- <-. now left. }
  destruct (adjustable !! j) as [e|] eqn:He.
  2:{ intros E. injection E as <- <-. now left. }
  destruct (zones l !! d) as [donor|] eqn:Hdn.
  2:{ intros E. injection E as <- <-. now left. }
  match goal with
  | |- context [?zs1 !! e] => destruct (zs1 !! e) as [receiver|] eqn:Hrc
  end.
  2:{ intros E. injection E as <- <-. now left. }
  intros E. injection E as <- <-. right.
  exists i, j, u, d, e, donor, receiver, r1. cbv zeta. auto 10.
Qed.

Lemma apply_adjust_privacy_inv (l l' : Layout) (r r' : rng) :
  apply_adjust_privacy l r = Ok (l', r') ->
  l' = l
  \/ exists t zone a,
       zones l !! t = Some zone
       /\ in_strs (name zone) ["Work"; "Exercise"; "GalleyDining"] = true
       /\ 0.3 <= a /\ a <= 1
       /\ l' = set_zones l (<[t := set_acoustic zone a]> (zones l))
                 (pressurized_volume_m3 l).
Proof.
  unfold apply_adjust_privacy. cbv zeta.
  set (targets := positions_where _ (zones l)).
  destruct targets as [|t0 ts] eqn:Ht.
  { intros E. injection E as <- <-. now left. }
  rewrite <- Ht.
  destruct (rng_choice (length targets) r) as [i r1].
  destruct (rng_uniform (-0.05) 0.1 r1) as [u r2].
  destruct (targets !! i) as [t|] eqn:Hi.
  2:{ intros E. injection E as <- <-. now left. }
  destruct (positions_where_lookup _ _ _ _ Hi) as (zone & Hz & Hk).
  rewrite Hz. intros E. injection E as <- <-. right.
  exists t, zone, (fmin 1.0 (fmax 0.3 (acoustic_isolation zone + u))).
  destruct (clamp_range 0.3 1.0 (acoustic_isolation zone + u)) as [Hlo Hhi]; [lra|].
  split; [exact Hz|]. split; [exact Hk|]. split; [exact Hlo|].
  split; [lra | reflexivity].
Qed.

Lemma apply_tune_systems_inv (l l' : Layout) (r r' : rng) :
  apply_tune_systems l r = Ok (l', r') ->
  exists water autonomy storage,
    0.9 <= water /\ water <= 0.99 /\ (14 <= autonomy)%Z /\ 120 <= storage
    /\ l' = set_systems l
              {| eclss_redundancy_loops := eclss_redundancy_loops (systems l);
                 water_recycling_rate := water;
                 power := <["storage_kwh" := VFloat storage]>
                            (<["autonomy_days" := VInt autonomy]> (power (systems l)));
                 dust_mitigation := dust_mitigation (systems l) |}.
Proof.
  unfold apply_tune_systems. cbv zeta.
  destruct (rng_uniform (-0.02) 0.03 r) as [u r1].
  destruct (py_int _) as [autonomy|]; [|discriminate]. cbn [mbind result_bind].
  destruct (rng_randint (-1) 2 r1) as [k r2].
  destruct (py_float _) as [storage|]; [|discriminate]. cbn [mbind result_bind].
  destruct (rng_uniform (-10) 15 r2) as [v r3].
  intros E. injection E as <- <-.
  destruct (clamp_range 0.9 0.99 (water_recycling_rate (systems l) + u)) as [Hlo Hhi];
    [lra|].
  exists (fmin 0.99 (fmax 0.9 (water_recycling_rate (systems l) + u))),
         (Z.max 14 (autonomy + k)), (fmax 120.0 (storage + v)).
  split; [exact Hlo|]. split; [exact Hhi|]. split; [lia|].
  split; [|reflexivity]. pose proof (fmax_spec 120.0 (storage + v)). lra.
Qed.

Lemma apply_adjust_isru_inv (l l' : Layout) (r r' : rng) :
  apply_adjust_isru l r = Ok (l', r') ->
  exists ratio, 0.4 <= ratio /\ ratio <= 1 /\ l' = set_isru l ratio.
Proof.
  unfold apply_adjust_isru. destruct (rng_uniform (-0.05) 0.08 r) as [delta r1].
  intros E. injection E as <- <-.
  destruct (clamp_range 0.4 1.0 (isru_ratio l + delta)) as [Hlo Hhi]; [lra|].
  eexists. split; [exact Hlo|]. split; [|reflexivity]. lra.
Qed.

End OperatorFrame.

(** The adjacency graph reads the names and the connections only. *)
Lemma build_adjacency_skeleton (l : Layout) :
  _build_adjacency (layout_skeleton l) = _build_adjacency l.
Proof.
  unfold _build_adjacency, layout_skeleton. cbn [zones set_isru set_systems set_zones].
  generalize (@nil (string * list string)).
  induction (zones l) as [|z zs IH]; intros g; cbn [map fold_left]; [reflexivity|].
  rewrite IH. reflexivity.
Qed.

Lemma apply_op_skeleton (H : Host) (op : NeighborOp) (l l' : Layout) (r r' : rng) :
  apply_op op l r = Ok (l', r') -> layout_skeleton l' = layout_skeleton l.
Proof.
  intros Ha.
  destruct op; cbn [apply_op] in Ha.
  - apply apply_adjust_zone_volume_inv in Ha.
    destruct Ha as [-> | (i & j & u & d & e & donor & receiver & r1 & Ha)];
      [reflexivity|].
    cbv zeta in Ha. destruct Ha as (_ & _ & _ & _ & _ & Hd & He & ->).
    apply layout_skeleton_zones.
    rewrite (skeleton_insert _ e receiver) by (exact He || reflexivity).
    now rewrite (skeleton_insert _ d donor) by (exact Hd || reflexivity).
  - apply apply_tune_systems_inv in Ha.
    destruct Ha as (water & autonomy & storage & _ & _ & _ & _ & ->).
    unfold layout_skeleton. cbn.
    rewrite (delete_insert_ne _ "autonomy_days" "storage_kwh") by discriminate.
    rewrite delete_insert_eq, delete_insert_eq. reflexivity.
  - apply apply_adjust_isru_inv in Ha. destruct Ha as (ratio & _ & _ & ->).
    reflexivity.
  - apply apply_adjust_privacy_inv in Ha.
    destruct Ha as [-> | (t & zone & a & Hz & _ & _ & _ & ->)]; [reflexivity|].
    apply layout_skeleton_zones.
    now rewrite (skeleton_insert _ t zone) by (exact Hz || reflexivity).
Qed.

(** Whatever operator is drawn, it writes nothing but zone volumes and the
    pressurized volume, acoustic isolation, the water recycling rate, the two
    power entries and the ISRU ratio: the zones keep their names, order,
    connections and every other field, the metadata and the rest of the layout
    are untouched, and so is the adjacency graph. *)
Theorem neighbor_ops_frame (H : Host) (op : NeighborOp) (l l' : Layout) (r r' : rng) :
  apply_op op l r = Ok (l', r') ->
  layout_skeleton l' = layout_skeleton l
  /\ _build_adjacency l' = _build_adjacency l
  /\ map name (zones l') = map name (zones l)
  /\ map connections (zones l') = map connections (zones l)
  /\ metadata l' = metadata l.
Proof.
  intros Ha. pose proof (apply_op_skeleton _ _ _ _ _ _ Ha) as Hsk.
  split; [exact Hsk|]. split; [|split; [|split]].
  - now rewrite <- (build_adjacency_skeleton l'), Hsk, build_adjacency_skeleton.
  - apply (f_equal (fun x => map name (zones x))) in Hsk.
    unfold layout_skeleton in Hsk. cbn in Hsk. now rewrite !map_map in Hsk.
  - apply (f_equal (fun x => map connections (zones x))) in Hsk.
    unfold layout_skeleton in Hsk. cbn in Hsk. now rewrite !map_map in Hsk.
  - apply (f_equal metadata) in Hsk. exact Hsk.
Qed.

Lemma neighbor_ops_frame_witness :
  exists l' r',
    apply_op (H:=model_host) _op_adjust_zone_volume baseline_layout
             (@Random model_host 5%Z) = Ok (l', r')
    /\ map name (zones l') = map name (zones baseline_layout)
    /\ metadata l' = metadata baseline_layout.
Proof.
  destruct (apply_op (H:=model_host) _op_adjust_zone_volume baseline_layout
                     (@Random model_host 5%Z)) as [[l' r']|e] eqn:Ha;
    [|vm_compute in Ha; discriminate Ha].
  exists l', r'. split; [reflexivity|].
  destruct (neighbor_ops_frame model_host _ _ _ _ _ Ha) as (_ & _ & Hn & _ & Hm).
  split; [exact Hn | exact Hm].
Defined.

(** ** What each operator writes *)

Lemma total_volume_insert (zs : list Zone) (i : nat) (z z' : Zone) :
  zs !! i = Some z ->
  total_volume (<[i:=z']> zs) == total_volume zs - volume_m3 z + volume_m3 z'.
Proof.
  revert i. induction zs as [|a zs IH]; intros [|i] Hl; cbn in Hl; try discriminate.
  - injection Hl as ->. cbn [insert list_insert]. rewrite !total_volume_cons. lra.
  - change (<[S i:=z']> (a :: zs)) with (a :: <[i:=z']> zs).
    rewrite !total_volume_cons, (IH i Hl). lra.
Qed.

Lemma Forall2_insert_r {A : Type} (R : A -> A -> Prop) (zs ks : list A) (i : nat)
    (z y : A) :
  Forall2 R zs ks -> zs !! i = Some z -> R z y -> Forall2 R zs (<[i:=y]> ks).
Proof.
  intros HF Hl HR. rewrite <- (list_insert_id zs i z Hl). now apply Forall2_insert.
Qed.

Lemma Forall2_diag {A : Type} (R : A -> A -> Prop) (zs : list A) :
  (forall z, R z z) -> Forall2 R zs zs.
Proof. intros HR. induction zs; constructor; auto. Qed.

(** A zone after the volume operator: its volume may differ, unless it is
    the airlock or the storm shelter. *)
Definition volume_moved (z z' : Zone) : Prop :=
  z' = set_volume z (volume_m3 z')
  /\ (in_strs (name z) ["Airlock"; "StormShelter"] = true -> z' = z).

(** A zone after the privacy operator: untouched, or one of the three shared
    zones with an acoustic isolation between 0.3 and 1. *)
Definition acoustic_tuned (z z' : Zone) : Prop :=
  z' = z
  \/ (in_strs (name z) ["Work"; "Exercise"; "GalleyDining"] = true
      /\ z' = set_acoustic z (acoustic_isolation z')
      /\ 0.3 <= acoustic_isolation z' /\ acoustic_isolation z' <= 1).

(** What an operator does, operator by operator.  The volume operator moves
    volume between zones other than the airlock and the storm shelter, never
    lowers the total, and when it moves volume sets the pressurized volume to
    the new total; the systems operator leaves a water recycling rate between
    0.9 and 0.99, an autonomy of 14 days or more and a storage of 120 kWh or
    more; the ISRU operator leaves a ratio between 0.4 and 1; the privacy
    operator leaves an acoustic isolation between 0.3 and 1 in the one zone it
    touches. *)
Theorem neighbor_ops_effect (H : Host) (op : NeighborOp) (l l' : Layout) (r r' : rng) :
  apply_op op l r = Ok (l', r') ->
  match op with
  | _op_adjust_zone_volume =>
      Forall2 volume_moved (zones l) (zones l')
      /\ total_volume (zones l) <= total_volume (zones l')
      /\ (l' = l \/ pressurized_volume_m3 l' = total_volume (zones l'))
      /\ systems l' = systems l /\ isru_ratio l' = isru_ratio l
  | _op_tune_systems =>
      zones l' = zones l
      /\ pressurized_volume_m3 l' = pressurized_volume_m3 l
      /\ isru_ratio l' = isru_ratio l
      /\ 0.9 <= water_recycling_rate (systems l')
      /\ water_recycling_rate (systems l') <= 0.99
      /\ exists autonomy storage,
           power (systems l') !! "autonomy_days" = Some (VInt autonomy)
           /\ (14 <= autonomy)%Z
           /\ power (systems l') !! "storage_kwh" = Some (VFloat storage)
           /\ 120 <= storage
  | _op_adjust_isru =>
      l' = set_isru l (isru_ratio l')
      /\ 0.4 <= isru_ratio l' /\ isru_ratio l' <= 1
  | _op_adjust_privacy =>
      Forall2 acoustic_tuned (zones l) (zones l')
      /\ pressurized_volume_m3 l' = pressurized_volume_m3 l
      /\ systems l' = systems l /\ isru_ratio l' = isru_ratio l
  end.
Proof.
  intros Ha. destruct op; cbn [apply_op] in Ha.
  - assert (Hrefl : forall z, volume_moved z z).
    { intros z. split; [now rewrite set_volume_id | reflexivity]. }
    pose proof Ha as Ha'. apply apply_adjust_zone_volume_inv in Ha.
    destruct Ha as [-> | (i & j & u & d & e & donor & receiver & r1 & Ha)].
    { split; [now apply Forall2_diag|]. split; [apply Qle_refl | auto]. }
    cbv zeta in Ha. destruct Ha as (_ & _ & _ & Hi & Hj & Hd & He & ->).
    cbn [zones set_zones pressurized_volume_m3 systems isru_ratio].
    destruct (positions_where_lookup _ _ _ _ Hi) as (donor0 & Hd0 & Hkd).
    rewrite Hd in Hd0. injection Hd0 as <-.
    destruct (positions_where_lookup _ _ _ _ Hj) as (target & Ht & Hkt).
    set (transfer := volume_m3 donor * u) in *.
    set (donor' := set_volume donor (fmax (volume_m3 donor - transfer) 5.0)) in *.
    assert (H1 : Forall2 volume_moved (zones l) (<[d:=donor']> (zones l))).
    { apply (Forall2_insert_r _ _ _ _ donor); [now apply Forall2_diag | exact Hd |].
      split; [reflexivity|]. intros Hp. rewrite Hp in Hkd. discriminate Hkd. }
    destruct (Forall2_lookup_l _ _ _ _ _ H1 Ht) as (rc & Hrc & Hmv).
    rewrite He in Hrc. injection Hrc as <-.
    split; [|split; [|auto]].
    + apply (Forall2_insert_r _ _ _ _ target); [exact H1 | exact Ht |].
      split.
      * destruct Hmv as [-> _]. reflexivity.
      * intros Hp. rewrite Hp in Hkt. discriminate Hkt.
    + rewrite (total_volume_insert _ _ _ _ He), (total_volume_insert _ _ _ _ Hd).
      subst donor'. cbn [volume_m3 set_volume].
      pose proof (fmax_spec (volume_m3 donor - transfer) 5.0). lra.
  - apply apply_tune_systems_inv in Ha.
    destruct Ha as (water & autonomy & storage & Hlo & Hhi & Hau & Hst & ->).
    cbn. repeat (split; [auto; fail|]).
    exists autonomy, storage. split; [|split; [exact Hau|split; [|exact Hst]]].
    + rewrite lookup_insert_ne by discriminate. apply lookup_insert_eq.
    + apply lookup_insert_eq.
  - apply apply_adjust_isru_inv in Ha. destruct Ha as (ratio & Hlo & Hhi & ->).
    cbn. auto.
  - apply apply_adjust_privacy_inv in Ha.
    destruct Ha as [-> | (t & zone & a & Hz & Hk & Hlo & Hhi & ->)].
    { split; [apply Forall2_diag; now left | auto]. }
    cbn [zones set_zones pressurized_volume_m3 systems isru_ratio].
    split; [|auto].
    apply (Forall2_insert_r _ _ _ _ zone); [apply Forall2_diag; now left | exact Hz |].
    right. cbn. auto.
Qed.

Lemma neighbor_ops_effect_witness :
  exists l' r',
    apply_op (H:=model_host) _op_tune_systems baseline_layout
             (@Random model_host 5%Z) = Ok (l', r')
    /\ 0.9 <= water_recycling_rate (systems l')
    /\ water_recycling_rate (systems l') <= 0.99.
Proof.
  destruct (apply_op (H:=model_host) _op_tune_systems baseline_layout
                     (@Random model_host 5%Z)) as [[l' r']|e] eqn:Ha;
    [|vm_compute in Ha; discriminate Ha].
  exists l', r'. split; [reflexivity|].
  destruct (neighbor_ops_effect model_host _ _ _ _ _ Ha) as (_ & _ & _ & Hlo & Hhi & _).
  split; [exact Hlo | exact Hhi].
Defined.

(** * When the scorer and the optimizer raise *)

Section Readable.
Context {H : Host}.

(** An entry of a dictionary that [int()], or [float()], converts; a missing
    entry is replaced by a numeric default. *)
Definition int_entry (d : gmap string pyval) (key : string) : bool :=
  match d !! key with Some v => is_ok (py_int v) | None => true end.

Definition float_entry (d : gmap string pyval) (key : string) : bool :=
  match d !! key with Some v => is_ok (py_float v) | None => true end.

Lemma py_int_entry (d : gmap string pyval) (key : string) (z : Z) :
  is_ok (py_int (dict_get d key (VInt z))) = int_entry d key.
Proof. unfold dict_get, int_entry. destruct (d !! key); reflexivity. Qed.

Lemma py_float_entry (d : gmap string pyval) (key : string) (q : Q) :
  is_ok (py_float (dict_get d key (VFloat q))) = float_entry d key.
Proof. unfold dict_get, float_entry. destruct (d !! key); reflexivity. Qed.

(** The four values that the validator, the scorer and the systems operator
    convert. *)
Definition layout_readable (l : Layout) : bool :=
  int_entry (metadata l) "crew"
  && int_entry (metadata l) "duration_days"
  && int_entry (power (systems l)) "autonomy_days"
  && float_entry (power (systems l)) "storage_kwh".

(** The settings and weights that the scorer can divide by and unpack. *)
Definition settings_usable (s : ConstraintSettings) (w : ScoreWeights) : bool :=
  Qltb 0 (weights_total w)
  && forallb (fun p => (length p =? 2)%nat) (adjacency_pairs s)
  && negb (Qeq_bool (min_water_recycling s) 0)
  && negb (Qeq_bool (inject_Z (min_eclss_loops s)) 0)
  && negb (Qeq_bool (min_nhv_efficiency s) 0).

Lemma normalized_ok (w : ScoreWeights) :
  is_ok (normalized w) = Qltb 0 (weights_total w).
Proof.
  unfold normalized, Qltb, Qleb. cbv zeta.
  destruct (Qle_bool (weights_total w) 0); reflexivity.
Qed.

Lemma fdiv_ok (x y : Q) : is_ok (fdiv x y) = negb (Qeq_bool y 0).
Proof. unfold fdiv. destruct (Qeq_bool y 0); reflexivity. Qed.

Lemma transit_count_ok (g : set_graph) (pairs : list (list string)) (acc : result Z) :
  is_ok (fold_left (transit_count g) pairs acc)
  = is_ok acc && forallb (fun p => (length p =? 2)%nat) pairs.
Proof.
  revert acc. induction pairs as [|p pairs IH]; intros acc; cbn [fold_left forallb].
  - now rewrite andb_true_r.
  - rewrite IH. destruct acc as [z|e]; [|reflexivity].
    cbn [is_ok andb]. f_equal.
    unfold transit_count. cbn [mbind result_bind].
    destruct p as [|a [|b [|c p]]]; try reflexivity.
    cbn [unpack2 mbind result_bind length Nat.eqb].
    destruct (_ || _); reflexivity.
Qed.

Lemma transit_score_ok (l : Layout) (s : ConstraintSettings) :
  is_ok (_transit_score l s) = forallb (fun p => (length p =? 2)%nat) (adjacency_pairs s).
Proof.
  unfold _transit_score. cbv zeta.
  destruct (adjacency_pairs s) as [|p pairs] eqn:E; [reflexivity|].
  pose proof (transit_count_ok (transit_graph l) (p :: pairs) (Ok 0%Z)) as Hok.
  cbn [is_ok andb] in Hok. rewrite <- Hok.
  destruct (fold_left _ (p :: pairs) (Ok 0%Z)); reflexivity.
Qed.

Lemma sustainability_score_ok (l : Layout) (s : ConstraintSettings) :
  is_ok (_sustainability_score l s) = negb (Qeq_bool (min_water_recycling s) 0).
Proof.
  unfold _sustainability_score. rewrite <- (fdiv_ok (water_recycling_rate (systems l))).
  destruct (fdiv _ _); reflexivity.
Qed.

Lemma safety_score_ok (l : Layout) (s : ConstraintSettings) :
  is_ok (_safety_score l s) = negb (Qeq_bool (inject_Z (min_eclss_loops s)) 0).
Proof.
  unfold _safety_score.
  rewrite <- (fdiv_ok (inject_Z (eclss_redundancy_loops (systems l)))).
  destruct (fdiv _ _); reflexivity.
Qed.

Lemma energy_ok (l : Layout) :
  is_ok (_energy_per_person_day l)
  = int_entry (metadata l) "crew"
    && int_entry (power (systems l)) "autonomy_days"
    && float_entry (power (systems l)) "storage_kwh".
Proof.
  unfold _energy_per_person_day.
  rewrite <- (py_int_entry (metadata l) "crew" 1),
          <- (py_int_entry (power (systems l)) "autonomy_days" 1),
          <- (py_float_entry (power (systems l)) "storage_kwh" 120.0).
  destruct (py_int (dict_get (metadata l) "crew" (VInt 1))) as [crew|]; [|reflexivity].
  destruct (py_int (dict_get (power (systems l)) "autonomy_days" (VInt 1)))
    as [autonomy|]; [|reflexivity].
  destruct (py_float (dict_get (power (systems l)) "storage_kwh" (VFloat 120.0)))
    as [storage|]; [|reflexivity].
  cbn [mbind result_bind]. destruct (_ || _); reflexivity.
Qed.

Lemma validate_layout_ok (l : Layout) (s : ConstraintSettings) :
  is_ok (validate_layout l (Some s))
  = int_entry (metadata l) "crew"
    && int_entry (metadata l) "duration_days"
    && int_entry (power (systems l)) "autonomy_days"
    && forallb (fun p => (length p =? 2)%nat) (adjacency_pairs s).
Proof.
  apply eq_true_iff_eq. rewrite validate_layout_ok_iff, !andb_true_iff.
  unfold _crew, _duration. rewrite !py_int_entry. cbn [default].
  rewrite forallb_forall, List.Forall_forall.
  setoid_rewrite Nat.eqb_eq. tauto.
Qed.

(** The scorer returns exactly when the weights sum to more than zero, the
    adjacency pairs are pairs, the three minima it divides by are not zero,
    and the four values it converts are convertible. *)
Lemma evaluate_ok (l : Layout) (s : ConstraintSettings) (w : ScoreWeights) :
  is_ok (evaluate l (Some s) (Some w)) = settings_usable s w && layout_readable l.
Proof.
  unfold evaluate, settings_usable, layout_readable. cbv zeta.
  cbn [default from_option id].
  pose proof (normalized_ok w) as H1. pose proof (transit_score_ok l s) as H2.
  pose proof (sustainability_score_ok l s) as H3. pose proof (energy_ok l) as H4.
  pose proof (safety_score_ok l s) as H5. pose proof (validate_layout_ok l s) as H6.
  match goal with
  | |- context [fdiv ?x (min_nhv_efficiency s)] =>
      pose proof (fdiv_ok x (min_nhv_efficiency s)) as H7
  end.
  destruct (normalized w) as [w'|]; cbn [is_ok mbind result_bind] in *;
    rewrite <- H1; [|reflexivity].
  destruct (_transit_score l s) as [transit|]; cbn [is_ok mbind result_bind] in *;
    rewrite <- H2 in *; [|reflexivity].
  destruct (_sustainability_score l s) as [sustain|]; cbn [is_ok mbind result_bind] in *;
    rewrite <- H3; [|reflexivity].
  destruct (_safety_score l s) as [safety|] eqn:Esafe.
  2:{ rewrite <- H5. cbn [is_ok andb].
      destruct (_energy_per_person_day l); reflexivity. }
  cbn [is_ok] in H5. rewrite <- H5.
  destruct (fdiv _ (min_nhv_efficiency s)) as [ratio|] eqn:Eratio.
  2:{ cbn [is_ok] in H7. rewrite <- H7. cbn [andb].
      destruct (_energy_per_person_day l); [|reflexivity].
      cbn [mbind result_bind].
      destruct (validate_layout l (Some s)); reflexivity. }
  cbn [is_ok] in H7. rewrite <- H7. cbn [andb].
  destruct (int_entry (metadata l) "crew"), (int_entry (metadata l) "duration_days"),
    (int_entry (power (systems l)) "autonomy_days"),
    (float_entry (power (systems l)) "storage_kwh");
    cbn [andb] in H4, H6 |- *;
    destruct (_energy_per_person_day l); try discriminate H4;
    cbn [mbind result_bind is_ok]; try reflexivity;
    destruct (validate_layout l (Some s)); try discriminate H6; reflexivity.
Qed.

End Readable.

(** The scorer returns exactly when the weights sum to more than zero, every
    adjacency pair has two names, none of the three minima it divides by is
    zero, and the crew, the duration, the autonomy and the storage convert to
    numbers: this does not depend on the zones. *)
Theorem evaluate_returns_iff (H : Host) (layout : Layout)
    (constraints : option ConstraintSettings) (weights : option ScoreWeights) :
  is_ok (evaluate layout constraints weights)
  = settings_usable (default default_settings constraints)
                    (default default_weights weights)
    && layout_readable layout.
Proof.
  rewrite <- evaluate_ok. destruct constraints, weights; reflexivity.
Qed.

(** ** The optimizer never raises in its loop *)

Lemma forallb_insert {A : Type} (p : A -> bool) (zs : list A) (i : nat) (z : A) :
  forallb p zs = true -> p z = true -> forallb p (<[i:=z]> zs) = true.
Proof.
  revert i. induction zs as [|a zs IH]; intros i Hall Hz; [reflexivity|].
  cbn [forallb] in Hall. apply andb_true_iff in Hall. destruct Hall as [Ha Hzs].
  destruct i as [|i]; cbn [insert list_insert forallb].
  - now rewrite Hz, Hzs.
  - change (list_insert i z zs) with (<[i:=z]> zs). now rewrite Ha, IH.
Qed.

Lemma forallb_lookup {A : Type} (p : A -> bool) (zs : list A) (i : nat) (z : A) :
  forallb p zs = true -> zs !! i = Some z -> p z = true.
Proof.
  revert i. induction zs as [|a zs IH]; intros i Hall Hl; [discriminate|].
  cbn [forallb] in Hall. apply andb_true_iff in Hall. destruct Hall as [Ha Hzs].
  destruct i as [|i]; cbn in Hl.
  - now injection Hl as <-.
  - now apply (IH i).
Qed.

Lemma zone_valid_volume (z : Zone) : zone_valid z = true -> 0 < volume_m3 z.
Proof.
  unfold zone_valid. rewrite !andb_true_iff. intros [[[[[_ Hv] _] _] _] _].
  now apply Qltb_lt.
Qed.

Lemma zone_valid_set_volume (z : Zone) (v : Q) :
  zone_valid z = true -> 0 < v -> zone_valid (set_volume z v) = true.
Proof.
  unfold zone_valid. cbn [set_volume name volume_m3 usable_ratio acoustic_isolation].
  rewrite !andb_true_iff. intros [[[[[Hn _] Hu] Hu'] Ha] Ha'] Hv.
  apply Qltb_lt in Hv. auto 10.
Qed.

Lemma zone_valid_set_acoustic (z : Zone) (a : Q) :
  zone_valid z = true -> 0 <= a -> a <= 1 -> zone_valid (set_acoustic z a) = true.
Proof.
  unfold zone_valid. cbn [set_acoustic name volume_m3 usable_ratio acoustic_isolation].
  rewrite !andb_true_iff. intros [[[[[Hn Hv] Hu] Hu'] _] _] Ha Ha'.
  apply Qleb_le in Ha, Ha'. auto 10.
Qed.

Lemma total_volume_valid (zs : list Zone) :
  forallb zone_valid zs = true -> 0 <= total_volume zs /\ (zs <> [] -> 0 < total_volume zs).
Proof.
  induction zs as [|z zs IH]; intros Hall.
  - split; [unfold total_volume, fsum; cbn; lra | congruence].
  - cbn [forallb] in Hall. apply andb_true_iff in Hall. destruct Hall as [Hz Hzs].
    apply zone_valid_volume in Hz. destruct (IH Hzs) as [Hge _].
    rewrite total_volume_cons. split; [lra | intros _; lra].
Qed.

Lemma layout_valid_zones (l : Layout) (zs : list Zone) (v : Q) :
  layout_valid l = true -> forallb zone_valid zs = true -> 0 < v ->
  layout_valid (set_zones l zs v) = true.
Proof.
  unfold layout_valid. cbn [set_zones pressurized_volume_m3 zones systems
    shield_equivalent_g_cm2 isru_ratio docking_ports metadata].
  rewrite !andb_true_iff. intros Hl Hzs Hv. apply Qltb_lt in Hv. tauto.
Qed.

Lemma layout_valid_inv (l : Layout) :
  layout_valid l = true ->
  0 < pressurized_volume_m3 l /\ forallb zone_valid (zones l) = true.
Proof.
  unfold layout_valid. rewrite !andb_true_iff. intros Hl.
  split; [apply Qltb_lt|]; tauto.
Qed.

Section OptimizerReturns.
Context {H : Host} (laws : HostLaws H).

(** [Layout.parse_obj(layout.dict())] returns exactly for a valid layout, and
    its copy is valid and as readable as the layout. *)
Lemma copy_layout_ok (l : Layout) : is_ok (_copy_layout l) = layout_valid l.
Proof. unfold _copy_layout. destruct (layout_valid l); reflexivity. Qed.

Lemma copy_layout_inv (l l' : Layout) :
  _copy_layout l = Ok l' ->
  layout_valid l = true /\ layout_valid l' = true
  /\ layout_readable l' = layout_readable l.
Proof.
  unfold _copy_layout. destruct (layout_valid l) eqn:Hv; [|discriminate].
  intros E. injection E as <-. split; [reflexivity|]. split; [|reflexivity].
  destruct (layout_valid_inv _ Hv) as [Hp Hz].
  apply layout_valid_zones; [exact Hv | | exact Hp].
  clear -Hz. induction (zones l) as [|z zs IH]; [reflexivity|].
  cbn [forallb map] in *. apply andb_true_iff in Hz. destruct Hz as [Hz Hzs].
  rewrite (IH Hzs), andb_true_r. exact Hz.
Qed.

(** The operators keep a valid layout valid. *)
Lemma apply_op_valid (op : NeighborOp) (l l' : Layout) (r r' : rng) :
  layout_valid l = true -> apply_op op l r = Ok (l', r') -> layout_valid l' = true.
Proof.
  intros Hv Ha. destruct (layout_valid_inv _ Hv) as [Hp Hz].
  destruct op; cbn [apply_op] in Ha.
  - apply apply_adjust_zone_volume_inv in Ha.
    destruct Ha as [-> | (i & j & u & d & e & donor & receiver & r1 & Ha)];
      [exact Hv|].
    cbv zeta in Ha. destruct Ha as (_ & _ & Hu & _ & _ & Hd & He & ->).
    pose proof (uniform_range H laws 0.02 0.06 r1 ltac:(lra)) as [Hlo _].
    rewrite Hu in Hlo. cbn [fst] in Hlo.
    pose proof (forallb_lookup _ _ _ _ Hz Hd) as Hdv.
    pose proof (zone_valid_volume _ Hdv) as Hdpos.
    assert (Ht : 0 <= volume_m3 donor * u) by (apply Qmult_le_0_compat; lra).
    assert (Hz1 : forallb zone_valid
                    (<[d:=set_volume donor
                            (fmax (volume_m3 donor - volume_m3 donor * u) 5.0)]>
                       (zones l)) = true).
    { apply forallb_insert; [exact Hz|]. apply zone_valid_set_volume; [exact Hdv|].
      pose proof (fmax_spec (volume_m3 donor - volume_m3 donor * u) 5.0). lra. }
    pose proof (forallb_lookup _ _ _ _ Hz1 He) as Hrv.
    pose proof (zone_valid_volume _ Hrv) as Hrpos.
    match goal with
    | |- layout_valid (set_zones l ?zs2 _) = true =>
        assert (Hz2 : forallb zone_valid zs2 = true)
    end.
    { apply forallb_insert; [exact Hz1|]. apply zone_valid_set_volume; [exact Hrv|]. lra. }
    apply layout_valid_zones; [exact Hv | exact Hz2 |].
    apply (total_volume_valid _ Hz2). intros E.
    apply (f_equal (@length Zone)) in E. rewrite !length_insert in E.
    apply lookup_lt_Some in Hd. cbn [length] in E. lia.
  - apply apply_tune_systems_inv in Ha.
    destruct Ha as (water & autonomy & storage & Hlo & Hhi & _ & _ & ->).
    revert Hv. unfold layout_valid, systems_valid.
    cbn [set_systems pressurized_volume_m3 zones systems shield_equivalent_g_cm2
         isru_ratio docking_ports metadata eclss_redundancy_loops water_recycling_rate].
    rewrite !andb_true_iff. intros Hv.
    assert (H0 : Qleb 0 water = true) by (apply Qleb_le; lra).
    assert (H1 : Qleb water 1 = true) by (apply Qleb_le; lra).
    tauto.
  - apply apply_adjust_isru_inv in Ha. destruct Ha as (ratio & Hlo & Hhi & ->).
    revert Hv. unfold layout_valid.
    cbn [set_isru pressurized_volume_m3 zones systems shield_equivalent_g_cm2
         isru_ratio docking_ports metadata].
    rewrite !andb_true_iff. intros Hv.
    assert (H0 : Qleb 0 ratio = true) by (apply Qleb_le; lra).
    assert (H1 : Qleb ratio 1 = true) by (apply Qleb_le; lra).
    tauto.
  - apply apply_adjust_privacy_inv in Ha.
    destruct Ha as [-> | (t & zone & a & Hzt & _ & Hlo & Hhi & ->)]; [exact Hv|].
    apply layout_valid_zones; [exact Hv | | exact Hp].
    apply forallb_insert; [exact Hz|].
    apply zone_valid_set_acoustic; [exact (forallb_lookup _ _ _ _ Hz Hzt) | lra | lra].
Qed.

(** The operators keep a readable layout readable, and return on it. *)
Lemma apply_op_readable (op : NeighborOp) (l l' : Layout) (r r' : rng) :
  layout_readable l = true -> apply_op op l r = Ok (l', r') -> layout_readable l' = true.
Proof.
  intros Hr Ha. destruct op; cbn [apply_op] in Ha.
  - apply apply_adjust_zone_volume_inv in Ha.
    destruct Ha as [-> | (i & j & u & d & e & donor & receiver & r1 & Ha)];
      [exact Hr|].
    cbv zeta in Ha. destruct Ha as (_ & _ & _ & _ & _ & _ & _ & ->). exact Hr.
  - apply apply_tune_systems_inv in Ha.
    destruct Ha as (water & autonomy & storage & _ & _ & _ & _ & ->).
    revert Hr. unfold layout_readable, int_entry, float_entry.
    cbn [set_systems metadata systems power].
    rewrite lookup_insert_eq.
    rewrite (lookup_insert_ne _ "storage_kwh" "autonomy_days") by discriminate.
    rewrite lookup_insert_eq. cbn [py_int py_float is_ok].
    rewrite !andb_true_iff. tauto.
  - apply apply_adjust_isru_inv in Ha. destruct Ha as (ratio & _ & _ & ->). exact Hr.
  - apply apply_adjust_privacy_inv in Ha.
    destruct Ha as [-> | (t & zone & a & _ & _ & _ & _ & ->)]; exact Hr.
Qed.

Lemma apply_op_returns (op : NeighborOp) (l : Layout) (r : rng) :
  layout_readable l = true -> exists l' r', apply_op op l r = Ok (l', r').
Proof.
  intros Hr. destruct op; cbn [apply_op].
  - unfold apply_adjust_zone_volume. cbv zeta.
    repeat match goal with
           | |- context [if ?b then _ else _] => destruct b
           | |- context [let '(_, _) := ?p in _] => destruct p
           | |- context [match ?o with Some _ => _ | None => _ end] => destruct o
           end; eauto.
  - unfold layout_readable in Hr. rewrite !andb_true_iff in Hr.
    destruct Hr as [[_ Ha] Hs].
    rewrite <- (py_int_entry _ _ 14) in Ha.
    unfold apply_tune_systems. cbv zeta.
    destruct (rng_uniform (-0.02) 0.03 r) as [u r1].
    destruct (py_int _) as [autonomy|]; [|discriminate Ha].
    cbn [mbind result_bind].
    destruct (rng_randint (-1) 2 r1) as [k r2].
    assert (Hs' : is_ok (py_float
                     (dict_get (<["autonomy_days":=VInt (Z.max 14 (autonomy + k))]>
                                  (power (systems l)))
                               "storage_kwh" (VFloat 160.0))) = true).
    { rewrite py_float_entry. unfold float_entry in *.
      now rewrite lookup_insert_ne by discriminate. }
    destruct (py_float _) as [storage|]; [|discriminate Hs'].
    cbn [mbind result_bind].
    destruct (rng_uniform (-10) 15 r2) as [v r3]. eauto.
  - unfold apply_adjust_isru. destruct (rng_uniform (-0.05) 0.08 r). eauto.
  - unfold apply_adjust_privacy. cbv zeta.
    repeat match goal with
           | |- context [let '(_, _) := ?p in _] => destruct p
           | |- context [match ?o with Some _ => _ | None => _ end] => destruct o
           | |- context [match ?o with [] => _ | _ :: _ => _ end] => destruct o
           end; eauto.
Qed.

(** The state of the loop: a current layout that is valid and readable. *)
Definition state_sound (st : anneal_state) : Prop :=
  layout_valid (current st) = true /\ layout_readable (current st) = true.

Lemma propose_returns (cur : Layout) (r : rng) :
  layout_valid cur = true -> layout_readable cur = true ->
  exists op candidate r',
    propose cur r = Ok (op, candidate, r')
    /\ layout_valid candidate = true /\ layout_readable candidate = true.
Proof.
  intros Hv Hr. unfold propose.
  pose proof (copy_layout_ok cur) as Hc. rewrite Hv in Hc.
  destruct (_copy_layout cur) as [cand|] eqn:Ecopy; [|discriminate Hc].
  cbn [mbind result_bind].
  destruct (copy_layout_inv _ _ Ecopy) as (_ & Hv' & Hr'). rewrite Hr in Hr'.
  destruct (rng_choice (length NEIGHBOR_OPS) r) as [i r1].
  set (op := nth i NEIGHBOR_OPS _op_adjust_zone_volume).
  destruct (apply_op_returns op cand r1 Hr') as (cand' & r2 & Ha).
  rewrite Ha. cbn [mbind result_bind].
  exists op, cand', r2. split; [reflexivity|]. split.
  - exact (apply_op_valid _ _ _ _ _ Hv' Ha).
  - exact (apply_op_readable _ _ _ _ _ Hr' Ha).
Qed.

Variables (settings : ConstraintSettings) (weights : ScoreWeights) (iterations : Z).
Hypothesis usable : settings_usable settings weights = true.

Lemma anneal_step_returns (st : anneal_state) (step : Z) :
  state_sound st ->
  exists st', anneal_step settings weights iterations st step = Ok st' /\ state_sound st'.
Proof.
  intros [Hv Hr]. unfold anneal_step.
  destruct (propose_returns (current st) (st_rng st) Hv Hr)
    as (op & cand & r & -> & Hcv & Hcr).
  cbn [mbind result_bind].
  pose proof (evaluate_ok cand settings weights) as He. rewrite usable, Hcr in He.
  pose proof (validate_layout_ok cand settings) as Hval.
  unfold settings_usable in usable. rewrite !andb_true_iff in usable.
  destruct usable as [[[[_ Hpairs] _] _] _].
  unfold layout_readable in Hcr. rewrite !andb_true_iff in Hcr.
  destruct Hcr as [[[Hc Hd] Ha] Hs]. rewrite Hc, Hd, Ha, Hpairs in Hval.
  destruct (validate_layout cand (Some settings)) as [vr|]; [|discriminate Hval].
  cbn [mbind result_bind].
  destruct (negb (passed vr)).
  { eexists. split; [reflexivity|]. split; cbn [current]; [exact Hv | exact Hr]. }
  destruct (evaluate cand (Some settings) (Some weights)) as [[cm cs]|];
    [|discriminate He].
  cbn [mbind result_bind].
  destruct (accept_move _ _ r) as [accept r'].
  assert (Hcr : layout_readable cand = true).
  { unfold layout_readable. now rewrite Hc, Hd, Ha, Hs. }
  destruct accept.
  - destruct (Qltb (best_score st) cs).
    + pose proof (copy_layout_ok cand) as Hcopy. rewrite Hcv in Hcopy.
      destruct (_copy_layout cand) as [b|]; [|discriminate Hcopy].
      cbn [mbind result_bind]. eexists. split; [reflexivity|].
      split; cbn [current]; assumption.
    + eexists. split; [reflexivity|]. split; cbn [current]; assumption.
  - eexists. split; [reflexivity|]. split; cbn [current]; [exact Hv | exact Hr].
Qed.

Lemma anneal_loop_returns (steps : list Z) (st : anneal_state) :
  state_sound st ->
  exists st', anneal_loop settings weights iterations steps st = Ok st'.
Proof.
  revert st. induction steps as [|step steps IH]; intros st Hst; cbn [anneal_loop].
  - eauto.
  - destruct (anneal_step_returns st step Hst) as (st1 & -> & Hst1).
    cbn [mbind result_bind]. now apply IH.
Qed.

End OptimizerReturns.

(** On a host that keeps the promises of [random], the optimizer returns
    exactly when its seed converts, the input layout is valid, the settings
    and weights are usable and the layout is readable, whatever the number of
    iterations: once the initial layout has been scored, no iteration
    raises. *)
Theorem optimize_returns_iff (H : Host) (laws : HostLaws H) (layout : Layout)
    (iterations : Z) (settings : option ConstraintSettings)
    (weights : option ScoreWeights) (seed : option Z) :
  is_ok (optimize_layout layout iterations settings weights seed)
  = is_ok (rng_seed layout seed)
    && layout_valid layout
    && settings_usable (default default_settings settings)
                       (default default_weights weights)
    && layout_readable layout.
Proof.
  unfold optimize_layout. cbv zeta.
  set (s := default default_settings settings).
  set (w := default default_weights weights).
  unfold initial_state.
  destruct (rng_seed layout seed) as [sd|]; [|reflexivity].
  cbn [mbind result_bind is_ok andb].
  rewrite <- copy_layout_ok.
  destruct (_copy_layout layout) as [cur|] eqn:Hcopy; [|reflexivity].
  cbn [mbind result_bind is_ok andb].
  destruct (copy_layout_inv _ _ Hcopy) as (_ & Hv & Hr). rewrite <- Hr.
  rewrite <- evaluate_ok.
  destruct (evaluate cur (Some s) (Some w)) as [[cm cs]|] eqn:He; [|reflexivity].
  cbn [mbind result_bind is_ok].
  pose proof (evaluate_ok cur s w) as Hok. rewrite He in Hok. cbn [is_ok] in Hok.
  symmetry in Hok. apply andb_true_iff in Hok. destruct Hok as [Hus Hrd].
  pose proof (copy_layout_ok cur) as Hc. rewrite Hv in Hc.
  destruct (_copy_layout cur) as [b|]; [|discriminate Hc].
  cbn [mbind result_bind].
  match goal with
  | |- context [anneal_loop s w iterations ?steps ?st0] =>
      destruct (anneal_loop_returns laws s w iterations Hus steps st0) as [st ->]
  end.
  - split; cbn [current]; assumption.
  - reflexivity.
Qed.

(** The optimizer returns on the feasible layout for 3000 iterations. *)
Lemma optimize_returns_iff_witness :
  is_ok (optimize_layout (H:=model_host) baseline_layout 3000 None None (Some 5%Z)) = true.
Proof.
  rewrite (optimize_returns_iff model_host model_host_laws).
  vm_compute. reflexivity.
Defined.

(** ** The result of the optimizer is the evaluation of its layout *)

Section ResultEvaluated.
Context {H : Host}.
Hypothesis strip_idempotent : forall s, str_strip (str_strip s) = str_strip s.

(** A layout whose connection names are stripped already. *)
Definition stripped (l : Layout) : Prop :=
  Forall (fun c => map str_strip c = c) (map connections (zones l)).

Lemma copy_layout_stripped (l l' : Layout) : _copy_layout l = Ok l' -> stripped l'.
Proof.
  unfold _copy_layout. destruct (layout_valid l); [|discriminate].
  intros E. injection E as <-. unfold stripped. cbn [set_zones zones].
  induction (zones l) as [|z zs IH]; cbn [map]; constructor; [|exact IH].
  cbn [set_connections connections]. rewrite map_map.
  apply map_ext. intros s. apply strip_idempotent.
Qed.

Lemma strip_connections_id (zs : list Zone) :
  Forall (fun c => map str_strip c = c) (map connections zs) ->
  map (fun z => set_connections z (map str_strip (connections z))) zs = zs.
Proof.
  induction zs as [|z zs IH]; intros Hs; [reflexivity|].
  cbn [map] in *. inversion Hs as [|c cs Hc Hcs]; subst.
  rewrite (IH Hcs), Hc. f_equal. now destruct z.
Qed.

Lemma copy_of_stripped (l l' : Layout) : stripped l -> _copy_layout l = Ok l' -> l' = l.
Proof.
  unfold _copy_layout, stripped. intros Hs. destruct (layout_valid l); [|discriminate].
  intros E. injection E as <-.
  rewrite (strip_connections_id _ Hs). apply set_zones_id.
Qed.

Lemma skeleton_connections (l : Layout) :
  map connections (zones (layout_skeleton l)) = map connections (zones l).
Proof.
  unfold layout_skeleton. cbn [zones set_isru set_systems set_zones].
  induction (zones l) as [|z zs IH]; [reflexivity|].
  cbn [map]. now rewrite IH.
Qed.

Lemma apply_op_stripped (op : NeighborOp) (l l' : Layout) (r r' : rng) :
  stripped l -> apply_op op l r = Ok (l', r') -> stripped l'.
Proof.
  intros Hs Ha. apply apply_op_skeleton in Ha.
  unfold stripped. now rewrite <- (skeleton_connections l'), Ha, skeleton_connections.
Qed.

Lemma propose_inv (cur : Layout) (r : rng) (op : NeighborOp) (candidate : Layout)
    (r' : rng) :
  propose cur r = Ok (op, candidate, r') ->
  exists copy r1, _copy_layout cur = Ok copy /\ apply_op op copy r1 = Ok (candidate, r').
Proof.
  unfold propose. destruct (_copy_layout cur) as [copy|]; [|discriminate].
  cbn [mbind result_bind].
  destruct (rng_choice (length NEIGHBOR_OPS) r) as [i r1].
  destruct (apply_op _ copy r1) as [[cand r2]|] eqn:Ha; [|discriminate].
  cbn [mbind result_bind]. intros E. injection E as <- <- <-. eauto.
Qed.

Lemma evaluate_feasibility (l : Layout) (s : ConstraintSettings) (w : ScoreWeights)
    (m : Metrics) (sc : Q) (vr : ValidationResult) :
  evaluate l (Some s) (Some w) = Ok (m, sc) ->
  validate_layout l (Some s) = Ok vr ->
  feasibility m = passed vr.
Proof.
  unfold evaluate. cbv zeta. cbn [default from_option id]. intros He Hv.
  destruct (normalized w); [|discriminate]. cbn [mbind result_bind] in He.
  destruct (_transit_score l s); [|discriminate]. cbn [mbind result_bind] in He.
  destruct (_sustainability_score l s); [|discriminate]. cbn [mbind result_bind] in He.
  destruct (_energy_per_person_day l); [|discriminate]. cbn [mbind result_bind] in He.
  destruct (_safety_score l s); [|discriminate]. cbn [mbind result_bind] in He.
  rewrite Hv in He. cbn [mbind result_bind] in He.
  destruct (fdiv _ _); [|discriminate]. cbn [mbind result_bind] in He.
  injection He as <- _. reflexivity.
Qed.

Variables (settings : ConstraintSettings) (weights : ScoreWeights) (iterations : Z).

(** Both layouts of a state carry their own evaluation. *)
Definition state_evaluated (feasible : bool) (st : anneal_state) : Prop :=
  stripped (current st)
  /\ evaluate (current st) (Some settings) (Some weights)
     = Ok (current_metrics st, current_score st)
  /\ evaluate (best st) (Some settings) (Some weights)
     = Ok (best_metrics st, best_score st)
  /\ (feasible = true -> feasibility (best_metrics st) = true).

Lemma anneal_step_rel_evaluated (feasible : bool) (st st' : anneal_state) (step : Z) :
  anneal_step_rel settings weights iterations st step st' ->
  state_evaluated feasible st -> state_evaluated feasible st'.
Proof.
  intros Hs (Hst & Hcur & Hbest & Hf).
  assert (Hcand : forall op candidate r,
             propose (current st) (st_rng st) = Ok (op, candidate, r) ->
             stripped candidate).
  { intros op cand r Hp. destruct (propose_inv _ _ _ _ _ Hp) as (copy & r1 & Hc & Ha).
    apply (copy_of_stripped _ _ Hst) in Hc. subst copy.
    exact (apply_op_stripped _ _ _ _ _ Hst Ha). }
  destruct Hs; unfold state_evaluated;
    cbn [current current_metrics current_score best best_metrics best_score].
  - auto.
  - pose proof (Hcand _ _ _ ltac:(eassumption)) as Hsc.
    match goal with
    | Hc : _copy_layout candidate = Ok ?b |- _ =>
        apply (copy_of_stripped _ _ Hsc) in Hc; subst b
    end.
    repeat split; auto. intros _.
    erewrite evaluate_feasibility by eassumption. assumption.
  - pose proof (Hcand _ _ _ ltac:(eassumption)) as Hsc. auto.
  - auto.
Qed.

End ResultEvaluated.

(** Where stripping a name twice is stripping it once, the metrics and the
    score that the optimizer returns are the evaluation of the layout that it
    returns, the feasibility among the metrics is the validator's verdict on
    that layout, and the layout is feasible whenever the input layout is. *)
Theorem optimize_result_evaluated (H : Host)
    (strip_idempotent : forall s, str_strip (str_strip s) = str_strip s)
    (layout : Layout) (iterations : Z) (settings : option ConstraintSettings)
    (weights : option ScoreWeights) (seed : option Z) (res : OptimizationResult) :
  optimize_layout layout iterations settings weights seed = Ok res ->
  evaluate (result_layout res) settings weights
  = Ok (result_metrics res, result_score res)
  /\ (exists vr, validate_layout (result_layout res) settings = Ok vr
                 /\ passed vr = feasibility (result_metrics res))
  /\ (forall copy vr0,
        _copy_layout layout = Ok copy ->
        validate_layout copy settings = Ok vr0 ->
        passed vr0 = true ->
        feasibility (result_metrics res) = true).
Proof.
  intros Ho. apply optimize_layout_run in Ho. destruct Ho as [st0 st Hi Hr].
  cbn [result_layout result_metrics result_score].
  set (s := default default_settings settings) in *.
  set (w := default default_weights weights) in *.
  destruct (initial_state_inv _ _ _ _ _ _ Hi)
    as (sd & cur & _ & Hcopy & He & Hb & Hcur & Hcm & Hcs & _ & _).
  pose proof (copy_layout_stripped strip_idempotent _ _ Hcopy) as Hst.
  pose proof (copy_of_stripped _ _ Hst Hb) as Hbest.
  assert (H0 : state_evaluated s w (feasibility (best_metrics st0)) st0).
  { unfold state_evaluated. rewrite Hcur, Hcm, Hcs, Hbest. auto. }
  pose proof (anneal_run_invariant s w iterations _
                (fun st1 step st2 Hs =>
                   anneal_step_rel_evaluated s w iterations _ st1 st2 step Hs)
                _ _ _ Hr H0) as (_ & _ & Hev & Hf).
  assert (Hev' : evaluate (best st) settings weights = Ok (best_metrics st, best_score st)).
  { rewrite <- Hev. subst s w. destruct settings, weights; reflexivity. }
  split; [exact Hev'|]. split.
  - destruct (validate_layout (best st) (Some s)) as [vr|] eqn:Hv.
    + exists vr. rewrite <- (validate_layout_default H (best st) settings). fold s.
      split; [exact Hv|]. symmetry. exact (evaluate_feasibility _ _ _ _ _ _ Hev Hv).
    + exfalso. pose proof (validate_layout_ok (best st) s) as Hok.
      pose proof (evaluate_ok (best st) s w) as Heok.
      rewrite Hev in Heok. rewrite Hv in Hok. cbn [is_ok] in *.
      symmetry in Heok. unfold settings_usable, layout_readable in Heok.
      rewrite !andb_true_iff in Heok. symmetry in Hok. rewrite !andb_false_iff in Hok.
      intuition congruence.
  - intros copy vr0 Hc Hv0 Hp. apply Hf.
    rewrite Hcopy in Hc. injection Hc as <-.
    rewrite <- (validate_layout_default H cur settings) in Hv0. fold s in Hv0.
    rewrite (evaluate_feasibility _ _ _ _ _ _ He Hv0). exact Hp.
Qed.

Lemma optimize_result_evaluated_witness :
  exists res,
    optimize_layout (H:=model_host) baseline_layout 2 None None (Some 5%Z) = Ok res
    /\ evaluate (H:=model_host) (result_layout res) None None
       = Ok (result_metrics res, result_score res).
Proof.
  destruct baseline_run as [res Ho]. exists res. split; [exact Ho|].
  exact (proj1 (optimize_result_evaluated model_host (fun s => eq_refl)
                  _ _ _ _ _ res Ho)).
Defined.

(** ** The optimizer on a store of objects (claim C2)

    The functions above pass values.  The optimizer of the source works on
    objects: the operators write into the candidate they are given, [current =
    candidate] makes two names of one object, and the generator is an object
    that every draw advances.  Here the optimizer is written once more over a
    store of objects, statement by statement. *)

(** The objects that a call can reach or create: the layouts, each with the
    zones, the systems object and the dictionaries it owns, and the
    [random.Random] generators, among them the hidden instance behind the
    functions of the [random] module.  A reference is a position in its list;
    a new object is appended. *)
Record store {H : Host} : Type := {
  layout_objects : list Layout;
  generator_objects : list rng
}.

(** A statement: from a store to an outcome and the store it leaves; [None]
    is a reference to no object, which the language rules out. *)
Definition St {H : Host} (A : Type) : Type := store -> option (result A * store).

#[global] Instance St_ret {H : Host} : MRet St := fun A a w => Some (Ok a, w).

#[global] Instance St_bind {H : Host} : MBind St :=
  fun A B k m w =>
    match m w with
    | Some (Ok a, w') => k a w'
    | Some (Raise e, w') => Some (Raise e, w')
    | None => None
    end.

Section Store.
Context {H : Host}.

(** A computation that touches no object. *)
Definition pure_call {A : Type} (r : result A) : St A := fun w => Some (r, w).

Definition get_layout (l : nat) : St Layout :=
  fun w => match layout_objects w !! l with
           | Some x => Some (Ok x, w)
           | None => None
           end.

(** An assignment to fields of the layout object [l], or of objects it owns. *)
Definition set_layout (l : nat) (x : Layout) : St unit :=
  fun w => match layout_objects w !! l with
           | Some _ =>
               Some (Ok tt, {| layout_objects := <[l:=x]> (layout_objects w);
                               generator_objects := generator_objects w |})
           | None => None
           end.

Definition new_layout (x : Layout) : St nat :=
  fun w => Some (Ok (length (layout_objects w)),
                 {| layout_objects := layout_objects w ++ [x];
                    generator_objects := generator_objects w |}).

(** [random.Random(seed)] *)
Definition new_generator (seed : Z) : St nat :=
  fun w => Some (Ok (length (generator_objects w)),
                 {| layout_objects := layout_objects w;
                    generator_objects := generator_objects w ++ [Random seed] |}).

(** A method of the generator object [g]: it returns a value and advances
    the object. *)
Definition draw {A : Type} (g : nat) (method : rng -> A * rng) : St A :=
  fun w => match generator_objects w !! g with
           | Some r =>
               let '(a, r') := method r in
               Some (Ok a, {| layout_objects := layout_objects w;
                              generator_objects := <[g:=r']> (generator_objects w) |})
           | None => None
           end.

(** [Layout.parse_obj(layout.dict())]: a new object, which shares nothing
    with [layout]. *)
Definition _copy_layout_st (layout : nat) : St nat :=
  x ← get_layout layout;
  y ← pure_call (_copy_layout x);
  new_layout y.

(** [zone.field = ...] for the zone at position [d] of [layout.zones]. *)
Definition set_zone (layout d : nat) (update : Zone -> Zone) : St unit :=
  l ← get_layout layout;
  match zones l !! d with
  | Some z => set_layout layout
                (set_zones l (<[d := update z]> (zones l)) (pressurized_volume_m3 l))
  | None => mret tt
  end.

Definition _op_adjust_zone_volume_st (layout g : nat) : St unit :=
  l ← get_layout layout;
  let adjustable :=
    positions_where (fun z => negb (in_strs (name z) ["Airlock"; "StormShelter"]))
                    (zones l) in
  if (length adjustable <? 2)%nat then mret tt
  else
    '(i, j) ← draw g (rng_sample2 (length adjustable));
    u ← draw g (rng_uniform 0.02 0.06);
    match adjustable !! i, adjustable !! j with
    | Some d, Some e =>
        match zones l !! d with
        | Some donor =>
            let transfer := volume_m3 donor * u in
            set_zone layout d
              (fun z => set_volume z (fmax (volume_m3 z - transfer) 5.0));;
            set_zone layout e (fun z => set_volume z (volume_m3 z + transfer));;
            l' ← get_layout layout;
            set_layout layout (set_zones l' (zones l') (total_volume (zones l')))
        | None => mret tt
        end
    | _, _ => mret tt
    end.

Definition _op_tune_systems_st (layout g : nat) : St unit :=
  l ← get_layout layout;
  u ← draw g (rng_uniform (-0.02) 0.03);
  let sys := systems l in
  let sys1 := {| eclss_redundancy_loops := eclss_redundancy_loops sys;
                 water_recycling_rate :=
                   fmin 0.99 (fmax 0.9 (water_recycling_rate sys + u));
                 power := power sys;
                 dust_mitigation := dust_mitigation sys |} in
  set_layout layout (set_systems l sys1);;
  autonomy ← pure_call (py_int (dict_get (power sys1) "autonomy_days" (VInt 14)));
  k ← draw g (rng_randint (-1) 2);
  let autonomy := Z.max 14 (autonomy + k) in
  let sys2 := {| eclss_redundancy_loops := eclss_redundancy_loops sys1;
                 water_recycling_rate := water_recycling_rate sys1;
                 power := <["autonomy_days" := VInt autonomy]> (power sys1);
                 dust_mitigation := dust_mitigation sys1 |} in
  set_layout layout (set_systems l sys2);;
  storage ← pure_call (py_float (dict_get (power sys2) "storage_kwh" (VFloat 160.0)));
  v ← draw g (rng_uniform (-10) 15);
  let sys3 := {| eclss_redundancy_loops := eclss_redundancy_loops sys2;
                 water_recycling_rate := water_recycling_rate sys2;
                 power := <["storage_kwh" := VFloat (fmax 120.0 (storage + v))]>
                            (power sys2);
                 dust_mitigation := dust_mitigation sys2 |} in
  set_layout layout (set_systems l sys3).

Definition _op_adjust_isru_st (layout g : nat) : St unit :=
  delta ← draw g (rng_uniform (-0.05) 0.08);
  l ← get_layout layout;
  set_layout layout (set_isru l (fmin 1.0 (fmax 0.4 (isru_ratio l + delta)))).

Definition _op_adjust_privacy_st (layout g : nat) : St unit :=
  l ← get_layout layout;
  let targets :=
    positions_where (fun z => in_strs (name z) ["Work"; "Exercise"; "GalleyDining"])
                    (zones l) in
  match targets with
  | [] => mret tt
  | _ :: _ =>
      i ← draw g (rng_choice (length targets));
      u ← draw g (rng_uniform (-0.05) 0.1);
      match targets !! i with
      | Some t =>
          set_zone layout t
            (fun z => set_acoustic z (fmin 1.0 (fmax 0.3 (acoustic_isolation z + u))))
      | None => mret tt
      end
  end.

(** [op(candidate, rng)] *)
Definition apply_op_st (op : NeighborOp) : nat -> nat -> St unit :=
  match op with
  | _op_adjust_zone_volume => _op_adjust_zone_volume_st
  | _op_tune_systems => _op_tune_systems_st
  | _op_adjust_isru => _op_adjust_isru_st
  | _op_adjust_privacy => _op_adjust_privacy_st
  end.

(** The local variables of the loop: [current] and [best] are references. *)
Record anneal_refs : Type := {
  current_ref : nat;
  current_metrics_of : Metrics;
  current_score_of : Q;
  best_ref : nat;
  best_metrics_of : Metrics;
  best_score_of : Q;
  history_of : list OptimizationLogEntry
}.

(** [delta >= 0 or rng.random() < math.exp(...)] *)
Definition accept_move_st (delta temp : Q) (g : nat) : St bool :=
  if Qleb 0 delta then mret true
  else
    x ← draw g rng_random;
    mret (Qltb x (math_exp (delta / fmax temp 1e-6))).

(** One turn of the loop of [optimize_layout]. *)
Definition anneal_step_st (settings : ConstraintSettings) (weights : ScoreWeights)
    (iterations : Z) (g : nat) (st : anneal_refs) (step : Z) : St anneal_refs :=
  candidate ← _copy_layout_st (current_ref st);
  i ← draw g (rng_choice (length NEIGHBOR_OPS));
  let op := nth i NEIGHBOR_OPS _op_adjust_zone_volume in
  apply_op_st op candidate g;;
  cand ← get_layout candidate;
  validation ← pure_call (validate_layout cand (Some settings));
  if negb (passed validation) then
    mret {| current_ref := current_ref st;
            current_metrics_of := current_metrics_of st;
            current_score_of := current_score_of st;
            best_ref := best_ref st;
            best_metrics_of := best_metrics_of st;
            best_score_of := best_score_of st;
            history_of := history_of st ++
              [{| iteration := step; score := current_score_of st; accepted := false;
                  reason := "constraint_fail:" +:+ join_comma (failed_rules validation) |}] |}
  else
    '(candidate_metrics, candidate_score) ←
      pure_call (evaluate cand (Some settings) (Some weights));
    let delta := candidate_score - current_score_of st in
    accept ← accept_move_st delta (temperature step iterations) g;
    if accept : bool then
      let entry := {| iteration := step; score := candidate_score; accepted := true;
                      reason := op_name op |} in
      if Qltb (best_score_of st) candidate_score then
        best' ← _copy_layout_st candidate;
        mret {| current_ref := candidate;
                current_metrics_of := candidate_metrics;
                current_score_of := candidate_score;
                best_ref := best';
                best_metrics_of := candidate_metrics;
                best_score_of := candidate_score;
                history_of := history_of st ++ [entry] |}
      else
        mret {| current_ref := candidate;
                current_metrics_of := candidate_metrics;
                current_score_of := candidate_score;
                best_ref := best_ref st;
                best_metrics_of := best_metrics_of st;
                best_score_of := best_score_of st;
                history_of := history_of st ++ [entry] |}
    else
      mret {| current_ref := current_ref st;
              current_metrics_of := current_metrics_of st;
              current_score_of := current_score_of st;
              best_ref := best_ref st;
              best_metrics_of := best_metrics_of st;
              best_score_of := best_score_of st;
              history_of := history_of st ++
                [{| iteration := step; score := current_score_of st; accepted := false;
                    reason := "anneal_reject" |}] |}.

Fixpoint anneal_loop_st (settings : ConstraintSettings) (weights : ScoreWeights)
    (iterations : Z) (g : nat) (steps : list Z) (st : anneal_refs) : St anneal_refs :=
  match steps with
  | [] => mret st
  | step :: rest =>
      st' ← anneal_step_st settings weights iterations g st step;
      anneal_loop_st settings weights iterations g rest st'
  end.

(** [optimize_layout(layout, iterations, settings, weights, seed)], called
    with a reference to the layout; the result holds the best layout as it is
    when the call returns. *)
Definition optimize_layout_st (layout : nat) (iterations : Z)
    (settings : option ConstraintSettings) (weights : option ScoreWeights)
    (seed : option Z) : St OptimizationResult :=
  let settings := default default_settings settings in
  let weights := default default_weights weights in
  x ← get_layout layout;
  s ← pure_call (rng_seed x seed);
  g ← new_generator s;
  current ← _copy_layout_st layout;
  cur ← get_layout current;
  '(cur_metrics, cur_score) ← pure_call (evaluate cur (Some settings) (Some weights));
  best0 ← _copy_layout_st current;
  st ← anneal_loop_st settings weights iterations g (step_range iterations)
         {| current_ref := current;
            current_metrics_of := cur_metrics;
            current_score_of := cur_score;
            best_ref := best0;
            best_metrics_of := cur_metrics;
            best_score_of := cur_score;
            history_of := [ {| iteration := 0; score := cur_score; accepted := true;
                               reason := "initial" |} ] |};
  best_layout ← get_layout (best_ref st);
  mret {| result_layout := best_layout;
          result_metrics := best_metrics_of st;
          result_score := best_score_of st;
          result_history := history_of st |}.

End Store.

(** *** The store model runs the functions of the value model *)

Section StoreSimulation.
Context {H : Host}.

Definition with_layout (c : nat) (x : Layout) (w : store) : store :=
  {| layout_objects := <[c:=x]> (layout_objects w);
     generator_objects := generator_objects w |}.

Definition with_generator (g : nat) (r : rng) (w : store) : store :=
  {| layout_objects := layout_objects w;
     generator_objects := <[g:=r]> (generator_objects w) |}.

Lemma bind_ok {A B : Type} (m : St A) (k : A -> St B) (w w1 : store) (a : A)
    (out : result B * store) :
  m w = Some (Ok a, w1) -> k a w1 = Some out -> (m ≫= k) w = Some out.
Proof. intros Hm Hk. unfold mbind, St_bind. now rewrite Hm. Qed.

Lemma bind_raise {A B : Type} (m : St A) (k : A -> St B) (w w1 : store) (e : exn) :
  m w = Some (Raise e, w1) -> (m ≫= k) w = Some (Raise e, w1).
Proof. intros Hm. unfold mbind, St_bind. now rewrite Hm. Qed.

Lemma get_layout_eq (l : nat) (w : store) (x : Layout) :
  layout_objects w !! l = Some x -> get_layout l w = Some (Ok x, w).
Proof. intros Hl. unfold get_layout. now rewrite Hl. Qed.

Lemma set_layout_eq (l : nat) (w : store) (x y : Layout) :
  layout_objects w !! l = Some y -> set_layout l x w = Some (Ok tt, with_layout l x w).
Proof. intros Hl. unfold set_layout. now rewrite Hl. Qed.

Lemma draw_eq {A : Type} (g : nat) (method : rng -> A * rng) (w : store) (r r' : rng)
    (a : A) :
  generator_objects w !! g = Some r -> method r = (a, r') ->
  draw g method w = Some (Ok a, with_generator g r' w).
Proof. intros Hg Hm. unfold draw. now rewrite Hg, Hm. Qed.

Lemma lookup_with_layout (c : nat) (x y : Layout) (w : store) :
  layout_objects w !! c = Some y -> layout_objects (with_layout c x w) !! c = Some x.
Proof. intros Hl. cbn. apply list_lookup_insert_eq. eapply lookup_lt_Some, Hl. Qed.

Lemma lookup_with_generator (g : nat) (r r' : rng) (w : store) :
  generator_objects w !! g = Some r' ->
  generator_objects (with_generator g r w) !! g = Some r.
Proof. intros Hl. cbn. apply list_lookup_insert_eq. eapply lookup_lt_Some, Hl. Qed.

(** Nothing but the layout [c] and the generator [g] is written, and nothing
    is created. *)
Definition touched_only (c g : nat) (w w' : store) : Prop :=
  length (layout_objects w') = length (layout_objects w)
  /\ length (generator_objects w') = length (generator_objects w)
  /\ (forall k, k <> c -> layout_objects w' !! k = layout_objects w !! k)
  /\ (forall k, k <> g -> generator_objects w' !! k = generator_objects w !! k).

Lemma touched_only_refl (c g : nat) (w : store) : touched_only c g w w.
Proof. repeat split. Qed.

Lemma touched_only_trans (c g : nat) (w1 w2 w3 : store) :
  touched_only c g w1 w2 -> touched_only c g w2 w3 -> touched_only c g w1 w3.
Proof.
  intros (L1 & G1 & A1 & B1) (L2 & G2 & A2 & B2). repeat split; try congruence.
  - intros k Hk. now rewrite A2, A1.
  - intros k Hk. now rewrite B2, B1.
Qed.

Lemma touched_only_layout (c g : nat) (x : Layout) (w : store) :
  touched_only c g w (with_layout c x w).
Proof.
  repeat split; cbn; [apply length_insert|].
  intros k Hk. apply list_lookup_insert_ne. congruence.
Qed.

Lemma touched_only_generator (c g : nat) (r : rng) (w : store) :
  touched_only c g w (with_generator g r w).
Proof.
  repeat split; cbn; [apply length_insert|].
  intros k Hk. apply list_lookup_insert_ne. congruence.
Qed.

(** What a run of a statement on the layout [c] and the generator [g] has to
    show: it ends, writes nothing else, and leaves the outcome, the layout
    and the generator of the function of the value model. *)
Definition runs_as (c g : nat) (m : St unit) (w : store)
    (pure : result (Layout * rng)) : Prop :=
  exists res w',
    m w = Some (res, w') /\ touched_only c g w w'
    /\ match pure with
       | Ok (l', r') =>
           res = Ok tt /\ layout_objects w' !! c = Some l'
           /\ generator_objects w' !! g = Some r'
       | Raise e => res = Raise e
       end.

Lemma get_layout_bind {B : Type} (c : nat) (k : Layout -> St B) (w : store)
    (l : Layout) :
  layout_objects w !! c = Some l -> (get_layout c ≫= k) w = k l w.
Proof. intros Hl. unfold mbind, St_bind, get_layout. now rewrite Hl. Qed.

Lemma set_layout_bind {B : Type} (c : nat) (x y : Layout) (k : unit -> St B)
    (w : store) :
  layout_objects w !! c = Some y ->
  (set_layout c x ≫= k) w = k tt (with_layout c x w).
Proof. intros Hl. unfold mbind, St_bind, set_layout. now rewrite Hl. Qed.

Lemma draw_bind {A B : Type} (g : nat) (method : rng -> A * rng) (k : A -> St B)
    (w : store) (r r' : rng) (a : A) :
  generator_objects w !! g = Some r -> method r = (a, r') ->
  (draw g method ≫= k) w = k a (with_generator g r' w).
Proof. intros Hg Hm. unfold mbind, St_bind, draw. now rewrite Hg, Hm. Qed.

Lemma pure_call_bind {A B : Type} (r : result A) (k : A -> St B) (w : store) :
  (pure_call r ≫= k) w
  = match r with Ok a => k a w | Raise e => Some (Raise e, w) end.
Proof. unfold mbind, St_bind, pure_call. now destruct r. Qed.

Lemma set_zone_eq (c d : nat) (update : Zone -> Zone) (w : store) (l : Layout) :
  layout_objects w !! c = Some l ->
  set_zone c d update w
  = Some (Ok tt,
          match zones l !! d with
          | Some z => with_layout c (set_zones l (<[d := update z]> (zones l))
                                       (pressurized_volume_m3 l)) w
          | None => w
          end).
Proof.
  intros Hl. unfold set_zone. rewrite (get_layout_bind _ _ _ _ Hl).
  destruct (zones l !! d); [eapply set_layout_eq, Hl | reflexivity].
Qed.

Lemma set_zone_bind {B : Type} (c d : nat) (update : Zone -> Zone) (k : unit -> St B)
    (w : store) (l : Layout) :
  layout_objects w !! c = Some l ->
  (set_zone c d update ≫= k) w
  = k tt match zones l !! d with
         | Some z => with_layout c (set_zones l (<[d := update z]> (zones l))
                                      (pressurized_volume_m3 l)) w
         | None => w
         end.
Proof.
  intros Hl. unfold mbind, St_bind. now rewrite (set_zone_eq _ _ _ _ _ Hl).
Qed.

Ltac touched :=
  repeat match goal with
         | |- touched_only _ _ ?w ?w => apply touched_only_refl
         | |- touched_only _ _ ?w (with_layout _ _ ?W) =>
             apply (touched_only_trans _ _ w W); [|apply touched_only_layout]
         | |- touched_only _ _ ?w (with_generator _ _ ?W) =>
             apply (touched_only_trans _ _ w W); [|apply touched_only_generator]
         end.

Ltac look :=
  cbn [layout_objects generator_objects with_layout with_generator];
  first [ eassumption
        | apply list_lookup_insert_eq; rewrite ?length_insert;
          eapply lookup_lt_Some; eassumption ].

(** The end of a run that succeeds. *)
Lemma runs_as_done (c g : nat) (w w' : store) (l' : Layout) (r' : rng) :
  touched_only c g w w' ->
  layout_objects w' !! c = Some l' ->
  generator_objects w' !! g = Some r' ->
  exists res w'',
    Some (Ok tt, w') = Some (res, w'') /\ touched_only c g w w''
    /\ res = Ok tt /\ layout_objects w'' !! c = Some l'
    /\ generator_objects w'' !! g = Some r'.
Proof. intros. eexists _, _. split; [reflexivity|]. auto. Qed.

Lemma isru_runs (c g : nat) (w : store) (l : Layout) (r : rng) :
  layout_objects w !! c = Some l -> generator_objects w !! g = Some r ->
  runs_as c g (_op_adjust_isru_st c g) w (apply_adjust_isru l r).
Proof.
  intros Hl Hg. unfold runs_as, _op_adjust_isru_st, apply_adjust_isru.
  destruct (rng_uniform (-0.05) 0.08 r) as [delta r1] eqn:Hu.
  rewrite (draw_bind _ _ _ _ _ _ _ Hg Hu).
  rewrite (get_layout_bind _ _ _ l) by look.
  rewrite (set_layout_eq c _ _ l) by look.
  apply runs_as_done; [touched | look | look].
Qed.

Lemma privacy_runs (c g : nat) (w : store) (l : Layout) (r : rng) :
  layout_objects w !! c = Some l -> generator_objects w !! g = Some r ->
  runs_as c g (_op_adjust_privacy_st c g) w (apply_adjust_privacy l r).
Proof.
  intros Hl Hg. unfold runs_as, _op_adjust_privacy_st, apply_adjust_privacy. cbv zeta.
  rewrite (get_layout_bind _ _ _ _ Hl).
  destruct (positions_where _ (zones l)) as [|t0 ts] eqn:Ht.
  { apply runs_as_done; [touched | look | look]. }
  destruct (rng_choice (length (t0 :: ts)) r) as [i r1] eqn:Hc.
  destruct (rng_uniform (-0.05) 0.1 r1) as [u r2] eqn:Hu.
  rewrite (draw_bind _ _ _ _ _ _ _ Hg Hc).
  erewrite (draw_bind g _ _ _ r1) by (first [exact Hu | look]).
  destruct ((t0 :: ts) !! i) as [t|].
  - erewrite set_zone_eq by look.
    destruct (zones l !! t) as [zone|]; apply runs_as_done; [touched | look | look | touched | look | look].
  - apply runs_as_done; [touched | look | look].
Qed.

Lemma zone_volume_runs (c g : nat) (w : store) (l : Layout) (r : rng) :
  layout_objects w !! c = Some l -> generator_objects w !! g = Some r ->
  runs_as c g (_op_adjust_zone_volume_st c g) w (apply_adjust_zone_volume l r).
Proof.
  intros Hl Hg.
  unfold runs_as, _op_adjust_zone_volume_st, apply_adjust_zone_volume. cbv zeta.
  rewrite (get_layout_bind _ _ _ _ Hl).
  set (adjustable := positions_where _ (zones l)).
  destruct (length adjustable <? 2)%nat eqn:Hlen.
  { apply runs_as_done; [touched | look | look]. }
  destruct (rng_sample2 (length adjustable) r) as [[i j] r1] eqn:Hs.
  destruct (rng_uniform 0.02 0.06 r1) as [u r2] eqn:Hu.
  rewrite (draw_bind _ _ _ _ _ _ _ Hg Hs).
  erewrite (draw_bind g _ _ _ r1) by (first [exact Hu | look]).
  destruct (adjustable !! i) as [d|] eqn:Hd;
    [|apply runs_as_done; [touched | look | look]].
  destruct (adjustable !! j) as [e|] eqn:He;
    [|apply runs_as_done; [touched | look | look]].
  destruct (positions_where_lookup _ _ _ _ Hd) as (donor & Hdonor & _).
  destruct (positions_where_lookup _ _ _ _ He) as (target & Htarget & _).
  rewrite Hdonor.
  set (transfer := volume_m3 donor * u).
  set (zs1 := <[d:=set_volume donor (fmax (volume_m3 donor - transfer) 5.0)]> (zones l)).
  assert (Hrc : exists receiver, zs1 !! e = Some receiver).
  { apply lookup_lt_is_Some. subst zs1. rewrite length_insert.
    eapply lookup_lt_Some, Htarget. }
  destruct Hrc as [receiver Hrc]. rewrite Hrc.
  set (l1 := set_zones l zs1 (pressurized_volume_m3 l)).
  rewrite (set_zone_bind _ _ _ _ _ l) by look. rewrite Hdonor. fold zs1 l1.
  rewrite (set_zone_bind _ _ _ _ _ l1) by look.
  change (zones l1) with zs1. rewrite Hrc.
  erewrite get_layout_bind by look.
  erewrite set_layout_eq by look.
  apply runs_as_done; [touched | look | look].
Qed.

Lemma tune_systems_runs (c g : nat) (w : store) (l : Layout) (r : rng) :
  layout_objects w !! c = Some l -> generator_objects w !! g = Some r ->
  runs_as c g (_op_tune_systems_st c g) w (apply_tune_systems l r).
Proof.
  intros Hl Hg. unfold runs_as, _op_tune_systems_st, apply_tune_systems. cbv zeta.
  rewrite (get_layout_bind _ _ _ _ Hl).
  destruct (rng_uniform (-0.02) 0.03 r) as [u r1] eqn:Hu.
  rewrite (draw_bind _ _ _ _ _ _ _ Hg Hu).
  erewrite set_layout_bind by look.
  rewrite pure_call_bind. cbn [power].
  destruct (py_int (dict_get (power (systems l)) "autonomy_days" (VInt 14)))
    as [autonomy|e].
  2:{ cbn [mbind result_bind]. eexists _, _. split; [reflexivity|].
      split; [touched | reflexivity]. }
  cbn [mbind result_bind].
  destruct (rng_randint (-1) 2 r1) as [k r2] eqn:Hk.
  erewrite (draw_bind g _ _ _ r1) by (first [exact Hk | look]).
  erewrite set_layout_bind by look.
  rewrite pure_call_bind. cbn [power].
  destruct (py_float _) as [storage|e].
  2:{ cbn [mbind result_bind]. eexists _, _. split; [reflexivity|].
      split; [touched | reflexivity]. }
  cbn [mbind result_bind].
  destruct (rng_uniform (-10) 15 r2) as [v r3] eqn:Hv.
  erewrite (draw_bind g _ _ _ r2) by (first [exact Hv | look]).
  erewrite set_layout_eq by look.
  apply runs_as_done; [touched | look | look].
Qed.

Lemma apply_op_runs (op : NeighborOp) (c g : nat) (w : store) (l : Layout) (r : rng) :
  layout_objects w !! c = Some l -> generator_objects w !! g = Some r ->
  runs_as c g (apply_op_st op c g) w (apply_op op l r).
Proof.
  intros Hl Hg. destruct op; cbn [apply_op_st apply_op].
  - now apply zone_volume_runs.
  - now apply tune_systems_runs.
  - now apply isru_runs.
  - now apply privacy_runs.
Qed.

(** Existing layouts are never written, and of the generators only [g]
    is; new objects may have been created. *)
Definition frame (g : nat) (w w' : store) : Prop :=
  (forall k x, layout_objects w !! k = Some x -> layout_objects w' !! k = Some x)
  /\ (forall k r, k <> g -> generator_objects w !! k = Some r ->
                  generator_objects w' !! k = Some r)
  /\ (length (generator_objects w) <= length (generator_objects w'))%nat.

Lemma frame_refl (g : nat) (w : store) : frame g w w.
Proof. repeat split; auto. Qed.

Lemma frame_trans (g : nat) (w1 w2 w3 : store) :
  frame g w1 w2 -> frame g w2 w3 -> frame g w1 w3.
Proof.
  intros (A1 & B1 & C1) (A2 & B2 & C2). repeat split; [auto | auto | lia].
Qed.

Definition alloc_layout (y : Layout) (w : store) : store :=
  {| layout_objects := layout_objects w ++ [y];
     generator_objects := generator_objects w |}.

Lemma frame_alloc (g : nat) (y : Layout) (w : store) : frame g w (alloc_layout y w).
Proof.
  repeat split; cbn; auto. intros k x Hk. now apply lookup_app_l_Some.
Qed.

Lemma frame_generator (g : nat) (r : rng) (w : store) :
  frame g w (with_generator g r w).
Proof.
  split; [|split]; cbn.
  - auto.
  - intros k r0 Hk Hr. rewrite list_lookup_insert_ne by congruence. exact Hr.
  - rewrite length_insert. lia.
Qed.

Lemma lookup_alloc (y : Layout) (w : store) :
  layout_objects (alloc_layout y w) !! length (layout_objects w) = Some y.
Proof. cbn. apply list_lookup_middle. reflexivity. Qed.

Lemma frame_touched (c g : nat) (w w' : store) :
  layout_objects w !! c = None -> touched_only c g w w' -> frame g w w'.
Proof.
  intros Hc (L & G & A & B). repeat split.
  - intros k x Hk. rewrite A; [exact Hk | congruence].
  - intros k r Hk Hr. now rewrite B.
  - lia.
Qed.

(** A write to the layout [c] that did not exist in [w0] keeps the frame of
    [w0]. *)
Lemma frame_step (c g : nat) (w0 w w' : store) :
  layout_objects w0 !! c = None -> frame g w0 w -> touched_only c g w w' ->
  frame g w0 w'.
Proof.
  intros Hc (A0 & B0 & C0) (L & G & A & B). repeat split.
  - intros k x Hk. rewrite A; [now apply A0 | congruence].
  - intros k r Hk Hr. rewrite B by exact Hk. now apply B0.
  - lia.
Qed.

Lemma copy_layout_bind {B : Type} (c : nat) (k : nat -> St B) (w : store) (x : Layout) :
  layout_objects w !! c = Some x ->
  (_copy_layout_st c ≫= k) w
  = match _copy_layout x with
    | Ok y => k (length (layout_objects w)) (alloc_layout y w)
    | Raise e => Some (Raise e, w)
    end.
Proof.
  intros Hc. unfold _copy_layout_st, mbind at 1, St_bind.
  rewrite (get_layout_bind _ _ _ _ Hc), pure_call_bind.
  destruct (_copy_layout x); reflexivity.
Qed.

Lemma accept_move_runs (delta temp : Q) (g : nat) (w : store) (r : rng) :
  generator_objects w !! g = Some r ->
  exists w',
    accept_move_st delta temp g w = Some (Ok (fst (accept_move delta temp r)), w')
    /\ layout_objects w' = layout_objects w
    /\ frame g w w'
    /\ generator_objects w' !! g = Some (snd (accept_move delta temp r)).
Proof.
  intros Hg. unfold accept_move_st, accept_move. destruct (Qleb 0 delta).
  - exists w. split; [reflexivity|]. split; [reflexivity|].
    split; [apply frame_refl | exact Hg].
  - destruct (rng_random r) as [x r1] eqn:Hx.
    exists (with_generator g r1 w). split.
    + rewrite (draw_bind _ _ _ _ _ _ _ Hg Hx). reflexivity.
    + split; [reflexivity|]. split; [apply frame_generator|].
      cbn. apply list_lookup_insert_eq. eapply lookup_lt_Some, Hg.
Qed.

(** The references of the loop against the values of the value model. *)
Definition refs_agree (w : store) (g : nat) (sst : anneal_refs) (st : anneal_state)
    : Prop :=
  layout_objects w !! current_ref sst = Some (current st)
  /\ layout_objects w !! best_ref sst = Some (best st)
  /\ generator_objects w !! g = Some (st_rng st)
  /\ current_metrics_of sst = current_metrics st
  /\ current_score_of sst = current_score st
  /\ best_metrics_of sst = best_metrics st
  /\ best_score_of sst = best_score st
  /\ history_of sst = history st.

Section Steps.
Variables (settings : ConstraintSettings) (weights : ScoreWeights) (iterations : Z).

Lemma anneal_step_st_sim (g : nat) (sst : anneal_refs) (st : anneal_state) (step : Z)
    (w : store) :
  refs_agree w g sst st ->
  exists out w',
    anneal_step_st settings weights iterations g sst step w = Some (out, w')
    /\ frame g w w'
    /\ match anneal_step settings weights iterations st step with
       | Ok st' => exists sst', out = Ok sst' /\ refs_agree w' g sst' st'
       | Raise e => out = Raise e
       end.
Proof.
  intros (Hcur & Hbest & Hg & Hcm & Hcs & Hbm & Hbs & Hh).
  unfold anneal_step_st, anneal_step, propose.
  rewrite (copy_layout_bind _ _ _ _ Hcur).
  destruct (_copy_layout (current st)) as [copy|e]; cbn [mbind result_bind].
  2:{ eexists _, _. split; [reflexivity|]. split; [apply frame_refl | reflexivity]. }
  set (c := length (layout_objects w)).
  assert (Hfresh : layout_objects w !! c = None) by (apply lookup_ge_None; subst c; lia).
  set (w1 := alloc_layout copy w).
  destruct (rng_choice (length NEIGHBOR_OPS) (st_rng st)) as [i r1] eqn:Hch.
  rewrite (draw_bind g _ _ w1 _ _ _ Hg Hch).
  set (op := nth i NEIGHBOR_OPS _op_adjust_zone_volume).
  set (w2 := with_generator g r1 w1).
  assert (Hc2 : layout_objects w2 !! c = Some copy) by apply lookup_alloc.
  assert (Hg2 : generator_objects w2 !! g = Some r1).
  { subst w2. cbn. apply list_lookup_insert_eq. eapply lookup_lt_Some, Hg. }
  assert (F2 : frame g w w2).
  { eapply frame_trans; [apply frame_alloc | apply frame_generator]. }
  destruct (apply_op_runs op c g w2 copy r1 Hc2 Hg2) as (res & w3 & Hrun & Ht3 & Hres).
  unfold mbind at 1, St_bind. rewrite Hrun.
  pose proof (frame_step c g w w2 w3 Hfresh F2 Ht3) as F3.
  destruct (apply_op op copy r1) as [[cand r2]|e]; cbn [mbind result_bind].
  2:{ subst res. eexists _, _. split; [reflexivity|]. split; [exact F3 | reflexivity]. }
  destruct Hres as (-> & Hc3 & Hg3).
  rewrite (get_layout_bind _ _ _ _ Hc3), pure_call_bind.
  destruct (validate_layout cand (Some settings)) as [vr|e]; cbn [mbind result_bind].
  2:{ eexists _, _. split; [reflexivity|]. split; [exact F3 | reflexivity]. }
  destruct (negb (passed vr)).
  { eexists _, _. split; [reflexivity|]. split; [exact F3|].
    eexists. split; [reflexivity|].
    destruct F3 as (A3 & _). unfold refs_agree, log. cbn.
    rewrite Hcs, Hh. auto 10. }
  rewrite pure_call_bind.
  destruct (evaluate cand (Some settings) (Some weights)) as [[cm cs]|e];
    cbn [mbind result_bind].
  2:{ eexists _, _. split; [reflexivity|]. split; [exact F3 | reflexivity]. }
  rewrite Hcs.
  destruct (accept_move_runs (cs - current_score st) (temperature step iterations) g
              w3 r2 Hg3) as (w4 & Hrun4 & Hl4 & F4 & Hg4).
  unfold mbind at 1, St_bind. rewrite Hrun4.
  pose proof (frame_trans _ _ _ _ F3 F4) as F34.
  assert (Hc4 : layout_objects w4 !! c = Some cand) by (rewrite Hl4; exact Hc3).
  destruct (accept_move (cs - current_score st) (temperature step iterations) r2)
    as [accept r3].
  cbn [fst snd] in *. destruct accept.
  - rewrite Hbs. destruct (Qltb (best_score st) cs).
    + rewrite (copy_layout_bind _ _ _ _ Hc4).
      destruct (_copy_layout cand) as [b|e]; cbn [mbind result_bind].
      2:{ eexists _, _. split; [reflexivity|]. split; [exact F34 | reflexivity]. }
      eexists _, _. split; [reflexivity|].
      split; [eapply frame_trans; [exact F34 | apply frame_alloc]|].
      eexists. split; [reflexivity|]. unfold refs_agree, log. cbn.
      rewrite Hh. repeat split; auto.
      * apply lookup_app_l_Some. exact Hc4.
      * apply list_lookup_middle. reflexivity.
    + eexists _, _. split; [reflexivity|]. split; [exact F34|].
      eexists. split; [reflexivity|]. unfold refs_agree, log. cbn.
      rewrite Hh. destruct F34 as (A & _). auto 10.
  - eexists _, _. split; [reflexivity|]. split; [exact F34|].
    eexists. split; [reflexivity|]. unfold refs_agree, log. cbn.
    rewrite Hh. destruct F34 as (A & _). auto 10.
Qed.

Lemma anneal_loop_st_sim (g : nat) (steps : list Z) (sst : anneal_refs)
    (st : anneal_state) (w : store) :
  refs_agree w g sst st ->
  exists out w',
    anneal_loop_st settings weights iterations g steps sst w = Some (out, w')
    /\ frame g w w'
    /\ match anneal_loop settings weights iterations steps st with
       | Ok st' => exists sst', out = Ok sst' /\ refs_agree w' g sst' st'
       | Raise e => out = Raise e
       end.
Proof.
  revert sst st w. induction steps as [|step steps IH]; intros sst st w Hag;
    cbn [anneal_loop_st anneal_loop].
  - eexists _, _. split; [reflexivity|]. split; [apply frame_refl|]. eauto.
  - destruct (anneal_step_st_sim g sst st step w Hag) as (out & w1 & Hrun & F1 & Hres).
    unfold mbind at 1, St_bind. rewrite Hrun.
    destruct (anneal_step settings weights iterations st step) as [st1|e];
      cbn [mbind result_bind].
    + destruct Hres as (sst1 & -> & Hag1).
      destruct (IH sst1 st1 w1 Hag1) as (out2 & w2 & Hrun2 & F2 & Hres2).
      exists out2, w2. split; [exact Hrun2|].
      split; [eapply frame_trans; eassumption | exact Hres2].
    + subst out. eexists _, _. split; [reflexivity|]. split; [exact F1 | reflexivity].
Qed.

End Steps.

Lemma new_generator_bind {B : Type} (seed : Z) (k : nat -> St B) (w : store) :
  (new_generator seed ≫= k) w
  = k (length (generator_objects w))
      {| layout_objects := layout_objects w;
         generator_objects := generator_objects w ++ [Random seed] |}.
Proof. reflexivity. Qed.

(** A call on a reference to [layout] ends, with the outcome of the value
    model on [layout]; it writes no layout and no generator that existed
    before the call. *)
Lemma optimize_layout_st_sim (layout_ref : nat) (iterations : Z)
    (settings : option ConstraintSettings) (weights : option ScoreWeights)
    (seed : option Z) (w : store) (layout : Layout) :
  layout_objects w !! layout_ref = Some layout ->
  exists w',
    optimize_layout_st layout_ref iterations settings weights seed w
    = Some (optimize_layout layout iterations settings weights seed, w')
    /\ (forall k x, layout_objects w !! k = Some x -> layout_objects w' !! k = Some x)
    /\ (forall k r, generator_objects w !! k = Some r ->
                    generator_objects w' !! k = Some r).
Proof.
  intros Hl. unfold optimize_layout_st, optimize_layout, initial_state. cbv zeta.
  set (s := default default_settings settings).
  set (ws := default default_weights weights).
  rewrite (get_layout_bind _ _ _ _ Hl), pure_call_bind.
  destruct (rng_seed layout seed) as [sd|e]; cbn [mbind result_bind].
  2:{ exists w. auto. }
  rewrite new_generator_bind.
  set (g := length (generator_objects w)).
  set (w0 := {| layout_objects := layout_objects w;
                generator_objects := generator_objects w ++ [Random sd] |}).
  assert (Hkeep : forall w', frame g w0 w' ->
            (forall k x, layout_objects w !! k = Some x -> layout_objects w' !! k = Some x)
            /\ (forall k r, generator_objects w !! k = Some r ->
                            generator_objects w' !! k = Some r)).
  { intros w' (A & B & _). split.
    - intros k x Hk. apply A. exact Hk.
    - intros k r Hk. apply B.
      + apply lookup_lt_Some in Hk. subst g. lia.
      + subst w0. cbn. now apply lookup_app_l_Some. }
  assert (Hg0 : generator_objects w0 !! g = Some (Random sd))
    by (apply list_lookup_middle; reflexivity).
  rewrite (copy_layout_bind _ _ w0 layout) by exact Hl.
  destruct (_copy_layout layout) as [cur|e]; cbn [mbind result_bind].
  2:{ exists w0. split; [reflexivity|]. apply Hkeep, frame_refl. }
  set (w1 := alloc_layout cur w0).
  erewrite get_layout_bind by apply lookup_alloc.
  rewrite pure_call_bind.
  destruct (evaluate cur (Some s) (Some ws)) as [[cm cs]|e]; cbn [mbind result_bind].
  2:{ exists w1. split; [reflexivity|]. apply Hkeep, frame_alloc. }
  erewrite copy_layout_bind by apply lookup_alloc.
  destruct (_copy_layout cur) as [b|e]; cbn [mbind result_bind].
  2:{ exists w1. split; [reflexivity|]. apply Hkeep, frame_alloc. }
  set (w2 := alloc_layout b w1).
  match goal with
  | |- context [anneal_loop_st s ws iterations g ?steps ?sst] =>
      match goal with
      | |- context [anneal_loop s ws iterations steps ?st] =>
          destruct (anneal_loop_st_sim s ws iterations g steps sst st w2)
            as (out & w3 & Hrun & F3 & Hres)
      end
  end.
  { unfold refs_agree. cbn.
    repeat split; try reflexivity.
    - apply lookup_app_l_Some, list_lookup_middle. reflexivity.
    - apply list_lookup_middle. reflexivity.
    - exact Hg0. }
  unfold mbind at 1, St_bind. rewrite Hrun.
  assert (F : frame g w0 w3).
  { eapply frame_trans; [apply frame_alloc|].
    eapply frame_trans; [apply (frame_alloc g b w1) | exact F3]. }
  destruct (anneal_loop s ws iterations _ _) as [st|e]; cbn [mbind result_bind].
  2:{ subst out. exists w3. split; [reflexivity|]. apply Hkeep, F. }
  destruct Hres as (sst & -> & Hag).
  destruct Hag as (_ & Hb & _ & _ & _ & Hbm & Hbs & Hh).
  rewrite (get_layout_bind _ _ _ _ Hb). rewrite Hbm, Hbs, Hh.
  exists w3. split; [reflexivity|]. apply Hkeep, F.
Qed.

End StoreSimulation.

(** Claim C2.  A call of the optimizer on a reference to a layout, in a store
    that may hold any other layouts and generators, ends; a second call with
    the same arguments, made in the store that the first call leaves, ends
    with the same outcome: the same history, entry by entry, the same score
    and metrics, and a best layout with the same contents, or the same
    exception.  So does a call in any other store that holds the same layout,
    whatever reference it is given there.  The first call leaves every layout
    and every generator that existed before it as it was: it writes into its
    own copies and draws from the generator that it creates from the seed. *)
Theorem optimize_deterministic (H : Host) (w : store) (layout_ref : nat)
    (layout : Layout) (iterations : Z) (settings : option ConstraintSettings)
    (weights : option ScoreWeights) (seed : option Z) :
  layout_objects w !! layout_ref = Some layout ->
  exists out1 w1 out2 w2,
    optimize_layout_st layout_ref iterations settings weights seed w = Some (out1, w1)
    /\ optimize_layout_st layout_ref iterations settings weights seed w1 = Some (out2, w2)
    /\ out1 = out2
    /\ (forall res1 res2, out1 = Ok res1 -> out2 = Ok res2 ->
          result_history res1 = result_history res2
          /\ result_score res1 = result_score res2)
    /\ (forall k x, layout_objects w !! k = Some x -> layout_objects w1 !! k = Some x)
    /\ (forall k r, generator_objects w !! k = Some r ->
                    generator_objects w1 !! k = Some r)
    /\ (forall w' layout_ref',
          layout_objects w' !! layout_ref' = Some layout ->
          exists w'', optimize_layout_st layout_ref' iterations settings weights seed w'
                      = Some (out1, w'')).
Proof.
  intros Hl.
  destruct (optimize_layout_st_sim layout_ref iterations settings weights seed w layout Hl)
    as (w1 & Hrun1 & Hkeep & Hgen).
  destruct (optimize_layout_st_sim layout_ref iterations settings weights seed w1 layout
              (Hkeep _ _ Hl)) as (w2 & Hrun2 & _).
  eexists _, w1, _, w2. split; [exact Hrun1|]. split; [exact Hrun2|].
  split; [reflexivity|]. split.
  { intros res1 res2 E1 E2. rewrite E1 in E2. injection E2 as <-. auto. }
  split; [exact Hkeep|]. split; [exact Hgen|].
  intros w' l' Hl'.
  destruct (optimize_layout_st_sim l' iterations settings weights seed w' layout Hl')
    as (w'' & Hrun & _).
  exists w''. exact Hrun.
Qed.

(** Claim C2 on two calls in a row on the feasible layout, in a store that
    holds a generator of its own already. *)
Lemma optimize_deterministic_witness :
  exists out w1 w2,
    let w0 := {| layout_objects := [baseline_layout];
                 generator_objects := [@Random model_host 0%Z] |} in
    optimize_layout_st (H:=model_host) 0 2 None None (Some 5%Z) w0 = Some (out, w1)
    /\ optimize_layout_st (H:=model_host) 0 2 None None (Some 5%Z) w1 = Some (out, w2).
Proof.
  destruct (optimize_deterministic model_host
              {| layout_objects := [baseline_layout];
                 generator_objects := [@Random model_host 0%Z] |}
              0 baseline_layout 2 None None (Some 5%Z) eq_refl)
    as (out1 & w1 & out2 & w2 & Hrun1 & Hrun2 & E & _).
  exists out1, w1, w2. cbv zeta. split; [exact Hrun1|]. rewrite E. exact Hrun2.
Defined.

(** * The adjacency graph and its searches *)

(** ** What [_build_adjacency] builds *)





















(** ** The breadth-first search of the connectivity rule *)











Lemma graph_keys_nil (g : graph) : map fst g = [] -> g = [].
Proof. now destruct g. Qed.


